(** * CoGScale4Cell: the measurement pipeline of [Bilancia4_10.ino]

    A shallow embedding of the four-load-cell centre-of-gravity scale:
    smoothing, rounding, the centre-of-gravity arithmetic of
    [updateWeightData], the calibration procedure and the serial command
    interpreter, followed by the properties of the specification.

    Target and data model.  The sketch is written for an AVR board (pins
    A0..A5, hardware SPI on 11/13).  With avr-gcc [float] and [double] are
    both IEEE-754 binary32, [long] has 32 bits and [int16_t] 16 bits.  Floats
    are therefore the binary32 instance of the standard library's
    [SpecFloat] (precision 24, emax 128, round to nearest even), integers are
    [Z] with the wrap-around written out.  The display is not modelled; the
    buttons are the levels sampled in a turn of [loop], the serial port is a
    stream of received characters and a list of printed items. *)

From Stdlib Require Import ZArith List Bool String Ascii Lia.
From Stdlib Require Import Floats.SpecFloat.
From Stdlib Require Import QArith Qpower Lqa Qabs Qround.
Import ListNotations.

Open Scope Z_scope.

(** ** Binary32 arithmetic *)

Module F32.

Definition prec : Z := 24.
Definition emax : Z := 128.

Definition float : Type := spec_float.

Definition add : float -> float -> float := SFadd prec emax.
Definition sub : float -> float -> float := SFsub prec emax.
Definition mul : float -> float -> float := SFmul prec emax.
Definition div : float -> float -> float := SFdiv prec emax.
Definition neg : float -> float := SFopp.

(** C comparisons; every comparison with a NaN is false. *)
Definition lt (x y : float) : bool := SFltb x y.
Definition le (x y : float) : bool := SFleb x y.
Definition gt (x y : float) : bool := SFltb y x.
Definition ge (x y : float) : bool := SFleb y x.
(** [x != y] in C: true when the operands are unordered. *)
Definition ne (x y : float) : bool := negb (SFeqb x y).
Definition eq (x y : float) : bool := SFeqb x y.

(** Conversion of an integer ([int], [long]) to float. *)
Definition of_Z (n : Z) : float := binary_normalize prec emax n 0 false.

(** The float nearest to the fraction [n / d] ([0 < d]): the value of a
    decimal literal such as [4.71192] = [lit 471192 100000]. *)
Definition lit (n d : Z) : float :=
  match n with
  | Z0 => S754_zero false
  | _ =>
    let '(q, e, l) := SFdiv_core_binary prec emax (Z.abs n) 0 d 0 in
    binary_round_aux prec emax (n <? 0) q e l
  end.

Definition zero : float := S754_zero false.
Definition half : float := lit 1 2.

End F32.

Abbreviation float := F32.float.

(** ** Integer types of the target *)

Definition wrap (bits : Z) (z : Z) : Z :=
  (z + 2 ^ (bits - 1)) mod 2 ^ bits - 2 ^ (bits - 1).

(** Narrowing to [int16_t] and to [long]. *)
Definition wrap16 : Z -> Z := wrap 16.
Definition wrap32 : Z -> Z := wrap 32.

Definition LONG_MIN : Z := - 2 ^ 31.
Definition LONG_MAX : Z := 2 ^ 31 - 1.

(** ** Serial output

    What [Serial.print] and [Serial.println] have sent so far, oldest first.
    Numbers are kept as numbers: [OFlt f d] is [Serial.print(f, d)]. *)
Inductive Out : Type :=
| OStr (s : string)
| OInt (z : Z)
| OFlt (f : float) (decimals : Z)
| ONewline.

Definition print_s (s : string) : list Out := [OStr s].
Definition println_s (s : string) : list Out := [OStr s; ONewline].
Definition print_i (z : Z) : list Out := [OInt z].
Definition println_i (z : Z) : list Out := [OInt z; ONewline].
Definition print_f (f : float) (d : Z) : list Out := [OFlt f d].
Definition println_f (f : float) (d : Z) : list Out := [OFlt f d; ONewline].

(** ** Arduino [String] operations used by the command interpreter *)

Definition isspace (c : ascii) : bool :=
  let n := N_of_ascii c in
  (n =? 32)%N || ((9 <=? n)%N && (n <=? 13)%N).

Fixpoint trim_left (s : string) : string :=
  match s with
  | String c r => if isspace c then trim_left r else s
  | EmptyString => EmptyString
  end.

(** Drops trailing white space: a character is kept when it is not a space
    or when something is kept after it. *)
Fixpoint trim_right (s : string) : string :=
  match s with
  | String c r =>
    match trim_right r with
    | EmptyString => if isspace c then EmptyString else String c EmptyString
    | r' => String c r'
    end
  | EmptyString => EmptyString
  end.

Definition trim (s : string) : string := trim_right (trim_left s).

Definition str_length (s : string) : Z := Z.of_nat (String.length s).

(** [charAt] answers 0 outside the string. *)
Definition charAt (i : nat) (s : string) : ascii :=
  match String.get i s with
  | Some c => c
  | None => Ascii.zero
  end.

Fixpoint indexOf_from (c : ascii) (s : string) (i : Z) : Z :=
  match s with
  | EmptyString => -1
  | String d r => if Ascii.eqb c d then i else indexOf_from c r (i + 1)
  end.

Definition indexOf (c : ascii) (s : string) : Z := indexOf_from c s 0.

Definition startsWith (p s : string) : bool := String.prefix p s.

(** [substring(from)]: the rest of the string from index [from]. *)
Fixpoint substring_from (from : nat) (s : string) : string :=
  match from, s with
  | O, _ => s
  | S n, String _ r => substring_from n r
  | S _, EmptyString => EmptyString
  end.

(** A plain decimal reader ([-12.5], [0.500], [3]): sign, digits, an
    optional fraction; reading stops at the first other character and a
    text without digits gives 0.  It is the instance of [String::toFloat]
    used to run the model on concrete command lines; the model itself takes
    the conversion as a parameter. *)
Definition digit_of (c : ascii) : option Z :=
  let n := Z.of_N (N_of_ascii c) in
  if (48 <=? n) && (n <=? 57) then Some (n - 48) else None.

Fixpoint read_digits (s : string) (acc : Z) (count : Z) : Z * Z * string :=
  match s with
  | String c r =>
    match digit_of c with
    | Some d => read_digits r (10 * acc + d) (count + 1)
    | None => (acc, count, s)
    end
  | EmptyString => (acc, count, s)
  end.

Definition decimal_toFloat (s : string) : float :=
  let s := trim_left s in
  let '(negative, s) :=
    match s with
    | String "-"%char r => (true, r)
    | String "+"%char r => (false, r)
    | _ => (false, s)
    end in
  let '(ip, _, s) := read_digits s 0 0 in
  let '(num, k) :=
    match s with
    | String "."%char r =>
      let '(n, k, _) := read_digits r ip 0 in (n, k)
    | _ => (ip, 0)
    end in
  let v := F32.lit num (10 ^ k) in
  if negative then F32.neg v else v.

(** ** Configuration constants

    [BASE_WIDTH], [BASE_LENGTH] and [WING_PEG_DIST] are global constants of
    the sketch and [CORRECTION_FACTOR] a local constant of
    [updateWeightData]; they are gathered in a record so that the
    specification's statements about other values can be stated. *)
Record Config : Type := {
  BASE_WIDTH : float;
  BASE_LENGTH : float;
  WING_PEG_DIST : float;
  CORRECTION_FACTOR : float
}.

(** The values compiled into the sketch. *)
Definition sketch_config : Config := {|
  BASE_WIDTH := F32.lit 270 1;
  BASE_LENGTH := F32.lit 250 1;
  WING_PEG_DIST := F32.lit 120 1;
  CORRECTION_FACTOR := F32.lit 471192 100000
|}.

Definition SMOOTHING_SAMPLES : Z := 5.

(** ** The load-cell amplifier

    Modelled from the spec: the [HX711] driver class is a library outside
    the sources.  A channel keeps a zero offset and a scale factor; its
    reported weight is [(raw_reading - zero_offset) / scale_factor]; [tare]
    captures the current reading as the new offset.  The averaged reading
    the chip delivers for one call ([read_average(times)], a [long]) is an
    input of the model. *)
Record HX711 : Type := {
  OFFSET : Z;
  SCALE : float
}.

Definition set_scale (s : float) (h : HX711) : HX711 :=
  {| OFFSET := OFFSET h; SCALE := s |}.

Definition tare (reading : Z) (h : HX711) : HX711 :=
  {| OFFSET := reading; SCALE := SCALE h |}.

Definition get_value (reading : Z) (h : HX711) : float :=
  F32.of_Z (wrap32 (reading - OFFSET h)).

Definition get_units (reading : Z) (h : HX711) : float :=
  F32.div (get_value reading h) (SCALE h).

(** The four averaged readings of one pass over the cells. *)
Record Reads : Type := {
  rd1 : Z;
  rd2 : Z;
  rd3 : Z;
  rd4 : Z
}.

(** ** Global state of the sketch *)

Record Cells : Type := {
  scale1 : HX711;
  scale2 : HX711;
  scale3 : HX711;
  scale4 : HX711;
  calibration_factor1 : float;
  calibration_factor2 : float;
  calibration_factor3 : float;
  calibration_factor4 : float
}.

Record Smoothing : Type := {
  weight1Samples : list float;
  weight2Samples : list float;
  weight3Samples : list float;
  weight4Samples : list float;
  sampleIndex : Z
}.

Record Measurement : Type := {
  totalWeight : float;
  cogX : Z;
  cogY : Z;
  wingCogX : Z;
  lateralCogDiff : Z;
  cogPercentage : Z
}.

Record State : Type := {
  cells : Cells;
  smoothing : Smoothing;
  meas : Measurement;
  continuousMode : bool;
  taraEffettuata : bool;
  menuActive : bool;
  menuPosition : Z;
  serial : list Out
}.

Definition with_cells (c : Cells) (st : State) : State :=
  {| cells := c; smoothing := smoothing st; meas := meas st;
     continuousMode := continuousMode st; taraEffettuata := taraEffettuata st;
     menuActive := menuActive st; menuPosition := menuPosition st;
     serial := serial st |}.

Definition with_smoothing (s : Smoothing) (st : State) : State :=
  {| cells := cells st; smoothing := s; meas := meas st;
     continuousMode := continuousMode st; taraEffettuata := taraEffettuata st;
     menuActive := menuActive st; menuPosition := menuPosition st;
     serial := serial st |}.

Definition with_meas (m : Measurement) (st : State) : State :=
  {| cells := cells st; smoothing := smoothing st; meas := m;
     continuousMode := continuousMode st; taraEffettuata := taraEffettuata st;
     menuActive := menuActive st; menuPosition := menuPosition st;
     serial := serial st |}.

Definition with_continuousMode (b : bool) (st : State) : State :=
  {| cells := cells st; smoothing := smoothing st; meas := meas st;
     continuousMode := b; taraEffettuata := taraEffettuata st;
     menuActive := menuActive st; menuPosition := menuPosition st;
     serial := serial st |}.

Definition with_taraEffettuata (b : bool) (st : State) : State :=
  {| cells := cells st; smoothing := smoothing st; meas := meas st;
     continuousMode := continuousMode st; taraEffettuata := b;
     menuActive := menuActive st; menuPosition := menuPosition st;
     serial := serial st |}.

Definition with_menu (active : bool) (position : Z) (st : State) : State :=
  {| cells := cells st; smoothing := smoothing st; meas := meas st;
     continuousMode := continuousMode st; taraEffettuata := taraEffettuata st;
     menuActive := active; menuPosition := position;
     serial := serial st |}.

(** [Serial.print]: the items are appended to what was sent. *)
Definition say (o : list Out) (st : State) : State :=
  {| cells := cells st; smoothing := smoothing st; meas := meas st;
     continuousMode := continuousMode st; taraEffettuata := taraEffettuata st;
     menuActive := menuActive st; menuPosition := menuPosition st;
     serial := serial st ++ o |}.

Definition zero_window : list float := repeat F32.zero 5.

(** The globals as initialised at their declarations; a fresh [HX711]
    has offset 0 and scale 1. *)
Definition initial_cells : Cells :=
  let fresh := {| OFFSET := 0; SCALE := F32.lit 1 1 |} in
  {| scale1 := fresh; scale2 := fresh; scale3 := fresh; scale4 := fresh;
     calibration_factor1 := F32.lit (-41197959) 100;
     calibration_factor2 := F32.lit (-23771598) 100;
     calibration_factor3 := F32.lit (-35098641) 100;
     calibration_factor4 := F32.lit (-53386225) 100 |}.

Definition initial_smoothing : Smoothing :=
  {| weight1Samples := zero_window; weight2Samples := zero_window;
     weight3Samples := zero_window; weight4Samples := zero_window;
     sampleIndex := 0 |}.

Definition initial_meas : Measurement :=
  {| totalWeight := F32.zero; cogX := 0; cogY := 0; wingCogX := 0;
     lateralCogDiff := 0; cogPercentage := 0 |}.

(** The state of the globals before [setup] runs. *)
Definition initial_state : State :=
  {| cells := initial_cells; smoothing := initial_smoothing;
     meas := initial_meas; continuousMode := true; taraEffettuata := false;
     menuActive := false; menuPosition := 0; serial := [] |}.

(** ** The firmware

    Two things come from the platform and are parameters of the model:
    the result of converting to [long] a float that no [long] represents
    (C leaves that conversion undefined), and [String::toFloat]. *)
Section Firmware.

Variable fix_ub : float -> Z.
Variable toFloat : string -> float.

(** [(long) x]: truncation toward zero. *)
Definition to_long (x : float) : Z :=
  match x with
  | S754_zero _ => 0
  | S754_finite s m e =>
    let a := Z.shiftl (Zpos m) e in
    let v := if s then - a else a in
    if (LONG_MIN <=? v) && (v <=? LONG_MAX) then v else wrap32 (fix_ub x)
  | _ => wrap32 (fix_ub x)
  end.

(** The [round] macro of the Arduino core for AVR:
    [((x)>=0?(long)((x)+0.5):(long)((x)-0.5))]. *)
Definition round (x : float) : Z :=
  if F32.ge x F32.zero then to_long (F32.add x F32.half)
  else to_long (F32.sub x F32.half).

Definition roundWeightToDecagram (weight : float) : float :=
  F32.div (F32.of_Z (round (F32.mul weight (F32.of_Z 100)))) (F32.lit 100 1).

Definition roundToMillimeter (value : float) : Z :=
  wrap16 (round value).

(** [samples[index] = newValue]; an index outside the array is not
    written (the sketch keeps [sampleIndex] below [SMOOTHING_SAMPLES]). *)
Fixpoint store (samples : list float) (index : nat) (v : float) : list float :=
  match samples, index with
  | [], _ => []
  | _ :: r, O => v :: r
  | x :: r, S n => x :: store r n v
  end.

(** The summation loop over [i = 0 .. SMOOTHING_SAMPLES - 1]. *)
Definition sum_samples (samples : list float) : float :=
  fold_left (fun sum i => F32.add sum (nth i samples F32.zero))
            (seq 0 (Z.to_nat SMOOTHING_SAMPLES)) F32.zero.

(** [smoothValue] writes into the caller's array: the updated array is
    returned with the mean. *)
Definition smoothValue (newValue : float) (samples : list float) (index : Z)
  : list float * float :=
  let samples := store samples (Z.to_nat index) newValue in
  (samples, F32.div (sum_samples samples) (F32.of_Z SMOOTHING_SAMPLES)).

(** The four corrected, smoothed and rounded weights of one cycle. *)
Record Weights : Type := {
  weight1 : float;
  weight2 : float;
  weight3 : float;
  weight4 : float
}.

Definition sum_weights (w : Weights) : float :=
  F32.add (F32.add (F32.add (weight1 w) (weight2 w)) (weight3 w)) (weight4 w).

(** First half of [updateWeightData]: reading, correction, smoothing and
    rounding.  Gives the raw weights, the updated windows and the rounded
    weights. *)
Definition acquire (cfg : Config) (reads : Reads) (st : State)
  : Weights * Smoothing * Weights :=
  let c := cells st in
  let sm := smoothing st in
  let rawWeight1 := get_units (rd1 reads) (scale1 c) in
  let rawWeight2 := get_units (rd2 reads) (scale2 c) in
  let rawWeight3 := get_units (rd3 reads) (scale3 c) in
  let rawWeight4 := get_units (rd4 reads) (scale4 c) in
  let correctedWeight1 := F32.mul rawWeight1 (CORRECTION_FACTOR cfg) in
  let correctedWeight2 := F32.mul rawWeight2 (CORRECTION_FACTOR cfg) in
  let correctedWeight3 := F32.mul rawWeight3 (CORRECTION_FACTOR cfg) in
  let correctedWeight4 := F32.mul rawWeight4 (CORRECTION_FACTOR cfg) in
  let '(s1, m1) := smoothValue correctedWeight1 (weight1Samples sm) (sampleIndex sm) in
  let '(s2, m2) := smoothValue correctedWeight2 (weight2Samples sm) (sampleIndex sm) in
  let '(s3, m3) := smoothValue correctedWeight3 (weight3Samples sm) (sampleIndex sm) in
  let '(s4, m4) := smoothValue correctedWeight4 (weight4Samples sm) (sampleIndex sm) in
  ({| weight1 := rawWeight1; weight2 := rawWeight2;
      weight3 := rawWeight3; weight4 := rawWeight4 |},
   {| weight1Samples := s1; weight2Samples := s2;
      weight3Samples := s3; weight4Samples := s4;
      sampleIndex := sampleIndex sm |},
   {| weight1 := roundWeightToDecagram m1;
      weight2 := roundWeightToDecagram m2;
      weight3 := roundWeightToDecagram m3;
      weight4 := roundWeightToDecagram m4 |}).

(** The two quotients of the four-point formula, the locals
    [cogX_centered] and [cogY_fromLE] of [updateWeightData]. *)
Definition cogX_centered (cfg : Config) (w : Weights) : float :=
  let X1 := F32.div (F32.neg (BASE_WIDTH cfg)) (F32.lit 2 1) in
  let X2 := F32.div (BASE_WIDTH cfg) (F32.lit 2 1) in
  let X3 := F32.div (F32.neg (BASE_WIDTH cfg)) (F32.lit 2 1) in
  let X4 := F32.div (BASE_WIDTH cfg) (F32.lit 2 1) in
  F32.div
    (F32.add (F32.add (F32.add (F32.mul (weight1 w) X1) (F32.mul (weight2 w) X2))
                      (F32.mul (weight3 w) X3))
             (F32.mul (weight4 w) X4))
    (sum_weights w).

Definition cogY_fromLE (cfg : Config) (w : Weights) : float :=
  let Y1 := F32.zero in
  let Y2 := F32.zero in
  let Y3 := BASE_LENGTH cfg in
  let Y4 := BASE_LENGTH cfg in
  F32.div
    (F32.add (F32.add (F32.add (F32.mul (weight1 w) Y1) (F32.mul (weight2 w) Y2))
                      (F32.mul (weight3 w) Y3))
             (F32.mul (weight4 w) Y4))
    (sum_weights w).

(** Second half of [updateWeightData]: the centre of gravity from the
    rounded weights.  [prev] holds the globals before the cycle. *)
Definition centre_of_gravity (cfg : Config) (w : Weights) (prev : Measurement)
  : Measurement * list Out :=
  let total := sum_weights w in
  if F32.gt total (F32.lit 1 100) then
    let lateral := roundToMillimeter (cogX_centered cfg w) in
    let y := roundToMillimeter (cogY_fromLE cfg w) in
    let wing := y in
    let percentage :=
      if F32.gt (WING_PEG_DIST cfg) F32.zero then
        wrap16 (round (F32.mul (F32.div (F32.of_Z wing) (WING_PEG_DIST cfg))
                               (F32.lit 100 1)))
      else cogPercentage prev in
    ({| totalWeight := total; cogX := cogX prev; cogY := y; wingCogX := wing;
        lateralCogDiff := lateral; cogPercentage := percentage |},
     print_s "Lateral balance: "
     ++ (if 0 <? lateral then print_s "+" else [])
     ++ print_i lateral
     ++ println_s " mm from center"
     ++ print_s "Wing CG: "
     ++ print_i wing
     ++ println_s " mm from Leading Edge")
  else
    ({| totalWeight := total; cogX := 0; cogY := 0; wingCogX := 0;
        lateralCogDiff := 0; cogPercentage := 0 |},
     []).

Definition updateWeightData (cfg : Config) (reads : Reads) (st : State) : State :=
  let '(raw, sm, w) := acquire cfg reads st in
  let total := sum_weights w in
  let debug :=
    print_s "Raw Weights: "
    ++ print_f (weight1 raw) 3 ++ print_s " + "
    ++ print_f (weight2 raw) 3 ++ print_s " + "
    ++ print_f (weight3 raw) 3 ++ print_s " + "
    ++ print_f (weight4 raw) 3 ++ print_s " = "
    ++ print_f (sum_weights raw) 3
    ++ println_s " kg"
    ++ print_s "Corrected Weights: "
    ++ print_f (weight1 w) 3 ++ print_s " + "
    ++ print_f (weight2 w) 3 ++ print_s " + "
    ++ print_f (weight3 w) 3 ++ print_s " + "
    ++ print_f (weight4 w) 3 ++ print_s " = "
    ++ print_f total 3
    ++ println_s " kg" in
  let '(m, out) := centre_of_gravity cfg w (meas st) in
  say (debug ++ out) (with_meas m (with_smoothing sm st)).

(** [printSerialData]; [reads] are the single readings taken by the
    four [get_units()] calls of the report. *)
Definition printSerialData (reads : Reads) (st : State) : State :=
  let c := cells st in
  let m := meas st in
  say (println_s "===== MEASUREMENT REPORT ====="
       ++ print_s "Total weight: "
       ++ print_f (totalWeight m) 3
       ++ println_s " kg"
       ++ print_s "Cells [LF, RF, LR, RR]: ["
       ++ print_f (get_units (rd1 reads) (scale1 c)) 3 ++ print_s ", "
       ++ print_f (get_units (rd2 reads) (scale2 c)) 3 ++ print_s ", "
       ++ print_f (get_units (rd3 reads) (scale3 c)) 3 ++ print_s ", "
       ++ print_f (get_units (rd4 reads) (scale4 c)) 3
       ++ println_s "]"
       ++ print_s "CG X: "
       ++ print_i (cogX m)
       ++ println_s " mm from left"
       ++ print_s "CG Y: "
       ++ print_i (cogY m)
       ++ println_s " mm from front"
       ++ print_s "Wing CG: "
       ++ print_i (wingCogX m)
       ++ println_s " mm"
       ++ print_s "CG %: "
       ++ print_i (cogPercentage m)
       ++ println_s "% of wing peg distance"
       ++ print_s "Lateral balance: "
       ++ (if 0 <? lateralCogDiff m then print_s "+" else [])
       ++ print_i (lateralCogDiff m)
       ++ println_s " mm from center"
       ++ println_s "=============================") st.

Definition advance_sampleIndex (st : State) : State :=
  let sm := smoothing st in
  with_smoothing
    {| weight1Samples := weight1Samples sm; weight2Samples := weight2Samples sm;
       weight3Samples := weight3Samples sm; weight4Samples := weight4Samples sm;
       sampleIndex := (sampleIndex sm + 1) mod SMOOTHING_SAMPLES |} st.

(** *** The menu and the tare screen

    The screens block on the buttons.  What the operator does inside
    [showMainMenu] until leaving it is an input of the model: a sequence of
    button presses, each with the readings its action consumes. *)
Inductive Screen : Type :=
| PressK4                         (* leave the menu *)
| PressK2 (next : Screen)         (* selection up *)
| PressK3 (next : Screen)         (* selection down *)
| PressK1 (tare_reads : Reads)    (* readings taken by [tareScales] *)
          (tare_menu : Screen)    (* the menu opened when the tare screen is left *)
          (refreshes : list Reads) (* readings of the periodic refresh of a view *)
          (next : Screen).

Definition MAIN_MENU_ITEMS : Z := 3.

(** The loop [for j < SMOOTHING_SAMPLES] of [tareScales]. *)
Definition clear_window (samples : list float) : list float :=
  fold_left (fun s j => store s j F32.zero)
            (seq 0 (Z.to_nat SMOOTHING_SAMPLES)) samples.

(** [tareScales] up to the point where it waits for K4. *)
Definition tare_cells (reads : Reads) (st : State) : State :=
  let c := cells st in
  let sm := smoothing st in
  let c := {| scale1 := tare (rd1 reads) (scale1 c);
              scale2 := tare (rd2 reads) (scale2 c);
              scale3 := tare (rd3 reads) (scale3 c);
              scale4 := tare (rd4 reads) (scale4 c);
              calibration_factor1 := calibration_factor1 c;
              calibration_factor2 := calibration_factor2 c;
              calibration_factor3 := calibration_factor3 c;
              calibration_factor4 := calibration_factor4 c |} in
  let sm := {| weight1Samples := clear_window (weight1Samples sm);
               weight2Samples := clear_window (weight2Samples sm);
               weight3Samples := clear_window (weight3Samples sm);
               weight4Samples := clear_window (weight4Samples sm);
               sampleIndex := sampleIndex sm |} in
  with_taraEffettuata true (with_smoothing sm (with_cells c st)).

(** [showCGView] and [showLateralBalance]: [updateWeightData] at every
    refresh until K4. *)
Definition show_view (cfg : Config) (refreshes : list Reads) (st : State) : State :=
  fold_left (fun st r => updateWeightData cfg r st) refreshes st.

Definition with_menuActive (b : bool) (st : State) : State :=
  with_menu b (menuPosition st) st.

(** The [while (!exitMenu)] loop of [showMainMenu].  Selecting "Scale
    Tare" runs [tareScales], which ends in a nested [showMainMenu]: it is
    written out here and shown below to be [tareScales]. *)
Fixpoint menu_loop (cfg : Config) (s : Screen) (st : State) : State :=
  match s with
  | PressK1 tare_reads tare_menu refreshes next =>
    let st :=
      if menuPosition st =? 0 then
        with_menuActive false
          (menu_loop cfg tare_menu
             (with_menu true 0 (with_menu true 0 (tare_cells tare_reads st))))
      else if menuPosition st =? 1 then show_view cfg refreshes st
      else if menuPosition st =? 2 then show_view cfg refreshes st
      else st in
    menu_loop cfg next st
  | PressK2 next =>
    menu_loop cfg next
      (with_menu (menuActive st)
         (if 0 <? menuPosition st then menuPosition st - 1 else MAIN_MENU_ITEMS - 1) st)
  | PressK3 next =>
    menu_loop cfg next
      (with_menu (menuActive st) ((menuPosition st + 1) mod MAIN_MENU_ITEMS) st)
  | PressK4 => st
  end.

Definition showMainMenu (cfg : Config) (s : Screen) (st : State) : State :=
  with_menuActive false (menu_loop cfg s (with_menu true 0 st)).

(** [tareScales]: the tare, then K4 opens the main menu. *)
Definition tareScales (cfg : Config) (reads : Reads) (menu : Screen) (st : State)
  : State :=
  showMainMenu cfg menu (with_menu true 0 (tare_cells reads st)).

(** *** Serial input

    The characters received on the serial port, in order of arrival.  A
    loop that waits for input when none is left waits forever: the
    function then has no result. *)
Fixpoint readStringUntil (terminator : ascii) (rx : list ascii)
  : string * list ascii :=
  match rx with
  | [] => (EmptyString, [])
  | c :: r =>
    if Ascii.eqb c terminator then (EmptyString, r)
    else let '(s, r') := readStringUntil terminator r in (String c s, r')
  end.

Definition newline : ascii := ascii_of_N 10.

(** *** Calibration *)

(** The readings taken during one calibration: by the four [tare()]
    calls, by the four [get_value(10)] calls and by the four
    [get_units(5)] calls of the final test. *)
Record CalReads : Type := {
  tare_reads : Reads;
  raw_reads : Reads;
  verify_reads : Reads
}.

(** First wait loop: characters are read one at a time until a ['t']. *)
Fixpoint await_tare (rx : list ascii) : option (list ascii) :=
  match rx with
  | [] => None
  | c :: r => if Ascii.eqb c "t" then Some r else await_tare r
  end.

(** Second wait loop: lines are read until one converts to a weight
    above zero.  Every turn consumes a character, so [fuel] above the
    length of [rx] is never exhausted. *)
Fixpoint await_weight (fuel : nat) (rx : list ascii) (out : list Out)
  : option (float * list ascii * list Out) :=
  match fuel with
  | O => None
  | S fuel =>
    match rx with
    | [] => None
    | _ =>
      let '(input, r) := readStringUntil newline rx in
      let knownWeight := toFloat input in
      if F32.gt knownWeight F32.zero then
        Some (knownWeight, r,
              out ++ print_s "Weight entered: " ++ print_f knownWeight 3
                  ++ println_s " kg")
      else await_weight fuel r (out ++ println_s "Invalid weight. Try again: ")
    end
  end.

Definition tare_all (reads : Reads) (c : Cells) : Cells :=
  {| scale1 := tare (rd1 reads) (scale1 c);
     scale2 := tare (rd2 reads) (scale2 c);
     scale3 := tare (rd3 reads) (scale3 c);
     scale4 := tare (rd4 reads) (scale4 c);
     calibration_factor1 := calibration_factor1 c;
     calibration_factor2 := calibration_factor2 c;
     calibration_factor3 := calibration_factor3 c;
     calibration_factor4 := calibration_factor4 c |}.

(** The step that computes and applies the four factors. *)
Definition compute_factors (raw1 raw2 raw3 raw4 knownWeight : float) (c : Cells)
  : Cells :=
  let rawSum := F32.add (F32.add (F32.add raw1 raw2) raw3) raw4 in
  let f1 := F32.mul (F32.mul (F32.div raw1 rawSum) knownWeight) (F32.lit 4 1) in
  let f2 := F32.mul (F32.mul (F32.div raw2 rawSum) knownWeight) (F32.lit 4 1) in
  let f3 := F32.mul (F32.mul (F32.div raw3 rawSum) knownWeight) (F32.lit 4 1) in
  let f4 := F32.mul (F32.mul (F32.div raw4 rawSum) knownWeight) (F32.lit 4 1) in
  {| scale1 := set_scale f1 (scale1 c);
     scale2 := set_scale f2 (scale2 c);
     scale3 := set_scale f3 (scale3 c);
     scale4 := set_scale f4 (scale4 c);
     calibration_factor1 := f1; calibration_factor2 := f2;
     calibration_factor3 := f3; calibration_factor4 := f4 |}.

Definition calibrateCellsViaSerial (env : CalReads) (rx : list ascii) (st : State)
  : option (list ascii * State) :=
  let prevMode := continuousMode st in
  let st := with_continuousMode false st in
  let st := say (println_s "=== CALIBRATION PROCEDURE ==="
                 ++ println_s "1. Remove all weight from platform"
                 ++ println_s "2. Send 't' to tare cells") st in
  match await_tare rx with
  | None => None
  | Some rx =>
    let st := say (println_s "Taring cells...") st in
    let st := with_cells (tare_all (tare_reads env) (cells st)) st in
    let st := say (println_s "Tare completed."
                   ++ println_s "3. Place a known weight (e.g. 500g) at the center of the platform"
                   ++ println_s "4. Enter weight in kg (e.g. 0.500): ") st in
    match await_weight (S (List.length rx)) rx [] with
    | None => None
    | Some (knownWeight, rx, out) =>
      let st := say (out ++ println_s "Reading raw values from cells...") st in
      let c := cells st in
      let raw1 := get_value (rd1 (raw_reads env)) (scale1 c) in
      let raw2 := get_value (rd2 (raw_reads env)) (scale2 c) in
      let raw3 := get_value (rd3 (raw_reads env)) (scale3 c) in
      let raw4 := get_value (rd4 (raw_reads env)) (scale4 c) in
      let st := say (print_s "Cell 1 raw value: " ++ println_f raw1 2
                     ++ print_s "Cell 2 raw value: " ++ println_f raw2 2
                     ++ print_s "Cell 3 raw value: " ++ println_f raw3 2
                     ++ print_s "Cell 4 raw value: " ++ println_f raw4 2
                     ++ println_s "Calculating calibration factors...") st in
      let c := compute_factors raw1 raw2 raw3 raw4 knownWeight c in
      let st := with_cells c st in
      let st := say (println_s "New calibration factors:"
                     ++ print_s "Cell 1: " ++ println_f (calibration_factor1 c) 2
                     ++ print_s "Cell 2: " ++ println_f (calibration_factor2 c) 2
                     ++ print_s "Cell 3: " ++ println_f (calibration_factor3 c) 2
                     ++ print_s "Cell 4: " ++ println_f (calibration_factor4 c) 2
                     ++ println_s "Testing calibration with reference weight..."
                     ++ println_s "Measured weights after calibration:") st in
      let measuredWeight1 := get_units (rd1 (verify_reads env)) (scale1 c) in
      let measuredWeight2 := get_units (rd2 (verify_reads env)) (scale2 c) in
      let measuredWeight3 := get_units (rd3 (verify_reads env)) (scale3 c) in
      let measuredWeight4 := get_units (rd4 (verify_reads env)) (scale4 c) in
      let st := say (print_s "Cell 1: " ++ print_f measuredWeight1 3 ++ println_s " kg"
                     ++ print_s "Cell 2: " ++ print_f measuredWeight2 3 ++ println_s " kg"
                     ++ print_s "Cell 3: " ++ print_f measuredWeight3 3 ++ println_s " kg"
                     ++ print_s "Cell 4: " ++ print_f measuredWeight4 3 ++ println_s " kg")
                    st in
      Some (rx, with_continuousMode prevMode st)
    end
  end.

Definition toggleContinuousMode (st : State) : State :=
  let st := with_continuousMode (negb (continuousMode st)) st in
  say (println_s (if continuousMode st then "Continuous reading on"
                  else "Reading paused")) st.

Definition showCalibrationFactors (st : State) : State :=
  let c := cells st in
  say (println_s "===== CURRENT CALIBRATION FACTORS ====="
       ++ print_s "Cell 1: " ++ println_f (calibration_factor1 c) 6
       ++ print_s "Cell 2: " ++ println_f (calibration_factor2 c) 6
       ++ print_s "Cell 3: " ++ println_f (calibration_factor3 c) 6
       ++ print_s "Cell 4: " ++ println_f (calibration_factor4 c) 6
       ++ println_s "=======================================") st.

Definition setCorrectionFactor (newFactor : float) (st : State) : State :=
  say (print_s "New correction factor set: "
       ++ println_f newFactor 4
       ++ println_s "Copy this value and update the CORRECTION_FACTOR in updateWeightData()"
       ++ println_s "Then recompile and upload the code") st.

(** *** Serial commands *)

(** Button pins: A2, A3, A5 and A4 of the ATmega328P pin map. *)
Definition BUTTON_K1 : Z := 16.
Definition BUTTON_K2 : Z := 17.
Definition BUTTON_K3 : Z := 19.
Definition BUTTON_K4 : Z := 18.

(** What the commands read from the outside while they run. *)
Record CommandEnv : Type := {
  z_reads : Reads;        (* 'z': readings of the tare *)
  z_menu : Screen;        (* 'z': the menu opened by the tare screen *)
  c_reads : CalReads;     (* 'c': readings of the calibration *)
  m_menu : Screen;        (* 'm': the operator's session in the menu *)
  d_reads : Reads;        (* 'd': one raw [read()] per cell *)
  d_k1 : Z;               (* 'd': [digitalRead] of the four buttons *)
  d_k2 : Z;
  d_k3 : Z;
  d_k4 : Z
}.

Definition set_cell_factor (cellNumber : Z) (value : float) (c : Cells) : Cells :=
  if cellNumber =? 1 then
    {| scale1 := set_scale value (scale1 c); scale2 := scale2 c;
       scale3 := scale3 c; scale4 := scale4 c;
       calibration_factor1 := value;
       calibration_factor2 := calibration_factor2 c;
       calibration_factor3 := calibration_factor3 c;
       calibration_factor4 := calibration_factor4 c |}
  else if cellNumber =? 2 then
    {| scale1 := scale1 c; scale2 := set_scale value (scale2 c);
       scale3 := scale3 c; scale4 := scale4 c;
       calibration_factor1 := calibration_factor1 c;
       calibration_factor2 := value;
       calibration_factor3 := calibration_factor3 c;
       calibration_factor4 := calibration_factor4 c |}
  else if cellNumber =? 3 then
    {| scale1 := scale1 c; scale2 := scale2 c;
       scale3 := set_scale value (scale3 c); scale4 := scale4 c;
       calibration_factor1 := calibration_factor1 c;
       calibration_factor2 := calibration_factor2 c;
       calibration_factor3 := value;
       calibration_factor4 := calibration_factor4 c |}
  else if cellNumber =? 4 then
    {| scale1 := scale1 c; scale2 := scale2 c;
       scale3 := scale3 c; scale4 := set_scale value (scale4 c);
       calibration_factor1 := calibration_factor1 c;
       calibration_factor2 := calibration_factor2 c;
       calibration_factor3 := calibration_factor3 c;
       calibration_factor4 := value |}
  else c.

(** The single-character commands. *)
Definition basic_command (cfg : Config) (env : CommandEnv) (cmd : ascii)
           (rx : list ascii) (st : State) : option (list ascii * State) :=
  if Ascii.eqb cmd "z" then
    let st := say (println_s "Starting tare process...") st in
    let st := tareScales cfg (z_reads env) (z_menu env) st in
    Some (rx, say (println_s "Tare completed") st)
  else if Ascii.eqb cmd "p" then Some (rx, toggleContinuousMode st)
  else if Ascii.eqb cmd "s" then Some (rx, showCalibrationFactors st)
  else if Ascii.eqb cmd "c" then
    let st := say (println_s "Starting calibration process...") st in
    match calibrateCellsViaSerial (c_reads env) rx st with
    | None => None
    | Some (rx, st) =>
      Some (rx, say (println_s "Calibration completed and ready for use") st)
    end
  else if Ascii.eqb cmd "m" then
    let st := say (println_s "Showing main menu via serial command") st in
    Some (rx, showMainMenu cfg (m_menu env) (with_menu true 0 st))
  else if Ascii.eqb cmd "d" then
    Some (rx,
          say (println_s "Debug mode - Raw values:"
               ++ print_s "Cell 1 raw: " ++ println_i (rd1 (d_reads env))
               ++ print_s "Cell 2 raw: " ++ println_i (rd2 (d_reads env))
               ++ print_s "Cell 3 raw: " ++ println_i (rd3 (d_reads env))
               ++ print_s "Cell 4 raw: " ++ println_i (rd4 (d_reads env))
               ++ println_s "Button states:"
               ++ print_s "K1 (pin " ++ print_i BUTTON_K1 ++ print_s "): "
               ++ println_i (d_k1 env)
               ++ print_s "K2 (pin " ++ print_i BUTTON_K2 ++ print_s "): "
               ++ println_i (d_k2 env)
               ++ print_s "K3 (pin " ++ print_i BUTTON_K3 ++ print_s "): "
               ++ println_i (d_k3 env)
               ++ print_s "K4 (pin " ++ print_i BUTTON_K4 ++ print_s "): "
               ++ println_i (d_k4 env)) st)
  else Some (rx, say (println_s "Command not recognized") st).

Definition checkSerialCommands (cfg : Config) (env : CommandEnv)
           (rx : list ascii) (st : State) : option (list ascii * State) :=
  match rx with
  | [] => Some (rx, st)
  | _ =>
    let '(input, rx) := readStringUntil newline rx in
    let input := trim input in
    if str_length input =? 1 then
      basic_command cfg env (charAt 0 input) rx st
    else if (3 <? str_length input) && startsWith "cf," input then
      let commaPos := indexOf "," input in
      let valueStr := substring_from (Z.to_nat (commaPos + 1)) input in
      let value := toFloat valueStr in
      if F32.gt value F32.zero then Some (rx, setCorrectionFactor value st)
      else Some (rx, say (println_s "Invalid correction factor (must be > 0)") st)
    else if (2 <? str_length input) && Ascii.eqb (charAt 0 input) "c"
            && (0 <? indexOf "," input) then
      let cellNumber := Z.of_N (N_of_ascii (charAt 1 input)) - 48 in
      if (1 <=? cellNumber) && (cellNumber <=? 4) then
        let commaPos := indexOf "," input in
        let valueStr := substring_from (Z.to_nat (commaPos + 1)) input in
        let value := toFloat valueStr in
        if F32.ne value F32.zero then
          let st := with_cells (set_cell_factor cellNumber value (cells st)) st in
          Some (rx, say (print_s "Calibration factor for cell "
                         ++ print_i cellNumber
                         ++ print_s " set to: "
                         ++ println_f value 2) st)
        else Some (rx, say (println_s "Invalid calibration value") st)
      else Some (rx, say (println_s "Invalid cell number (must be 1-4)") st)
    else Some (rx, st)
  end.

(** *** Buttons *)

(** The buttons found pressed by one [checkButtons], whether the
    debounce delay has passed, and what the screens they open consume. *)
Record Buttons : Type := {
  k1Pressed : bool;
  k2Pressed : bool;
  k3Pressed : bool;
  k4Pressed : bool;
  debounced : bool;
  k1_menu : Screen;
  k4_reads : Reads;
  k4_menu : Screen
}.

Definition checkButtons (cfg : Config) (b : Buttons) (st : State) : State :=
  if (k1Pressed b || k2Pressed b || k3Pressed b || k4Pressed b) && debounced b then
    let st :=
      if k1Pressed b then showMainMenu cfg (k1_menu b) (with_menu true 0 st)
      else st in
    let st :=
      if k4Pressed b && negb (menuActive st)
      then tareScales cfg (k4_reads b) (k4_menu b) st
      else st in
    if k4Pressed b && menuActive st then with_menuActive false st else st
  else st.

(** *** [setup] and the main loop *)

Definition setup (reads : Reads) : State :=
  let st := initial_state in
  let c := cells st in
  let st := say (println_s "C.o.G. System v2.0 - Initialization..."
                 ++ println_s "Current calibration factors:"
                 ++ print_s "Cell 1: " ++ println_f (calibration_factor1 c) 2
                 ++ print_s "Cell 2: " ++ println_f (calibration_factor2 c) 2
                 ++ print_s "Cell 3: " ++ println_f (calibration_factor3 c) 2
                 ++ print_s "Cell 4: " ++ println_f (calibration_factor4 c) 2
                 ++ println_s "Initializing load cells...") st in
  let c := {| scale1 := set_scale (calibration_factor1 c) (scale1 c);
              scale2 := set_scale (calibration_factor2 c) (scale2 c);
              scale3 := set_scale (calibration_factor3 c) (scale3 c);
              scale4 := set_scale (calibration_factor4 c) (scale4 c);
              calibration_factor1 := calibration_factor1 c;
              calibration_factor2 := calibration_factor2 c;
              calibration_factor3 := calibration_factor3 c;
              calibration_factor4 := calibration_factor4 c |} in
  let st := with_cells c st in
  let st := say (println_s "Initializing display..."
                 ++ println_s "Taring all cells...") st in
  let st := with_cells (tare_all reads (cells st)) st in
  let st := with_taraEffettuata true st in
  say (println_s "C.o.G. Measurement System Ready"
       ++ println_s "Available commands:"
       ++ println_s "z - Zero/Tare"
       ++ println_s "p - Pause/Resume continuous reading"
       ++ println_s "s - Show calibration factors"
       ++ println_s "c - Start calibration"
       ++ println_s "d - Debug mode (raw values)"
       ++ println_s "m - Show Main Menu"
       ++ println_s "cf,value - Set correction factor"
       ++ println_s "c1,value - Set calibration for cell 1"
       ++ println_s "Press K1 to access the main menu"
       ++ println_s "System ready - press K1 for menu") st.

(** The inputs of one turn of [loop]: the buttons, the characters that
    arrive on the serial port until the command check is over, what the
    commands read, whether the read interval has elapsed, and the
    readings of the acquisition and of its report. *)
Record LoopInput : Type := {
  buttons : Buttons;
  arrivals : list ascii;
  command_env : CommandEnv;
  due : bool;
  reads : Reads;
  report_reads : Reads
}.

(** The timed block of [loop]. *)
Definition acquisition_cycle (cfg : Config) (due : bool) (reads report_reads : Reads)
           (st : State) : State :=
  if continuousMode st && due then
    advance_sampleIndex (printSerialData report_reads (updateWeightData cfg reads st))
  else st.

(** One turn of [loop]; the state is paired with the serial input not
    yet consumed. *)
Definition loop (cfg : Config) (i : LoopInput) (s : list ascii * State)
  : option (list ascii * State) :=
  let '(rx, st) := s in
  let st := checkButtons cfg (buttons i) st in
  match checkSerialCommands cfg (command_env i) (rx ++ arrivals i) st with
  | None => None
  | Some (rx, st) =>
    Some (rx, acquisition_cycle cfg (due i) (reads i) (report_reads i) st)
  end.

(** The sketch: [setup], then [loop] for ever. *)
Fixpoint run_loops (cfg : Config) (inputs : list LoopInput) (s : list ascii * State)
  : option (list ascii * State) :=
  match inputs with
  | [] => Some s
  | i :: rest =>
    match loop cfg i s with
    | None => None
    | Some s => run_loops cfg rest s
    end
  end.

Definition run (cfg : Config) (setup_reads : Reads) (inputs : list LoopInput)
  : option (list ascii * State) :=
  run_loops cfg inputs ([], setup setup_reads).

End Firmware.

(** ** Values of binary32 numbers

    The rational value of a finite number, the unit roundoff of the format
    and the relation "[r] is [X] up to one rounding"; a positive normal
    number has a mantissa of 24 digits, and [pnorm lo hi] bounds its
    exponent. *)
Definition bpow (e : Z) : Q := Qpower (2 # 1) e.

Definition B2Q (x : float) : Q :=
  match x with
  | S754_finite s m e =>
    ((if s then -1 else 1) * inject_Z (Zpos m) * bpow e)%Q
  | _ => 0%Q
  end.

Definition u : Q := 1 # 8388608.

Definition near (r X : Q) : Prop := (X * (1 - u) <= r <= X * (1 + u))%Q.

Definition pnorm (lo hi : Z) (x : float) : Prop :=
  exists (m : positive) (e : Z),
    x = S754_finite false m e /\ Zpos (digits2_pos m) = 24 /\ lo <= e <= hi.

(** A normal number of either sign: a mantissa of 24 digits and an
    exponent between [lo] and [hi]; its magnitude is at least
    [2 ^ (lo + 23)] and below [2 ^ (hi + 24)]. *)
Definition snorm (lo hi : Z) (x : float) : Prop :=
  exists (s : bool) (m : positive) (e : Z),
    x = S754_finite s m e /\ Zpos (digits2_pos m) = 24 /\ lo <= e <= hi.

(** Weight patterns of the specification's reference loads. *)
Definition uniform (w0 : float) : Weights :=
  {| weight1 := w0; weight2 := w0; weight3 := w0; weight4 := w0 |}.

Definition rear_only (w3 w4 : float) : Weights :=
  {| weight1 := S754_zero false; weight2 := S754_zero false;
     weight3 := w3; weight4 := w4 |}.

(** The items printed right after the label "CG X: ". *)
Fixpoint cgx_reports (out : list Out) : list Out :=
  match out with
  | [] => []
  | OStr s :: rest =>
    if String.eqb s "CG X: " then
      match rest with
      | v :: _ => v :: cgx_reports rest
      | [] => []
      end
    else cgx_reports rest
  | _ :: rest => cgx_reports rest
  end.

(** A piece of output that does not end in the middle of a report line. *)
Definition closed (out : list Out) : Prop :=
  forall tail : list Out, cgx_reports (out ++ tail) = cgx_reports out ++ cgx_reports tail.

Definition zero_reports (out : list Out) : Prop :=
  closed out /\ Forall (fun v => v = OInt 0) (cgx_reports out).

Definition silent (out : list Out) : Prop :=
  closed out /\ cgx_reports out = [].

(** What holds of every state the sketch reaches: [cogX] is zero and so
    is every value printed after "CG X: ". *)
Definition Inv (st : State) : Prop :=
  cogX (meas st) = 0 /\ zero_reports (serial st).

(** Readings [r] counts above the tare level on every cell, at the
    sampling and at the verification of a calibration. *)
Definition raised (ts : Reads) (r : Z) : Reads :=
  {| rd1 := rd1 ts + r; rd2 := rd2 ts + r; rd3 := rd3 ts + r; rd4 := rd4 ts + r |}.

Definition equal_samples_env (ts : Reads) (r : Z) : CalReads :=
  {| tare_reads := ts; raw_reads := raised ts r; verify_reads := raised ts r |}.

(** * Scenarios

    Concrete configurations, readings and runs on which the properties
    below are evaluated, and the formulas of the specification that are
    compared with the code. *)

(** A state with a load measured before: the values a cycle has to
    overwrite. *)
Definition loaded_measurement : Measurement :=
  {| totalWeight := F32.lit 2 1; cogX := 0; cogY := 140; wingCogX := 140;
     lateralCogDiff := -12; cogPercentage := 117 |}.

Definition all_reads (z : Z) : Reads := {| rd1 := z; rd2 := z; rd3 := z; rd4 := z |}.

Definition example_config : Config :=
  {| BASE_WIDTH := F32.lit 270 1; BASE_LENGTH := F32.lit 250 1;
     WING_PEG_DIST := F32.lit 120 1; CORRECTION_FACTOR := F32.lit 1 1 |}.

Definition example_cells : Cells :=
  let h := {| OFFSET := 0; SCALE := F32.lit 1000 1 |} in
  {| scale1 := h; scale2 := h; scale3 := h; scale4 := h;
     calibration_factor1 := F32.lit 1000 1; calibration_factor2 := F32.lit 1000 1;
     calibration_factor3 := F32.lit 1000 1; calibration_factor4 := F32.lit 1000 1 |}.

(** Start-up: the smoothing windows are zero-filled. *)
Definition example_cold : State := with_cells example_cells initial_state.

(** Steady state: every slot of every window holds the corrected reading
    100000 / 1000 * 1.0. *)
Definition example_warm : State :=
  let w := repeat (F32.lit 100 1) 5 in
  with_smoothing
    {| weight1Samples := w; weight2Samples := w; weight3Samples := w;
       weight4Samples := w; sampleIndex := 0 |} example_cold.

Definition cycle_weights (fix_ub : float -> Z) (cfg : Config) (rs : Reads) (st : State)
  : Weights :=
  snd (acquire fix_ub cfg rs st).

Definition spanless_config (span : float) : Config :=
  {| BASE_WIDTH := F32.lit 270 1; BASE_LENGTH := F32.lit 250 1;
     WING_PEG_DIST := span; CORRECTION_FACTOR := F32.lit 1 1 |}.

Definition with_percentage (p : Z) (st : State) : State :=
  let m := meas st in
  with_meas {| totalWeight := totalWeight m; cogX := cogX m; cogY := cogY m;
               wingCogX := wingCogX m; lateralCogDiff := lateralCogDiff m;
               cogPercentage := p |} st.

Definition received (s : string) : list ascii := list_ascii_of_string s.

Definition idle_env : CommandEnv :=
  {| z_reads := all_reads 0; z_menu := PressK4;
     c_reads := {| tare_reads := all_reads 0; raw_reads := all_reads 0;
                   verify_reads := all_reads 0 |};
     m_menu := PressK4; d_reads := all_reads 0;
     d_k1 := 1; d_k2 := 1; d_k3 := 1; d_k4 := 1 |}.

(** The factor of a channel in the words of the specification:
    [(raw_samples[i] / sum(raw_samples)) * known_weight_kg * 4.0]. *)
Definition spec_scale_factor (raw sum known_weight_kg : float) : float :=
  F32.mul (F32.mul (F32.div raw sum) known_weight_kg) (F32.lit 4 1).

Definition spec_sum (raw1 raw2 raw3 raw4 : float) : float :=
  F32.add (F32.add (F32.add raw1 raw2) raw3) raw4.

Definition calibration_env (tare_level raw_level : Z) : CalReads :=
  {| tare_reads := all_reads tare_level; raw_reads := all_reads raw_level;
     verify_reads := all_reads raw_level |}.

(** Inputs of one turn of [loop]: no key pressed, and either a command
    line on the serial port or an acquisition that is due. *)
Definition no_buttons : Buttons :=
  {| k1Pressed := false; k2Pressed := false; k3Pressed := false; k4Pressed := false;
     debounced := true; k1_menu := PressK4; k4_reads := all_reads 0;
     k4_menu := PressK4 |}.

Definition command_turn (line : string) : LoopInput :=
  {| buttons := no_buttons; arrivals := received line ++ [newline];
     command_env := idle_env; due := false; reads := all_reads 0;
     report_reads := all_reads 0 |}.

Definition acquisition_turn (r : Reads) : LoopInput :=
  {| buttons := no_buttons; arrivals := []; command_env := idle_env;
     due := true; reads := r; report_reads := r |}.

Definition opposed_rear_reads : Reads :=
  {| rd1 := 0; rd2 := 0; rd3 := 1700000; rd4 := -1699999 |}.

(** A run of the sketch: the scale factors of cells 3 and 4 are set to 1
    with the commands [c3,1] and [c4,1], then four acquisition cycles read
    nothing on the front cells, 1700000 counts on cell 3 and -1699999 counts
    on cell 4. *)
Definition opposed_rear_run : option (list ascii * State) :=
  run (fun _ => 0) decimal_toFloat sketch_config (all_reads 0)
    [command_turn "c3,1"; command_turn "c4,1";
     acquisition_turn opposed_rear_reads; acquisition_turn opposed_rear_reads;
     acquisition_turn opposed_rear_reads; acquisition_turn opposed_rear_reads].

Definition report_values (st : State) : list Out := cgx_reports (serial st).

(** ** The smoothing window under repeated updates *)

(** [n] updates of one window with the same value, the shared index
    advancing after each as in [loop]; the result of the last update is
    returned with the window and the index. *)
Fixpoint feed (n : nat) (V : float) (samples : list float) (index : Z)
  : list float * Z * float :=
  match n with
  | O => (samples, index, F32.zero)
  | S k =>
    let '(s, i, _) := feed k V samples index in
    let '(s', r) := smoothValue V s i in
    (s', (i + 1) mod SMOOTHING_SAMPLES, r)
  end.

(** The slots written by [n] updates that start at slot [i0]. *)
Definition written (n : nat) (i0 : Z) : list bool :=
  map (fun j => (j - i0) mod SMOOTHING_SAMPLES <? Z.of_nat n) [0; 1; 2; 3; 4].

(** A window with [V] in the marked slots and zero in the others. *)
Definition window_of (V : float) (marks : list bool) : list float :=
  map (fun b : bool => if b then V else F32.zero) marks.

Definition marked (marks : list bool) : Z := Z.of_nat (count_occ bool_dec marks true).

(** The running sum after [j] copies of [V]: zero before the first, then
    [j] times the value of [V] up to [j - 1] roundings. *)
Definition partial_sum (a b : Z) (V : float) (j : Z) (s : float) : Prop :=
  (j = 0 /\ s = S754_zero false)
  \/ (1 <= j <= 5 /\ pnorm a (b + 2 * j) s
      /\ (inject_Z j * B2Q V * (1 - inject_Z (2 * (j - 1)) * u) <= B2Q s
          <= inject_Z j * B2Q V * (1 + inject_Z (2 * (j - 1)) * u))%Q).

(** The window after [n] updates with [V] that start at slot [i0] of a
    zero-filled window. *)
Definition window_after (n : nat) (V : float) (i0 : Z) : list float :=
  window_of V (written n i0).

(** * Properties *)

(** ** Comparisons of binary32 values *)

Lemma SFcompare_antisym (x y : float) (c : comparison) :
  SFcompare x y = Some c -> SFcompare y x = Some (CompOpp c).
Proof.
  destruct x as [sx|sx| |sx mx ex], y as [sy|sy| |sy my ey]; simpl;
    try discriminate;
    try (destruct sx; intros [= <-]; reflexivity);
    try (destruct sy; intros [= <-]; reflexivity);
    try (destruct sx, sy; intros [= <-]; reflexivity);
    try (intros [= <-]; reflexivity).
  intros [= <-]. f_equal.
  change (PosDef.Pos.compare_cont Eq mx my) with (Pos.compare mx my).
  change (PosDef.Pos.compare_cont Eq my mx) with (Pos.compare my mx).
  rewrite (Z.compare_antisym ex ey), (Pos.compare_antisym mx my).
  destruct sx, sy; simpl; try reflexivity;
    destruct (ex ?= ey); simpl; try reflexivity;
    destruct (mx ?= my)%positive; reflexivity.
Qed.

(** [x <= y] excludes [x > y]. *)
Lemma le_not_gt (x y : float) : F32.le x y = true -> F32.gt x y = false.
Proof.
  unfold F32.le, F32.gt, SFleb, SFltb.
  destruct (SFcompare x y) as [c|] eqn:E; try discriminate.
  rewrite (SFcompare_antisym _ _ _ E).
  destruct c; simpl; intros; congruence.
Qed.

(** ** Rounding in binary32

    The error of one rounding in the normal range, from the definitions of
    [SpecFloat]: the rounded mantissa is the truncated one or its
    successor. *)

Lemma fexp32 (e : Z) : fexp F32.prec F32.emax e = Z.max (e - 24) (-149).
Proof. reflexivity. Qed.

Lemma digits2_pos_bounds (m : positive) :
  2 ^ (Zpos (digits2_pos m) - 1) <= Zpos m < 2 ^ Zpos (digits2_pos m).
Proof.
  induction m as [m IH|m IH|]; cbn [digits2_pos].
  - rewrite Pos2Z.inj_succ.
    replace (Z.succ (Zpos (digits2_pos m)) - 1) with (Z.succ (Zpos (digits2_pos m) - 1)) by lia.
    rewrite !Z.pow_succ_r by lia. lia.
  - rewrite Pos2Z.inj_succ.
    replace (Z.succ (Zpos (digits2_pos m)) - 1) with (Z.succ (Zpos (digits2_pos m) - 1)) by lia.
    rewrite !Z.pow_succ_r by lia. lia.
  - simpl. lia.
Qed.

Lemma digits2_pos_unique (m : positive) (n : Z) :
  2 ^ (n - 1) <= Zpos m < 2 ^ n -> Zpos (digits2_pos m) = n.
Proof.
  intros [Hlo Hhi].
  pose proof (digits2_pos_bounds m) as [Dlo Dhi].
  set (d := Zpos (digits2_pos m)) in *.
  assert (0 < d) by (subst d; lia).
  destruct (Z.lt_trichotomy d n) as [L|[E|G]]; [|exact E|].
  - assert (2 ^ d <= 2 ^ (n - 1)) by (apply Z.pow_le_mono_r; lia). lia.
  - assert (n < 0 \/ 0 <= n) as [N|N] by lia.
    + rewrite (Z.pow_neg_r 2 n N) in Hhi. lia.
    + assert (2 ^ n <= 2 ^ (d - 1)) by (apply Z.pow_le_mono_r; lia). lia.
Qed.

Lemma shr_1_m (mrs : shr_record) :
  0 <= shr_m mrs -> shr_m (shr_1 mrs) = shr_m mrs / 2 /\ 0 <= shr_m (shr_1 mrs).
Proof.
  destruct mrs as [m r s]. cbn [shr_m]. intros H.
  destruct m as [|p|p]; [| |lia].
  - simpl. split; [reflexivity|lia].
  - rewrite <- Z.div2_div.
    destruct p; simpl; split; try reflexivity; lia.
Qed.

Lemma shr_m_iter (p : positive) (mrs : shr_record) :
  0 <= shr_m mrs ->
  shr_m (SpecFloat.iter_pos shr_1 p mrs) = shr_m mrs / 2 ^ Zpos p
  /\ 0 <= shr_m (SpecFloat.iter_pos shr_1 p mrs).
Proof.
  revert mrs. induction p as [p IH|p IH|]; intros mrs H; cbn [SpecFloat.iter_pos].
  - destruct (shr_1_m mrs H) as [E1 N1].
    destruct (IH _ N1) as [E2 N2].
    destruct (IH _ N2) as [E3 N3].
    split; [|exact N3].
    rewrite E3, E2, E1.
    rewrite !Z.div_div by (try apply Z.pow_pos_nonneg; lia).
    f_equal.
    rewrite Pos2Z.inj_xI.
    replace (2 * Zpos p + 1) with (1 + Zpos p + Zpos p) by lia.
    rewrite !Z.pow_add_r by lia. change (2 ^ 1) with 2. ring.
  - destruct (IH _ H) as [E2 N2].
    destruct (IH _ N2) as [E3 N3].
    split; [|exact N3].
    rewrite E3, E2.
    rewrite !Z.div_div by (try apply Z.pow_pos_nonneg; lia).
    f_equal.
    replace (Zpos p~0) with (Zpos p + Zpos p) by lia.
    rewrite !Z.pow_add_r by lia. ring.
  - destruct (shr_1_m mrs H) as [E1 N1]. split; [|exact N1].
    rewrite E1. reflexivity.
Qed.

Lemma shr_record_of_loc_m (m : Z) (l : location) : shr_m (shr_record_of_loc m l) = m.
Proof. destruct l as [|[| |]]; reflexivity. Qed.

(** Shifting right by [n]: the mantissa is divided by [2 ^ n] when [n] is
    positive, and nothing happens otherwise. *)
Lemma shr_spec (mrs : shr_record) (e n : Z) :
  0 <= shr_m mrs ->
  shr_m (fst (shr mrs e n)) = (if 0 <? n then shr_m mrs / 2 ^ n else shr_m mrs)
  /\ snd (shr mrs e n) = (if 0 <? n then e + n else e).
Proof.
  intros H. destruct n as [|p|p]; simpl; try (split; reflexivity).
  split; [|reflexivity]. apply shr_m_iter, H.
Qed.

Lemma round_nearest_even_cases (m : Z) (l : location) :
  round_nearest_even m l = m \/ round_nearest_even m l = m + 1.
Proof.
  destruct l as [|[| |]]; simpl; auto.
  destruct (Z.even m); auto.
Qed.

Lemma Zdigits2_pos (m : positive) : Zdigits2 (Zpos m) = Zpos (digits2_pos m).
Proof. reflexivity. Qed.

Lemma div_pow2_digits (mx : positive) (d : Z) :
  d = Zpos (digits2_pos mx) -> 24 <= d ->
  2 ^ 23 <= Zpos mx / 2 ^ (d - 24) < 2 ^ 24.
Proof.
  intros -> Hd.
  pose proof (digits2_pos_bounds mx) as [Dlo Dhi].
  set (d := Zpos (digits2_pos mx)) in *.
  assert (P : 0 < 2 ^ (d - 24)) by (apply Z.pow_pos_nonneg; lia).
  replace (2 ^ (d - 1)) with (2 ^ 23 * 2 ^ (d - 24)) in Dlo
    by (rewrite <- Z.pow_add_r by lia; f_equal; lia).
  replace (2 ^ d) with (2 ^ 24 * 2 ^ (d - 24)) in Dhi
    by (rewrite <- Z.pow_add_r by lia; f_equal; lia).
  split.
  - apply Z.div_le_lower_bound; lia.
  - apply Z.div_lt_upper_bound; lia.
Qed.

(** Rounding a mantissa of at least 24 digits in the normal range. *)
Lemma binary_round_aux_normal (s : bool) (mx : positive) (ex : Z) (l : location) :
  let d := Zpos (digits2_pos mx) in
  24 <= d -> -149 <= d + ex - 24 -> d + ex <= 127 ->
  exists (m : positive) (e : Z),
    binary_round_aux F32.prec F32.emax s (Zpos mx) ex l = S754_finite s m e
    /\ Zpos (digits2_pos m) = 24
    /\ d + ex - 24 <= e <= d + ex - 23
    /\ Zpos mx / 2 ^ (d - 24) <= Zpos m * 2 ^ (e - (d + ex - 24))
       <= Zpos mx / 2 ^ (d - 24) + 1.
Proof.
  intros d Hd Hlo Hhi.
  unfold binary_round_aux, shr_fexp.
  rewrite Zdigits2_pos, fexp32. fold d.
  replace (Z.max (d + ex - 24) (-149) - ex) with (d - 24) by lia.
  pose proof (shr_spec (shr_record_of_loc (Zpos mx) l) ex (d - 24)) as S1.
  rewrite shr_record_of_loc_m in S1. specialize (S1 ltac:(lia)).
  destruct (shr (shr_record_of_loc (Zpos mx) l) ex (d - 24)) as [mrs1 e1].
  cbn [fst snd] in S1. destruct S1 as [M1 E1].
  pose proof (div_pow2_digits mx d eq_refl Hd) as B.
  assert (M1' : shr_m mrs1 = Zpos mx / 2 ^ (d - 24)).
  { rewrite M1. destruct (0 <? d - 24) eqn:K; [reflexivity|].
    apply Z.ltb_ge in K. replace (d - 24) with 0 by lia.
    rewrite Z.pow_0_r, Z.div_1_r. reflexivity. }
  assert (E1' : e1 = d + ex - 24).
  { rewrite E1. destruct (0 <? d - 24) eqn:K; [lia|]. apply Z.ltb_ge in K. lia. }
  clear M1 E1. set (m1 := Zpos mx / 2 ^ (d - 24)) in *.
  set (m2 := round_nearest_even (shr_m mrs1) (loc_of_shr_record mrs1)).
  assert (C : m2 = m1 \/ m2 = m1 + 1).
  { subst m2. rewrite M1'. apply round_nearest_even_cases. }
  assert (P2 : 0 < m2) by lia.
  destruct m2 as [|p2|p2] eqn:Em2; try lia.
  rewrite Zdigits2_pos, fexp32.
  assert (D2 : Zpos p2 < 2 ^ 24 \/ Zpos p2 = 2 ^ 24) by lia.
  destruct D2 as [D2|D2].
  - assert (Dg : Zpos (digits2_pos p2) = 24).
    { apply digits2_pos_unique. change (24 - 1) with 23. lia. }
    rewrite Dg.
    replace (Z.max (24 + e1 - 24) (-149) - e1) with 0 by lia.
    cbn [shr shr_record_of_loc shr_m].
    replace (e1 <=? F32.emax - F32.prec) with true
      by (symmetry; apply Z.leb_le; unfold F32.emax, F32.prec; lia).
    exists p2, e1. split; [reflexivity|]. split; [exact Dg|].
    split; [lia|].
    replace (e1 - (d + ex - 24)) with 0 by lia. rewrite Z.pow_0_r. lia.
  - assert (Dg : Zpos (digits2_pos p2) = 25).
    { apply digits2_pos_unique. rewrite D2. change (25 - 1) with 24.
      split; [lia|]. apply Z.pow_lt_mono_r; lia. }
    rewrite Dg.
    replace (Z.max (25 + e1 - 24) (-149) - e1) with 1 by lia.
    injection D2 as ->.
    cbn [shr shr_record_of_loc shr_m SpecFloat.iter_pos shr_1 Z.add].
    replace (e1 + 1 <=? F32.emax - F32.prec) with true
      by (symmetry; apply Z.leb_le; unfold F32.emax, F32.prec; lia).
    eexists _, (e1 + 1). split; [reflexivity|]. split; [reflexivity|].
    split; [lia|].
    replace (e1 + 1 - (d + ex - 24)) with 1 by lia.
    change (Zpos 8388608 * 2 ^ 1) with (2 ^ 24). lia.
Qed.

Lemma bpow_add (a b : Z) : (bpow (a + b) == bpow a * bpow b)%Q.
Proof. unfold bpow. apply Qpower_plus. discriminate. Qed.

Lemma bpow_pos (e : Z) : (0 < bpow e)%Q.
Proof. unfold bpow. apply Qpower_0_lt. reflexivity. Qed.

Lemma bpow_Z (n : Z) : 0 <= n -> (bpow n == inject_Z (2 ^ n))%Q.
Proof. intros H. unfold bpow. rewrite Zpower_Qpower by exact H. reflexivity. Qed.

Lemma inject_Z_le (a b : Z) : a <= b -> (inject_Z a <= inject_Z b)%Q.
Proof. intros H. rewrite <- Zle_Qle. exact H. Qed.

(** Coarse error bound of rounding in the normal range: the result is
    within one unit in the last place of any value lying between the
    mantissa and its successor. *)
Lemma round_near (s : bool) (mx : positive) (ex : Z) (l : location) (X : Q) :
  let d := Zpos (digits2_pos mx) in
  24 <= d -> -149 <= d + ex - 24 -> d + ex <= 127 ->
  (inject_Z (Zpos mx) * bpow ex <= X <= inject_Z (Zpos mx + 1) * bpow ex)%Q ->
  exists (m : positive) (e : Z),
    binary_round_aux F32.prec F32.emax s (Zpos mx) ex l = S754_finite s m e
    /\ Zpos (digits2_pos m) = 24
    /\ d + ex - 24 <= e <= d + ex - 23
    /\ near (inject_Z (Zpos m) * bpow e) X.
Proof.
  intros d Hd Hlo Hhi HX.
  destruct (binary_round_aux_normal s mx ex l Hd Hlo Hhi) as (m & e & E & Dg & Re & Hm).
  fold d in Re, Hm.
  exists m, e. split; [exact E|]. split; [exact Dg|]. split; [lia|].
  pose proof (div_pow2_digits mx d eq_refl Hd) as B.
  set (k := d - 24) in *. set (m1 := Zpos mx / 2 ^ k) in *.
  set (e1 := d + ex - 24) in *.
  assert (K : 0 < 2 ^ k) by (apply Z.pow_pos_nonneg; lia).
  assert (Hdiv : m1 * 2 ^ k <= Zpos mx < (m1 + 1) * 2 ^ k).
  { subst m1. pose proof (Z.div_mod (Zpos mx) (2 ^ k) ltac:(lia)).
    pose proof (Z.mod_pos_bound (Zpos mx) (2 ^ k) K). nia. }
  (* everything in units of [bpow e1] *)
  pose proof (bpow_pos e1) as P.
  assert (Ee : (bpow e == inject_Z (2 ^ (e - e1)) * bpow e1)%Q).
  { replace e with ((e - e1) + e1) at 1 by lia.
    rewrite bpow_add, bpow_Z by lia. reflexivity. }
  assert (Ex : (bpow ex * inject_Z (2 ^ k) == bpow e1)%Q).
  { rewrite <- bpow_Z by lia. rewrite <- bpow_add. subst e1 k.
    replace (ex + (d - 24)) with (d + ex - 24) by lia. reflexivity. }
  set (M := Zpos m * 2 ^ (e - e1)) in *.
  assert (Er : (inject_Z (Zpos m) * bpow e == inject_Z M * bpow e1)%Q).
  { rewrite Ee. subst M. rewrite inject_Z_mult. ring. }
  assert (L1 : (inject_Z m1 * bpow e1 <= inject_Z (Zpos mx) * bpow ex)%Q).
  { rewrite <- Ex.
    setoid_replace (inject_Z m1 * (bpow ex * inject_Z (2 ^ k)))%Q
      with (inject_Z (m1 * 2 ^ k) * bpow ex)%Q by (rewrite inject_Z_mult; ring).
    apply Qmult_le_compat_r; [apply inject_Z_le; lia|apply Qlt_le_weak, bpow_pos]. }
  assert (S1 : forall z : Z, (inject_Z (z + 1) * bpow e1 == inject_Z z * bpow e1 + bpow e1)%Q).
  { intros z. rewrite inject_Z_plus. change (inject_Z 1) with 1%Q. ring. }
  assert (L2 : (inject_Z (Zpos mx + 1) * bpow ex <= inject_Z m1 * bpow e1 + bpow e1)%Q).
  { rewrite <- S1, <- Ex.
    setoid_replace (inject_Z (m1 + 1) * (bpow ex * inject_Z (2 ^ k)))%Q
      with (inject_Z ((m1 + 1) * 2 ^ k) * bpow ex)%Q by (rewrite inject_Z_mult; ring).
    apply Qmult_le_compat_r; [apply inject_Z_le; lia|apply Qlt_le_weak, bpow_pos]. }
  assert (L3 : (inject_Z m1 * bpow e1 <= inject_Z M * bpow e1)%Q).
  { apply Qmult_le_compat_r; [apply inject_Z_le; lia|apply Qlt_le_weak, P]. }
  assert (L4 : (inject_Z M * bpow e1 <= inject_Z m1 * bpow e1 + bpow e1)%Q).
  { rewrite <- S1.
    apply Qmult_le_compat_r; [apply inject_Z_le; lia|apply Qlt_le_weak, P]. }
  assert (L5 : ((8388608 # 1) * bpow e1 <= inject_Z m1 * bpow e1)%Q).
  { change (8388608 # 1)%Q with (inject_Z (2 ^ 23)).
    apply Qmult_le_compat_r; [apply inject_Z_le; lia|apply Qlt_le_weak, P]. }
  unfold near, u. rewrite Er.
  destruct HX as [HX1 HX2].
  pose proof (Qle_trans _ _ _ L1 HX1) as L1'.
  pose proof (Qle_trans _ _ _ HX2 L2) as L2'.
  clear S1 L1 L2 HX1 HX2 Er Ee Ex.
  set (a := (inject_Z m1 * bpow e1)%Q) in *.
  set (r := (inject_Z M * bpow e1)%Q) in *.
  set (p := bpow e1) in *.
  clearbody a r p. split; lra.
Qed.

Lemma digits2_pos_between (m : positive) (lo hi : Z) :
  0 <= lo -> 2 ^ lo <= Zpos m < 2 ^ hi ->
  lo + 1 <= Zpos (digits2_pos m) <= hi.
Proof.
  intros Hlo [H1 H2].
  pose proof (digits2_pos_bounds m) as [D1 D2].
  set (d := Zpos (digits2_pos m)) in *.
  assert (0 < d) by (subst d; lia).
  split.
  - destruct (Z_lt_le_dec lo d) as [L|L]; [lia|].
    assert (2 ^ d <= 2 ^ lo) by (apply Z.pow_le_mono_r; lia). lia.
  - destruct (Z_lt_le_dec hi d) as [L|L]; [|lia].
    assert (hi < 0 \/ 0 <= hi) as [N|N] by lia.
    + rewrite (Z.pow_neg_r 2 hi N) in H2. lia.
    + assert (2 ^ hi <= 2 ^ (d - 1)) by (apply Z.pow_le_mono_r; lia). lia.
Qed.

Lemma mantissa_bounds (m : positive) :
  Zpos (digits2_pos m) = 24 -> 2 ^ 23 <= Zpos m < 2 ^ 24.
Proof.
  intros H. pose proof (digits2_pos_bounds m) as B. rewrite H in B. exact B.
Qed.

Lemma shl_align_spec (mx : positive) (ex ex' : Z) :
  (ex' <= ex ->
   Zpos (fst (shl_align mx ex ex')) = Zpos mx * 2 ^ (ex - ex')
   /\ snd (shl_align mx ex ex') = ex')
  /\ (ex <= ex' -> shl_align mx ex ex' = (mx, ex)).
Proof.
  unfold shl_align.
  destruct (ex' - ex) as [|p|p] eqn:E.
  - split; intros H; [|reflexivity].
    assert (ex' = ex) by lia. subst ex'.
    rewrite Z.sub_diag, Z.pow_0_r. cbn [fst snd]. split; lia.
  - split; intros H; [lia|reflexivity].
  - split; intros H; [|lia].
    cbn [fst snd]. split; [|reflexivity].
    replace (ex - ex') with (Zpos p) by lia.
    change (Pos.iter xO mx p) with (shift_pos p mx).
    rewrite shift_pos_correct. apply Z.mul_comm.
Qed.

(** Rounding any positive mantissa in the normal range. *)
Lemma binary_round_near (s : bool) (mx : positive) (ex : Z) :
  let d := Zpos (digits2_pos mx) in
  -149 <= d + ex - 24 -> d + ex <= 127 ->
  exists (m : positive) (e : Z),
    binary_round F32.prec F32.emax s mx ex = S754_finite s m e
    /\ Zpos (digits2_pos m) = 24
    /\ d + ex - 24 <= e <= d + ex - 23
    /\ near (inject_Z (Zpos m) * bpow e) (inject_Z (Zpos mx) * bpow ex).
Proof.
  intros d Hlo Hhi. unfold binary_round. rewrite fexp32. fold d.
  replace (Z.max (d + ex - 24) (-149)) with (d + ex - 24) by lia.
  destruct (shl_align_spec mx ex (d + ex - 24)) as [Hshift Hkeep].
  destruct (Z_lt_le_dec d 24) as [Small|Big].
  - destruct (Hshift ltac:(lia)) as [Em Ee].
    destruct (shl_align mx ex (d + ex - 24)) as [mz ez]. cbn [fst snd] in Em, Ee.
    subst ez. replace (ex - (d + ex - 24)) with (24 - d) in Em by lia.
    pose proof (digits2_pos_bounds mx) as [B1 B2]. fold d in B1, B2.
    assert (0 < d) by (subst d; lia).
    assert (Dz : Zpos (digits2_pos mz) = 24).
    { apply digits2_pos_unique. rewrite Em. change (24 - 1) with 23.
      replace (2 ^ 23) with (2 ^ (d - 1) * 2 ^ (24 - d))
        by (rewrite <- Z.pow_add_r by lia; f_equal; lia).
      replace (2 ^ 24) with (2 ^ d * 2 ^ (24 - d))
        by (rewrite <- Z.pow_add_r by lia; f_equal; lia).
      assert (0 < 2 ^ (24 - d)) by (apply Z.pow_pos_nonneg; lia). nia. }
    assert (EX : (inject_Z (Zpos mz) * bpow (d + ex - 24)
                  == inject_Z (Zpos mx) * bpow ex)%Q).
    { rewrite Em, inject_Z_mult, <- bpow_Z by lia.
      rewrite <- Qmult_assoc, <- bpow_add.
      replace (24 - d + (d + ex - 24)) with ex by lia. reflexivity. }
    assert (HX : (inject_Z (Zpos mz) * bpow (d + ex - 24)
                  <= inject_Z (Zpos mx) * bpow ex
                  <= inject_Z (Zpos mz + 1) * bpow (d + ex - 24))%Q).
    { rewrite <- EX. split; [apply Qle_refl|].
      apply Qmult_le_compat_r; [apply inject_Z_le; lia|apply Qlt_le_weak, bpow_pos]. }
    destruct (round_near s mz (d + ex - 24) loc_Exact
                (inject_Z (Zpos mx) * bpow ex)%Q
                ltac:(lia) ltac:(lia) ltac:(lia) HX)
      as (m & e & E & Dg & Re & N).
    rewrite Dz in Re. exists m, e.
    split; [exact E|]. split; [exact Dg|]. split; [lia|exact N].
  - rewrite (Hkeep ltac:(lia)).
    assert (HX : (inject_Z (Zpos mx) * bpow ex
                  <= inject_Z (Zpos mx) * bpow ex
                  <= inject_Z (Zpos mx + 1) * bpow ex)%Q).
    { split; [apply Qle_refl|].
      apply Qmult_le_compat_r; [apply inject_Z_le; lia|apply Qlt_le_weak, bpow_pos]. }
    destruct (round_near s mx ex loc_Exact (inject_Z (Zpos mx) * bpow ex)%Q
                ltac:(fold d; lia) ltac:(fold d; lia) ltac:(fold d; lia) HX)
      as (m & e & E & Dg & Re & N).
    fold d in Re. exists m, e.
    split; [exact E|]. split; [exact Dg|]. split; [lia|exact N].
Qed.

Lemma B2Q_pos (m : positive) (e : Z) :
  (B2Q (S754_finite false m e) == inject_Z (Zpos m) * bpow e)%Q.
Proof. unfold B2Q. ring. Qed.

Lemma B2Q_positive (m : positive) (e : Z) : (0 < B2Q (S754_finite false m e))%Q.
Proof.
  rewrite B2Q_pos. apply Qmult_lt_0_compat; [|apply bpow_pos].
  change 0%Q with (inject_Z 0). rewrite <- Zlt_Qlt. lia.
Qed.

(** *** Multiplication of positive normal numbers *)
Lemma mul_pnorm (a b c d : Z) (x y : float) :
  pnorm a b x -> pnorm c d y -> -172 <= a + c -> b + d <= 79 ->
  pnorm (a + c + 23) (b + d + 25) (SFmul F32.prec F32.emax x y)
  /\ near (B2Q (SFmul F32.prec F32.emax x y)) (B2Q x * B2Q y).
Proof.
  intros (mx & ex & -> & Dx & Rx) (my & ey & -> & Dy & Ry) Hlo Hhi.
  pose proof (mantissa_bounds mx Dx) as Bx.
  pose proof (mantissa_bounds my Dy) as By.
  cbn [SFmul xorb].
  assert (Dm : 47 <= Zpos (digits2_pos (mx * my)) <= 48).
  { apply (digits2_pos_between (mx * my) 46 48); [lia|].
    rewrite Pos2Z.inj_mul.
    change (2 ^ 46) with (2 ^ 23 * 2 ^ 23). change (2 ^ 48) with (2 ^ 24 * 2 ^ 24).
    nia. }
  assert (HX : (inject_Z (Zpos (mx * my)) * bpow (ex + ey)
                <= B2Q (S754_finite false mx ex) * B2Q (S754_finite false my ey)
                <= inject_Z (Zpos (mx * my) + 1) * bpow (ex + ey))%Q).
  { rewrite !B2Q_pos.
    setoid_replace (inject_Z (Zpos mx) * bpow ex * (inject_Z (Zpos my) * bpow ey))%Q
      with (inject_Z (Zpos (mx * my)) * bpow (ex + ey))%Q
      by (rewrite Pos2Z.inj_mul, inject_Z_mult, bpow_add; ring).
    split; [apply Qle_refl|].
    apply Qmult_le_compat_r; [apply inject_Z_le; lia|apply Qlt_le_weak, bpow_pos]. }
  destruct (round_near false (mx * my) (ex + ey) loc_Exact _
              ltac:(lia) ltac:(lia) ltac:(lia) HX)
    as (m & e & E & Dg & Re & N).
  rewrite E. split.
  - exists m, e. repeat split; try assumption; lia.
  - unfold near in *. rewrite (B2Q_pos m e). exact N.
Qed.

(** *** Addition of positive normal numbers *)
Lemma add_pnorm (a b c d : Z) (x y : float) :
  pnorm a b x -> pnorm c d y -> -149 <= a -> -149 <= c -> b <= 102 -> d <= 102 ->
  pnorm (Z.max a c) (Z.max b d + 2) (SFadd F32.prec F32.emax x y)
  /\ near (B2Q (SFadd F32.prec F32.emax x y)) (B2Q x + B2Q y).
Proof.
  intros (mx & ex & -> & Dx & Rx) (my & ey & -> & Dy & Ry) Ha Hc Hb Hd.
  pose proof (mantissa_bounds mx Dx) as Bx.
  pose proof (mantissa_bounds my Dy) as By.
  cbn [SFadd cond_Zopp].
  set (ez := Z.min ex ey).
  destruct (shl_align_spec mx ex ez) as [[Ex _] _]; [subst ez; lia|].
  destruct (shl_align_spec my ey ez) as [[Ey _] _]; [subst ez; lia|].
  rewrite Ex, Ey.
  assert (Px : 0 < 2 ^ (ex - ez)) by (apply Z.pow_pos_nonneg; subst ez; lia).
  assert (Py : 0 < 2 ^ (ey - ez)) by (apply Z.pow_pos_nonneg; subst ez; lia).
  remember (Zpos mx * 2 ^ (ex - ez) + Zpos my * 2 ^ (ey - ez)) as M eqn:EM.
  assert (PM : 0 < M) by (subst M; nia).
  destruct M as [|pm|pm]; try lia.
  cbn [binary_normalize].
  set (emx := Z.max ex ey).
  (* the sum lies between 2^23 and 2^25 units of the larger exponent *)
  assert (Bm : 2 ^ (23 + (emx - ez)) <= Zpos pm < 2 ^ (25 + (emx - ez))).
  { rewrite EM.
    rewrite !Z.pow_add_r by (subst emx ez; lia).
    assert (Pm : 0 < 2 ^ (emx - ez)) by (apply Z.pow_pos_nonneg; subst emx ez; lia).
    assert (Hx : 2 ^ (ex - ez) <= 2 ^ (emx - ez))
      by (apply Z.pow_le_mono_r; subst emx ez; lia).
    assert (Hy : 2 ^ (ey - ez) <= 2 ^ (emx - ez))
      by (apply Z.pow_le_mono_r; subst emx ez; lia).
    assert (Hxy : 2 ^ (ex - ez) = 2 ^ (emx - ez) \/ 2 ^ (ey - ez) = 2 ^ (emx - ez)).
    { destruct (Z_le_dec ex ey); [right|left]; f_equal; subst emx ez; lia. }
    change (2 ^ 25) with (2 * 2 ^ 24). nia. }
  assert (Dm : 24 + (emx - ez) <= Zpos (digits2_pos pm) <= 25 + (emx - ez)).
  { apply digits2_pos_between in Bm; [|subst emx ez; lia]. lia. }
  destruct (binary_round_near false pm ez ltac:(subst emx ez; lia)
              ltac:(subst emx ez; lia))
    as (m & e & E & Dg & Re & N).
  rewrite E. split.
  - exists m, e. repeat split; try assumption; subst emx ez; lia.
  - unfold near in *. rewrite !B2Q_pos.
    setoid_replace (inject_Z (Zpos mx) * bpow ex + inject_Z (Zpos my) * bpow ey)%Q
      with (inject_Z (Zpos pm) * bpow ez)%Q; [exact N|].
    rewrite EM, inject_Z_plus, !inject_Z_mult.
    rewrite <- !bpow_Z by (subst ez; lia).
    replace ex with ((ex - ez) + ez) at 1 by lia.
    replace ey with ((ey - ez) + ez) at 1 by lia.
    rewrite !bpow_add. ring.
Qed.

(** *** Division of positive normal numbers *)
Lemma SFdiv_core_binary_normal (mx my : positive) (ex ey : Z) :
  Zpos (digits2_pos mx) = 24 -> Zpos (digits2_pos my) = 24 ->
  -125 <= ex - ey ->
  SFdiv_core_binary F32.prec F32.emax (Zpos mx) ex (Zpos my) ey
  = (Zpos mx * 2 ^ 24 / Zpos my, ex - ey - 24,
     new_location (Zpos my) ((Zpos mx * 2 ^ 24) mod Zpos my)).
Proof.
  intros Dx Dy H. unfold SFdiv_core_binary.
  rewrite !Zdigits2_pos, Dx, Dy, fexp32.
  replace (Z.min (Z.max (24 + ex - (24 + ey) - 24) (-149)) (ex - ey))
    with (ex - ey - 24) by lia.
  replace (ex - ey - (ex - ey - 24)) with 24 by lia.
  rewrite Z.shiftl_mul_pow2 by lia.
  unfold Z.div, Z.modulo.
  destruct (Z.div_eucl (Zpos mx * 2 ^ 24) (Zpos my)) as [q r]. reflexivity.
Qed.

Lemma div_pnorm (a b c d : Z) (x y : float) :
  pnorm a b x -> pnorm c d y -> -125 <= a - d -> b - c <= 126 ->
  pnorm (a - d - 24) (b - c - 22) (SFdiv F32.prec F32.emax x y)
  /\ near (B2Q (SFdiv F32.prec F32.emax x y)) (B2Q x / B2Q y).
Proof.
  intros (mx & ex & -> & Dx & Rx) (my & ey & -> & Dy & Ry) Hlo Hhi.
  pose proof (mantissa_bounds mx Dx) as Bx.
  pose proof (mantissa_bounds my Dy) as By.
  cbn [SFdiv xorb].
  rewrite (SFdiv_core_binary_normal mx my ex ey Dx Dy ltac:(lia)).
  set (q := Zpos mx * 2 ^ 24 / Zpos my).
  set (l := new_location _ _). clearbody l.
  pose proof (Z.div_mod (Zpos mx * 2 ^ 24) (Zpos my) ltac:(lia)) as DM.
  pose proof (Z.mod_pos_bound (Zpos mx * 2 ^ 24) (Zpos my) ltac:(lia)) as MB.
  fold q in DM.
  assert (Bq : 2 ^ 23 <= q < 2 ^ 25).
  { change (2 ^ 25) with (2 * 2 ^ 24) in *. change (2 ^ 24) with (2 * 2 ^ 23) in *. nia. }
  destruct q as [|pq|pq] eqn:Eq; try lia.
  assert (Dq : 24 <= Zpos (digits2_pos pq) <= 25).
  { apply (digits2_pos_between pq 23 25); lia. }
  assert (HX : (inject_Z (Zpos pq) * bpow (ex - ey - 24)
                <= B2Q (S754_finite false mx ex) / B2Q (S754_finite false my ey)
                <= inject_Z (Zpos pq + 1) * bpow (ex - ey - 24))%Q).
  { rewrite !B2Q_pos.
    assert (Ny : ~ (inject_Z (Zpos my) == 0)%Q).
    { change 0%Q with (inject_Z 0). rewrite inject_Z_injective. lia. }
    pose proof (bpow_pos ey) as Pey.
    pose proof (bpow_pos (ex - ey - 24)) as Pe.
    setoid_replace (inject_Z (Zpos mx) * bpow ex / (inject_Z (Zpos my) * bpow ey))%Q
      with (inject_Z (Zpos mx * 2 ^ 24) / inject_Z (Zpos my) * bpow (ex - ey - 24))%Q.
    2:{ rewrite inject_Z_mult, <- bpow_Z by lia.
        replace ex with ((ex - ey - 24) + 24 + ey) at 1 by lia.
        rewrite !bpow_add. field. split; [exact Ny|lra]. }
    assert (Py : (0 < inject_Z (Zpos my))%Q).
    { change 0%Q with (inject_Z 0). rewrite <- Zlt_Qlt. lia. }
    split; apply Qmult_le_compat_r; try (apply Qlt_le_weak, Pe).
    - apply Qle_shift_div_l; [exact Py|].
      rewrite <- inject_Z_mult. apply inject_Z_le. nia.
    - apply Qle_shift_div_r; [exact Py|].
      rewrite <- inject_Z_mult. apply inject_Z_le. nia. }
  destruct (round_near false pq (ex - ey - 24) l _
              ltac:(lia) ltac:(lia) ltac:(lia) HX)
    as (m & e & E & Dg & Re & N).
  rewrite E. split.
  - exists m, e. repeat split; try assumption; lia.
  - unfold near in *. rewrite (B2Q_pos m e). exact N.
Qed.

(** *** Conversion of a positive [long] *)
Lemma of_Z_pnorm (n : Z) :
  1 <= n < 2 ^ 31 ->
  pnorm (-23) 8 (F32.of_Z n) /\ near (B2Q (F32.of_Z n)) (inject_Z n).
Proof.
  intros Hn. destruct n as [|p|p]; try lia.
  unfold F32.of_Z. cbn [binary_normalize].
  assert (Dp : 1 <= Zpos (digits2_pos p) <= 31).
  { apply (digits2_pos_between p 0 31); [lia|]. simpl (2 ^ 0). lia. }
  destruct (binary_round_near false p 0 ltac:(lia) ltac:(lia))
    as (m & e & E & Dg & Re & N).
  rewrite E. split.
  - exists m, e. repeat split; try assumption; lia.
  - unfold near in *. rewrite (B2Q_pos m e).
    setoid_replace (inject_Z (Zpos p)) with (inject_Z (Zpos p) * bpow 0)%Q; [exact N|].
    unfold bpow. simpl. ring.
Qed.

(** *** Conversion to [long] and the [round] macro *)

Lemma wrap32_range (z : Z) : LONG_MIN <= wrap32 z <= LONG_MAX.
Proof.
  unfold wrap32, wrap, LONG_MIN, LONG_MAX.
  pose proof (Z.mod_pos_bound (z + 2 ^ (32 - 1)) (2 ^ 32) ltac:(lia)).
  change (2 ^ (32 - 1)) with (2 ^ 31) in *. change (2 ^ 32) with (2 * 2 ^ 31) in *. lia.
Qed.

Lemma to_long_range (fix_ub : float -> Z) (x : float) :
  LONG_MIN <= to_long fix_ub x <= LONG_MAX.
Proof.
  unfold to_long. destruct x as [s|s| |s m e]; try apply wrap32_range.
  - unfold LONG_MIN, LONG_MAX. lia.
  - destruct (_ && _) eqn:E; [|apply wrap32_range].
    apply andb_true_iff in E. destruct E as [E1 E2].
    apply Z.leb_le in E1, E2. lia.
Qed.

(** The conversion of a positive number is the integer part of its
    value. *)
Lemma to_long_floor (fix_ub : float -> Z) (m : positive) (e N : Z) :
  0 <= N <= LONG_MAX ->
  (inject_Z N <= B2Q (S754_finite false m e))%Q ->
  (B2Q (S754_finite false m e) < inject_Z (N + 1))%Q ->
  to_long fix_ub (S754_finite false m e) = N.
Proof.
  intros HN Hlo Hhi. rewrite B2Q_pos in Hlo, Hhi.
  assert (A : Z.shiftl (Zpos m) e = N).
  { destruct (Z_le_dec 0 e) as [P|P].
    - rewrite Z.shiftl_mul_pow2 by lia.
      rewrite bpow_Z, <- inject_Z_mult in Hlo, Hhi by lia.
      rewrite <- Zle_Qle in Hlo. rewrite <- Zlt_Qlt in Hhi. lia.
    - rewrite Z.shiftl_div_pow2 by lia.
      assert (K : 0 < 2 ^ (- e)) by (apply Z.pow_pos_nonneg; lia).
      assert (Eb : (bpow e * inject_Z (2 ^ (- e)) == 1)%Q).
      { rewrite <- bpow_Z, <- bpow_add by lia.
        replace (e + - e) with 0 by lia. reflexivity. }
      assert (Pk : (0 < inject_Z (2 ^ (- e)))%Q).
      { change 0%Q with (inject_Z 0). rewrite <- Zlt_Qlt. exact K. }
      assert (L1 : (inject_Z (N * 2 ^ (- e)) <= inject_Z (Zpos m))%Q).
      { rewrite inject_Z_mult.
        setoid_replace (inject_Z (Zpos m))
          with (inject_Z (Zpos m) * bpow e * inject_Z (2 ^ (- e)))%Q
          by (rewrite <- Qmult_assoc, Eb; ring).
        apply Qmult_le_compat_r; [exact Hlo|apply Qlt_le_weak, Pk]. }
      assert (L2 : (inject_Z (Zpos m) < inject_Z ((N + 1) * 2 ^ (- e)))%Q).
      { rewrite inject_Z_mult.
        setoid_replace (inject_Z (Zpos m))
          with (inject_Z (Zpos m) * bpow e * inject_Z (2 ^ (- e)))%Q
          by (rewrite <- Qmult_assoc, Eb; ring).
        apply Qmult_lt_compat_r; [exact Pk|exact Hhi]. }
      rewrite <- Zle_Qle in L1. rewrite <- Zlt_Qlt in L2.
      symmetry. apply (Z.div_unique_pos _ _ N (Zpos m - N * 2 ^ (- e))); lia. }
  unfold to_long. rewrite A.
  replace ((LONG_MIN <=? N) && (N <=? LONG_MAX)) with true; [reflexivity|].
  symmetry. apply andb_true_iff. split; apply Z.leb_le; unfold LONG_MIN in *; lia.
Qed.

Lemma pnorm_half : pnorm (-24) (-24) F32.half.
Proof. exists 8388608%positive, (-24). repeat split; try reflexivity; lia. Qed.

Lemma B2Q_half : (B2Q F32.half == 1 # 2)%Q.
Proof. reflexivity. Qed.

Lemma pnorm_ge_zero (a b : Z) (x : float) : pnorm a b x -> F32.ge x F32.zero = true.
Proof. intros (m & e & -> & _). reflexivity. Qed.

(** [round] of a positive normal number whose value plus one half stays,
    after one rounding, between [N] and [N + 1]. *)
Lemma round_pnorm (fix_ub : float -> Z) (a b : Z) (x : float) (N : Z) :
  pnorm a b x -> -149 <= a -> b <= 102 ->
  0 <= N <= LONG_MAX ->
  (inject_Z N <= (B2Q x + (1 # 2)) * (1 - u))%Q ->
  ((B2Q x + (1 # 2)) * (1 + u) < inject_Z (N + 1))%Q ->
  round fix_ub x = N.
Proof.
  intros Hx Ha Hb HN Hlo Hhi.
  unfold round. rewrite (pnorm_ge_zero _ _ _ Hx).
  destruct (add_pnorm a b (-24) (-24) x F32.half Hx pnorm_half
              ltac:(lia) ltac:(lia) ltac:(lia) ltac:(lia)) as [(m & e & E & _) N1].
  unfold F32.add. rewrite E in *.
  unfold near in N1. rewrite B2Q_half in N1. destruct N1 as [N1 N2].
  apply to_long_floor; [exact HN| |].
  - eapply Qle_trans; [exact Hlo|exact N1].
  - eapply Qle_lt_trans; [exact N2|exact Hhi].
Qed.

(** ** The acquisition cycle *)

Section Cycle.

Variable fix_ub : float -> Z.
Variable cfg : Config.

Lemma meas_updateWeightData (rs : Reads) (st : State) :
  meas (updateWeightData fix_ub cfg rs st)
  = fst (centre_of_gravity fix_ub cfg (snd (acquire fix_ub cfg rs st)) (meas st)).
Proof.
  unfold updateWeightData.
  destruct (acquire fix_ub cfg rs st) as [[raw sm] w]; simpl.
  destruct (centre_of_gravity fix_ub cfg w (meas st)) as [m out]; reflexivity.
Qed.

Lemma totalWeight_centre (w : Weights) (prev : Measurement) :
  totalWeight (fst (centre_of_gravity fix_ub cfg w prev)) = sum_weights w.
Proof.
  unfold centre_of_gravity.
  destruct (F32.gt (sum_weights w) (F32.lit 1 100)); reflexivity.
Qed.

(** The branch taken when the load is not above 0.01 kg. *)
Lemma centre_insufficient (w : Weights) (prev : Measurement) :
  F32.gt (sum_weights w) (F32.lit 1 100) = false ->
  fst (centre_of_gravity fix_ub cfg w prev)
  = {| totalWeight := sum_weights w; cogX := 0; cogY := 0; wingCogX := 0;
       lateralCogDiff := 0; cogPercentage := 0 |}.
Proof.
  intros H. unfold centre_of_gravity. rewrite H. reflexivity.
Qed.

(** C1: when the total weight computed by a cycle of [updateWeightData]
    is at most 0.01 kg, the lateral offset, the longitudinal centre of
    gravity, the wing centre of gravity and the percentage are all zero
    after the cycle, whatever they were before. *)
Theorem insufficient_load_resets_cog (rs : Reads) (st : State) :
  let st' := updateWeightData fix_ub cfg rs st in
  F32.le (totalWeight (meas st')) (F32.lit 1 100) = true ->
  lateralCogDiff (meas st') = 0 /\ cogY (meas st') = 0
  /\ wingCogX (meas st') = 0 /\ cogPercentage (meas st') = 0.
Proof.
  intros st' H. subst st'.
  rewrite meas_updateWeightData in *.
  rewrite totalWeight_centre in H.
  rewrite (centre_insufficient _ _ (le_not_gt _ _ H)).
  simpl. repeat split; reflexivity.
Qed.

End Cycle.

Lemma insufficient_load_resets_cog_witness :
  let st' := updateWeightData (fun _ => 0) sketch_config (all_reads 0)
               (with_meas loaded_measurement (setup (all_reads 0))) in
  F32.le (totalWeight (meas st')) (F32.lit 1 100) = true
  /\ (lateralCogDiff (meas st') = 0 /\ cogY (meas st') = 0
      /\ wingCogX (meas st') = 0 /\ cogPercentage (meas st') = 0).
Proof.
  split.
  - vm_compute. reflexivity.
  - apply (insufficient_load_resets_cog (fun _ => 0) sketch_config (all_reads 0)
             (with_meas loaded_measurement (setup (all_reads 0)))).
    vm_compute. reflexivity.
Defined.

(** ** The example of the specification: 100000 counts on every cell *)

(** C6, as stated, fails: the rounded weight of a channel is 100000 / 1000 =
    100 kg with warmed-up windows and a fifth of it in the first cycle,
    never 0.10 kg; the total is 400 kg, respectively 80 kg, not 0.40 kg. *)
Lemma example_cycle_is_not_a_tenth_of_a_kilogram :
  weight1 (cycle_weights (fun _ => 0) example_config (all_reads 100000) example_warm)
    = F32.lit 100 1
  /\ weight1 (cycle_weights (fun _ => 0) example_config (all_reads 100000) example_cold)
    = F32.lit 20 1
  /\ totalWeight (meas (updateWeightData (fun _ => 0) example_config (all_reads 100000)
                          example_warm)) = F32.lit 400 1
  /\ F32.lit 100 1 <> F32.lit 10 100
  /\ F32.lit 20 1 <> F32.lit 10 100
  /\ F32.lit 400 1 <> F32.lit 40 100.
Proof.
  repeat split; try (vm_compute; reflexivity); vm_compute; discriminate.
Qed.

(** C6, amended: with 100000 counts read on every channel, scale factors
    1000, correction multiplier 1.0, base width 270 and base length 250, a
    cycle on warmed-up windows gives 100.00 kg per channel and 400.00 kg in
    total, the first cycle after start-up gives 20.00 kg per channel and
    80.00 kg in total; in both the lateral offset is 0 mm and the
    longitudinal centre of gravity 125 mm, whatever the platform does on
    out-of-range conversions. *)
Theorem example_cycle (fix_ub : float -> Z) :
  let warm := updateWeightData fix_ub example_config (all_reads 100000) example_warm in
  let cold := updateWeightData fix_ub example_config (all_reads 100000) example_cold in
  cycle_weights fix_ub example_config (all_reads 100000) example_warm
    = {| weight1 := F32.lit 100 1; weight2 := F32.lit 100 1;
         weight3 := F32.lit 100 1; weight4 := F32.lit 100 1 |}
  /\ totalWeight (meas warm) = F32.lit 400 1
  /\ lateralCogDiff (meas warm) = 0 /\ cogY (meas warm) = 125
  /\ cycle_weights fix_ub example_config (all_reads 100000) example_cold
    = {| weight1 := F32.lit 20 1; weight2 := F32.lit 20 1;
         weight3 := F32.lit 20 1; weight4 := F32.lit 20 1 |}
  /\ totalWeight (meas cold) = F32.lit 80 1
  /\ lateralCogDiff (meas cold) = 0 /\ cogY (meas cold) = 125.
Proof.
  repeat split; vm_compute; reflexivity.
Qed.

(** ** The percentage of the wing-peg span *)

Section Percentage.

Variable fix_ub : float -> Z.
Variable cfg : Config.

(** The branch taken when the load is above 0.01 kg. *)
Lemma centre_sufficient (w : Weights) (prev : Measurement) :
  F32.gt (sum_weights w) (F32.lit 1 100) = true ->
  let m := fst (centre_of_gravity fix_ub cfg w prev) in
  cogX m = cogX prev
  /\ lateralCogDiff m = roundToMillimeter fix_ub (cogX_centered cfg w)
  /\ cogY m = roundToMillimeter fix_ub (cogY_fromLE cfg w)
  /\ wingCogX m = cogY m
  /\ cogPercentage m
     = if F32.gt (WING_PEG_DIST cfg) F32.zero then
         wrap16 (round fix_ub (F32.mul (F32.div (F32.of_Z (cogY m)) (WING_PEG_DIST cfg))
                                       (F32.lit 100 1)))
       else cogPercentage prev.
Proof.
  intros H. unfold centre_of_gravity. rewrite H. simpl.
  repeat split; reflexivity.
Qed.

End Percentage.

(** An invariant of the step is an invariant of the fold. *)
Lemma fold_left_preserves {A B : Type} (P : A -> Prop) (f : A -> B -> A) :
  (forall a b, P a -> P (f a b)) ->
  forall (l : list B) (a : A), P a -> P (fold_left f l a).
Proof.
  intros Hf l. induction l as [|b l IH]; intros a Ha; simpl; auto.
Qed.

(** ** The lateral coordinate [cogX] *)

Section CogX.

Variable fix_ub : float -> Z.
Variable toFloat : string -> float.
Variable cfg : Config.

(** What a cycle does to [cogX]: kept under sufficient load, reset
    otherwise. *)
Lemma cogX_updateWeightData (rs : Reads) (st : State) :
  let st' := updateWeightData fix_ub cfg rs st in
  cogX (meas st')
  = if F32.gt (totalWeight (meas st')) (F32.lit 1 100) then cogX (meas st) else 0.
Proof.
  intros st'. subst st'.
  rewrite meas_updateWeightData, totalWeight_centre.
  unfold centre_of_gravity.
  destruct (F32.gt _ (F32.lit 1 100)); reflexivity.
Qed.

Lemma cogX_zero_updateWeightData (rs : Reads) (st : State) :
  cogX (meas st) = 0 -> cogX (meas (updateWeightData fix_ub cfg rs st)) = 0.
Proof.
  intros H. rewrite cogX_updateWeightData.
  destruct (F32.gt _ _); [exact H | reflexivity].
Qed.

Lemma silent_zero_reports (out : list Out) : silent out -> zero_reports out.
Proof. intros [C E]. split; [exact C|]. rewrite E. constructor. Qed.

Lemma closed_app (a b : list Out) : closed a -> closed b -> closed (a ++ b).
Proof.
  intros Ca Cb tail.
  rewrite <- app_assoc, Ca, Cb, (Ca b), app_assoc. reflexivity.
Qed.

Lemma zero_reports_app (a b : list Out) :
  zero_reports a -> zero_reports b -> zero_reports (a ++ b).
Proof.
  intros [Ca Fa] [Cb Fb]. split; [apply closed_app; assumption|].
  rewrite <- (app_nil_r b), Ca, app_nil_r. apply Forall_app. split; assumption.
Qed.

Lemma silent_app (a b : list Out) : silent a -> silent b -> silent (a ++ b).
Proof.
  intros [Ca Ea] [Cb Eb]. split; [apply closed_app; assumption|].
  rewrite <- (app_nil_r b), Ca, app_nil_r, Ea, Eb. reflexivity.
Qed.

Lemma silent_nil : silent [].
Proof. split; [intros tail|]; reflexivity. Qed.

Lemma silent_println_s (s : string) :
  String.eqb s "CG X: " = false -> silent (println_s s).
Proof.
  intros H. split; [intros tail|]; unfold println_s; cbn [app cgx_reports];
    rewrite H; reflexivity.
Qed.

Lemma silent_print_f (f : float) (d : Z) : silent (print_f f d).
Proof. split; [intros tail|]; reflexivity. Qed.

Lemma silent_println_f (f : float) (d : Z) : silent (println_f f d).
Proof. split; [intros tail|]; reflexivity. Qed.

Lemma silent_print_i (z : Z) : silent (print_i z).
Proof. split; [intros tail|]; reflexivity. Qed.

Lemma silent_println_i (z : Z) : silent (println_i z).
Proof. split; [intros tail|]; reflexivity. Qed.

(** A label other than "CG X: " can be followed by anything. *)
Lemma silent_print_s (s : string) :
  String.eqb s "CG X: " = false -> silent (print_s s).
Proof.
  intros H. split; [intros tail|]; unfold print_s; cbn [app cgx_reports];
    rewrite H; reflexivity.
Qed.

Lemma zero_reports_cgx : zero_reports (print_s "CG X: " ++ print_i 0).
Proof.
  split; [intros tail; reflexivity|]. cbn. constructor; [reflexivity|constructor].
Qed.

Create HintDb serial_out.
#[local] Hint Resolve silent_nil silent_print_f silent_println_f
  silent_print_i silent_println_i silent_app : serial_out.
#[local] Hint Extern 1 (silent (print_s _)) =>
  (apply silent_print_s; reflexivity) : serial_out.
#[local] Hint Extern 1 (silent (println_s _)) =>
  (apply silent_println_s; reflexivity) : serial_out.
#[local] Hint Extern 1 (silent (if ?b then _ else _)) => destruct b : serial_out.

Ltac silence := repeat (apply silent_app); auto with serial_out.

Lemma Inv_say (o : list Out) (st : State) :
  silent o -> Inv st -> Inv (say o st).
Proof.
  intros So [H Z]. split; [exact H|].
  unfold say. cbn [serial]. apply zero_reports_app; [exact Z|].
  apply silent_zero_reports, So.
Qed.

Lemma serial_updateWeightData (rs : Reads) (st : State) :
  exists o, silent o /\ serial (updateWeightData fix_ub cfg rs st) = serial st ++ o.
Proof.
  unfold updateWeightData.
  destruct (acquire fix_ub cfg rs st) as [[raw sm] w].
  unfold centre_of_gravity.
  destruct (F32.gt (sum_weights w) (F32.lit 1 100)).
  - eexists. split; [|unfold say; cbn [serial with_meas with_smoothing]; reflexivity].
    silence.
  - eexists. split; [|unfold say; cbn [serial with_meas with_smoothing]; reflexivity].
    silence.
Qed.

Lemma Inv_updateWeightData (rs : Reads) (st : State) :
  Inv st -> Inv (updateWeightData fix_ub cfg rs st).
Proof.
  intros [H Z]. split; [apply cogX_zero_updateWeightData, H|].
  destruct (serial_updateWeightData rs st) as (o & So & ->).
  apply zero_reports_app; [exact Z|apply silent_zero_reports, So].
Qed.

Lemma Inv_printSerialData (rr : Reads) (st : State) :
  Inv st -> Inv (printSerialData rr st).
Proof.
  intros [H Z]. split; [exact H|].
  unfold printSerialData, say. cbn [serial]. rewrite H.
  apply zero_reports_app; [exact Z|].
  repeat
    match goal with
    | |- zero_reports (print_s "CG X: " ++ print_i 0 ++ _) =>
      rewrite (app_assoc (print_s "CG X: ") (print_i 0));
      apply zero_reports_app; [apply zero_reports_cgx|]
    | |- zero_reports (_ ++ _) =>
      apply zero_reports_app; [apply silent_zero_reports; silence|]
    end.
  apply silent_zero_reports. silence.
Qed.

Lemma Inv_unchanged (st st' : State) :
  meas st' = meas st -> serial st' = serial st -> Inv st -> Inv st'.
Proof. unfold Inv. intros -> ->. auto. Qed.

Lemma Inv_tare_cells (rs : Reads) (st : State) : Inv st -> Inv (tare_cells rs st).
Proof. apply Inv_unchanged; reflexivity. Qed.

Lemma Inv_with_menu (a : bool) (p : Z) (st : State) : Inv st -> Inv (with_menu a p st).
Proof. apply Inv_unchanged; reflexivity. Qed.

Lemma Inv_with_menuActive (a : bool) (st : State) : Inv st -> Inv (with_menuActive a st).
Proof. apply Inv_unchanged; reflexivity. Qed.

Lemma Inv_with_cells (c : Cells) (st : State) : Inv st -> Inv (with_cells c st).
Proof. apply Inv_unchanged; reflexivity. Qed.

Lemma Inv_with_continuousMode (b : bool) (st : State) :
  Inv st -> Inv (with_continuousMode b st).
Proof. apply Inv_unchanged; reflexivity. Qed.

Lemma Inv_with_taraEffettuata (b : bool) (st : State) :
  Inv st -> Inv (with_taraEffettuata b st).
Proof. apply Inv_unchanged; reflexivity. Qed.

Lemma Inv_advance_sampleIndex (st : State) : Inv st -> Inv (advance_sampleIndex st).
Proof. apply Inv_unchanged; reflexivity. Qed.

Lemma Inv_show_view (refreshes : list Reads) (st : State) :
  Inv st -> Inv (show_view fix_ub cfg refreshes st).
Proof.
  apply (fold_left_preserves Inv). intros a b. apply Inv_updateWeightData.
Qed.

Lemma Inv_menu_loop (s : Screen) (st : State) :
  Inv st -> Inv (menu_loop fix_ub cfg s st).
Proof.
  revert st.
  induction s as [|next IH|next IH|tr tm IHtm rf next IH]; intros st H;
    cbn [menu_loop].
  - exact H.
  - apply IH, Inv_with_menu, H.
  - apply IH, Inv_with_menu, H.
  - apply IH.
    destruct (menuPosition st =? 0).
    + apply Inv_with_menuActive, IHtm. do 2 apply Inv_with_menu.
      apply Inv_tare_cells, H.
    + destruct (menuPosition st =? 1); [apply Inv_show_view, H|].
      destruct (menuPosition st =? 2); [apply Inv_show_view, H|exact H].
Qed.

Lemma Inv_showMainMenu (s : Screen) (st : State) :
  Inv st -> Inv (showMainMenu fix_ub cfg s st).
Proof.
  intros H. unfold showMainMenu.
  apply Inv_with_menuActive, Inv_menu_loop, Inv_with_menu, H.
Qed.

Lemma Inv_tareScales (rs : Reads) (s : Screen) (st : State) :
  Inv st -> Inv (tareScales fix_ub cfg rs s st).
Proof.
  intros H. unfold tareScales.
  apply Inv_showMainMenu, Inv_with_menu, Inv_tare_cells, H.
Qed.

Lemma silent_await_weight (fuel : nat) (rx r : list ascii) (out0 out : list Out)
      (kw : float) :
  silent out0 -> await_weight toFloat fuel rx out0 = Some (kw, r, out) -> silent out.
Proof.
  revert rx out0.
  induction fuel as [|fuel IH]; intros rx out0 S0 E; cbn [await_weight] in E.
  - discriminate.
  - destruct rx as [|c rx']; [discriminate|].
    destruct (readStringUntil newline (c :: rx')) as [input r'].
    destruct (F32.gt (toFloat input) F32.zero).
    + injection E as _ _ <-. silence.
    + apply (IH r' (out0 ++ println_s "Invalid weight. Try again: ")); [silence|exact E].
Qed.

Lemma Inv_calibrateCellsViaSerial (env : CalReads) (rx rx' : list ascii)
      (st st' : State) :
  calibrateCellsViaSerial toFloat env rx st = Some (rx', st') -> Inv st -> Inv st'.
Proof.
  unfold calibrateCellsViaSerial. intros E H.
  destruct (await_tare rx) as [rx1|]; [|discriminate].
  destruct (await_weight toFloat _ rx1 []) as [[[kw rx2] out]|] eqn:W; [|discriminate].
  pose proof (silent_await_weight _ _ _ _ _ _ silent_nil W) as So.
  injection E as _ <-.
  apply Inv_with_continuousMode.
  apply Inv_say; [silence|].
  apply Inv_say; [silence|].
  apply Inv_with_cells.
  apply Inv_say; [silence|].
  apply Inv_say; [silence|].
  apply Inv_say; [silence|].
  apply Inv_with_cells.
  apply Inv_say; [silence|].
  apply Inv_say; [silence|].
  apply Inv_with_continuousMode, H.
Qed.

Lemma Inv_basic_command (env : CommandEnv) (cmd : ascii)
      (rx rx' : list ascii) (st st' : State) :
  basic_command fix_ub toFloat cfg env cmd rx st = Some (rx', st') ->
  Inv st -> Inv st'.
Proof.
  unfold basic_command. intros E H.
  destruct (Ascii.eqb cmd "z").
  { injection E as _ <-.
    apply Inv_say; [silence|]. apply Inv_tareScales. apply Inv_say; [silence|exact H]. }
  destruct (Ascii.eqb cmd "p").
  { injection E as _ <-. unfold toggleContinuousMode.
    apply Inv_say; [|apply Inv_with_continuousMode, H].
    destruct (continuousMode _); silence. }
  destruct (Ascii.eqb cmd "s").
  { injection E as _ <-. unfold showCalibrationFactors. apply Inv_say; [silence|exact H]. }
  destruct (Ascii.eqb cmd "c").
  { destruct (calibrateCellsViaSerial _ _ _ _) as [[rx1 st1]|] eqn:C; [|discriminate].
    injection E as _ <-.
    apply Inv_say; [silence|].
    apply (Inv_calibrateCellsViaSerial _ _ _ _ _ C).
    apply Inv_say; [silence|exact H]. }
  destruct (Ascii.eqb cmd "m").
  { injection E as _ <-. apply Inv_showMainMenu, Inv_with_menu.
    apply Inv_say; [silence|exact H]. }
  destruct (Ascii.eqb cmd "d"); injection E as _ <-; (apply Inv_say; [silence|exact H]).
Qed.

Lemma Inv_checkSerialCommands (env : CommandEnv)
      (rx rx' : list ascii) (st st' : State) :
  checkSerialCommands fix_ub toFloat cfg env rx st = Some (rx', st') ->
  Inv st -> Inv st'.
Proof.
  unfold checkSerialCommands. intros E H.
  destruct rx as [|c r]; [injection E as _ <-; exact H|].
  destruct (readStringUntil newline (c :: r)) as [input rx1].
  destruct (str_length (trim input) =? 1).
  { eapply Inv_basic_command; eassumption. }
  destruct (_ && startsWith _ _).
  { destruct (F32.gt _ _); injection E as _ <-.
    - unfold setCorrectionFactor. apply Inv_say; [silence|exact H].
    - apply Inv_say; [silence|exact H]. }
  destruct (_ && _ && _); [|injection E as _ <-; exact H].
  destruct (_ && _); [|injection E as _ <-; apply Inv_say; [silence|exact H]].
  destruct (F32.ne _ _); injection E as _ <-.
  - apply Inv_say; [silence|]. apply Inv_with_cells, H.
  - apply Inv_say; [silence|exact H].
Qed.

Lemma Inv_checkButtons (b : Buttons) (st : State) :
  Inv st -> Inv (checkButtons fix_ub cfg b st).
Proof.
  intros H. unfold checkButtons.
  destruct (_ && debounced b); [|exact H].
  set (st1 := if k1Pressed b then _ else st).
  assert (H1 : Inv st1).
  { subst st1. destruct (k1Pressed b); [apply Inv_showMainMenu, Inv_with_menu|]; exact H. }
  clearbody st1.
  set (st2 := if k4Pressed b && negb (menuActive st1) then _ else st1).
  assert (H2 : Inv st2).
  { subst st2. destruct (_ && _); [apply Inv_tareScales|]; exact H1. }
  clearbody st2.
  destruct (k4Pressed b && menuActive st2); [apply Inv_with_menuActive|]; exact H2.
Qed.

Lemma Inv_acquisition_cycle (d : bool) (rs rr : Reads) (st : State) :
  Inv st -> Inv (acquisition_cycle fix_ub cfg d rs rr st).
Proof.
  intros H. unfold acquisition_cycle.
  destruct (_ && _); [|exact H].
  apply Inv_advance_sampleIndex, Inv_printSerialData, Inv_updateWeightData, H.
Qed.

Lemma Inv_loop (i : LoopInput) (rx rx' : list ascii) (st st' : State) :
  loop fix_ub toFloat cfg i (rx, st) = Some (rx', st') -> Inv st -> Inv st'.
Proof.
  unfold loop. intros E H.
  destruct (checkSerialCommands _ _ _ _ _ _) as [[rx1 st1]|] eqn:C; [|discriminate].
  injection E as _ <-.
  apply Inv_acquisition_cycle.
  eapply Inv_checkSerialCommands; [exact C|].
  apply Inv_checkButtons, H.
Qed.

Lemma Inv_run_loops (inputs : list LoopInput) (s s' : list ascii * State) :
  run_loops fix_ub toFloat cfg inputs s = Some s' -> Inv (snd s) -> Inv (snd s').
Proof.
  revert s. induction inputs as [|i rest IH]; intros s E H; cbn [run_loops] in E.
  - injection E as <-. exact H.
  - destruct (loop fix_ub toFloat cfg i s) as [s1|] eqn:L; [|discriminate].
    apply (IH s1 E).
    destruct s as [rx st], s1 as [rx1 st1]. cbn [snd] in *.
    eapply Inv_loop; eassumption.
Qed.

Lemma Inv_setup (rs : Reads) : Inv (setup rs).
Proof.
  unfold setup.
  apply Inv_say; [silence|].
  apply Inv_with_taraEffettuata, Inv_with_cells.
  apply Inv_say; [silence|].
  apply Inv_with_cells.
  apply Inv_say; [silence|].
  split; [reflexivity|]. apply silent_zero_reports, silent_nil.
Qed.

(** C10: [cogX] is never given a value other than zero.  A cycle under
    sufficient load leaves it as it is and a cycle under insufficient load
    resets it; hence, after [setup] and any number of turns of [loop],
    whatever the buttons, the serial input and the readings are, [cogX] is 0
    and every value that a measurement report has printed after "CG X: " is
    0. *)
Theorem cogX_is_always_zero
        (setup_reads : Reads) (inputs : list LoopInput) (rx : list ascii) (st : State) :
  run fix_ub toFloat cfg setup_reads inputs = Some (rx, st) ->
  cogX (meas st) = 0
  /\ Forall (fun v => v = OInt 0) (cgx_reports (serial st))
  /\ forall (rs : Reads) (st0 : State),
      let st' := updateWeightData fix_ub cfg rs st0 in
      cogX (meas st')
      = if F32.gt (totalWeight (meas st')) (F32.lit 1 100) then cogX (meas st0) else 0.
Proof.
  intros E.
  destruct (Inv_run_loops _ _ _ E (Inv_setup setup_reads)) as [H [_ Z]].
  split; [exact H|]. split; [exact Z|]. exact cogX_updateWeightData.
Qed.

End CogX.

(** ** The command [cf,<value>] *)

Section CorrectionCommand.

Variable fix_ub : float -> Z.
Variable toFloat : string -> float.
Variable cfg : Config.

Lemma str_length_cf (v : string) :
  str_length (String "c" (String "f" (String "," v)))
  = 3 + Z.of_nat (String.length v).
Proof.
  unfold str_length. cbn [String.length]. lia.
Qed.

Lemma string_length_pos (v : string) :
  v <> EmptyString -> 0 < Z.of_nat (String.length v).
Proof.
  destruct v; [congruence|]. intros _. cbn [String.length]. lia.
Qed.

Lemma readStringUntil_nil_input (t : ascii) : readStringUntil t [] = (EmptyString, []).
Proof. reflexivity. Qed.

(** C9: a received line that, once trimmed, reads [cf,<value>] with a
    value that converts to a number at most zero (as [cf,-1] does) is
    answered with "Invalid correction factor (must be > 0)" and nothing
    else happens: the four scale factors, of the sketch and of the
    amplifiers, are what they were. *)
Theorem invalid_correction_factor_is_rejected
        (env : CommandEnv) (rx rest : list ascii) (input v : string) (st : State) :
  readStringUntil newline rx = (input, rest) ->
  trim input = String "c" (String "f" (String "," v)) ->
  v <> EmptyString ->
  F32.le (toFloat v) F32.zero = true ->
  exists st' : State,
    checkSerialCommands fix_ub toFloat cfg env rx st = Some (rest, st')
    /\ serial st' = serial st ++ println_s "Invalid correction factor (must be > 0)"
    /\ cells st' = cells st.
Proof.
  intros Hread Htrim Hv Hle.
  exists (say (println_s "Invalid correction factor (must be > 0)") st).
  split; [|split; reflexivity].
  unfold checkSerialCommands.
  destruct rx as [|c r].
  { rewrite readStringUntil_nil_input in Hread. injection Hread as <- _.
    discriminate Htrim. }
  rewrite Hread, Htrim, str_length_cf.
  pose proof (string_length_pos v Hv) as Hlen.
  replace (3 + Z.of_nat (String.length v) =? 1) with false
    by (symmetry; apply Z.eqb_neq; lia).
  replace (3 <? 3 + Z.of_nat (String.length v)) with true
    by (symmetry; apply Z.ltb_lt; lia).
  replace (startsWith "cf," (String "c" (String "f" (String "," v)))) with true
    by (unfold startsWith; cbn; destruct v; reflexivity).
  cbn [andb].
  replace (indexOf "," (String "c" (String "f" (String "," v)))) with 2
    by reflexivity.
  change (substring_from (Z.to_nat (2 + 1)) (String "c" (String "f" (String "," v))))
    with v.
  rewrite (le_not_gt _ _ Hle). reflexivity.
Qed.

End CorrectionCommand.

Lemma invalid_correction_factor_is_rejected_witness :
  exists st' : State,
    checkSerialCommands (fun _ => 0) decimal_toFloat sketch_config idle_env
      (received "cf,-1" ++ [newline]) (setup (all_reads 0)) = Some ([], st')
    /\ serial st'
       = serial (setup (all_reads 0))
         ++ println_s "Invalid correction factor (must be > 0)"
    /\ cells st' = cells (setup (all_reads 0)).
Proof.
  apply (invalid_correction_factor_is_rejected (fun _ => 0) decimal_toFloat
           sketch_config idle_env (received "cf,-1" ++ [newline]) []
           "cf,-1" "-1" (setup (all_reads 0))).
  - reflexivity.
  - reflexivity.
  - discriminate.
  - vm_compute. reflexivity.
Defined.

(** ** Calibration *)

Section Calibration.

Variable toFloat : string -> float.

(** C2: once the tare command and a valid known weight have been received,
    the calibration completes, and the new factor of every channel is
    [(raw_i / (raw_1 + raw_2 + raw_3 + raw_4)) * knownWeight * 4.0], where
    [raw_i] is the value captured from the channel after the tare; the same
    number is the scale of the channel's amplifier.  (Nothing here needs
    the sum to be nonzero.) *)
Theorem calibration_sets_proportional_factors
        (env : CalReads) (rx rx1 rx2 : list ascii) (knownWeight : float)
        (out : list Out) (st : State) :
  await_tare rx = Some rx1 ->
  await_weight toFloat (S (List.length rx1)) rx1 [] = Some (knownWeight, rx2, out) ->
  let c := tare_all (tare_reads env) (cells st) in
  let raw1 := get_value (rd1 (raw_reads env)) (scale1 c) in
  let raw2 := get_value (rd2 (raw_reads env)) (scale2 c) in
  let raw3 := get_value (rd3 (raw_reads env)) (scale3 c) in
  let raw4 := get_value (rd4 (raw_reads env)) (scale4 c) in
  let sum := spec_sum raw1 raw2 raw3 raw4 in
  exists st' : State,
    calibrateCellsViaSerial toFloat env rx st = Some (rx2, st')
    /\ calibration_factor1 (cells st') = spec_scale_factor raw1 sum knownWeight
    /\ calibration_factor2 (cells st') = spec_scale_factor raw2 sum knownWeight
    /\ calibration_factor3 (cells st') = spec_scale_factor raw3 sum knownWeight
    /\ calibration_factor4 (cells st') = spec_scale_factor raw4 sum knownWeight
    /\ SCALE (scale1 (cells st')) = calibration_factor1 (cells st')
    /\ SCALE (scale2 (cells st')) = calibration_factor2 (cells st')
    /\ SCALE (scale3 (cells st')) = calibration_factor3 (cells st')
    /\ SCALE (scale4 (cells st')) = calibration_factor4 (cells st').
Proof.
  intros Ht Hw c raw1 raw2 raw3 raw4 sum.
  unfold calibrateCellsViaSerial. rewrite Ht, Hw.
  eexists. split; [reflexivity|].
  cbn [cells with_continuousMode say with_cells compute_factors
       calibration_factor1 calibration_factor2 calibration_factor3
       calibration_factor4 scale1 scale2 scale3 scale4 SCALE set_scale].
  repeat split; reflexivity.
Qed.

End Calibration.

Lemma calibration_sets_proportional_factors_witness :
  let env := calibration_env 8000 108000 in
  let raw := F32.of_Z 100000 in
  let sum := spec_sum raw raw raw raw in
  let weight := F32.lit 5 10 in
  exists st' : State,
    calibrateCellsViaSerial decimal_toFloat env (received "t0.5" ++ [newline])
      (setup (all_reads 8000)) = Some ([], st')
    /\ calibration_factor1 (cells st') = spec_scale_factor raw sum weight
    /\ calibration_factor2 (cells st') = spec_scale_factor raw sum weight
    /\ calibration_factor3 (cells st') = spec_scale_factor raw sum weight
    /\ calibration_factor4 (cells st') = spec_scale_factor raw sum weight
    /\ SCALE (scale1 (cells st')) = calibration_factor1 (cells st')
    /\ SCALE (scale2 (cells st')) = calibration_factor2 (cells st')
    /\ SCALE (scale3 (cells st')) = calibration_factor3 (cells st')
    /\ SCALE (scale4 (cells st')) = calibration_factor4 (cells st').
Proof.
  apply (calibration_sets_proportional_factors decimal_toFloat
           (calibration_env 8000 108000) (received "t0.5" ++ [newline])
           (received "0.5" ++ [newline]) [] (F32.lit 5 10)
           (print_s "Weight entered: " ++ print_f (F32.lit 5 10) 3 ++ println_s " kg")
           (setup (all_reads 8000))).
  - reflexivity.
  - vm_compute. reflexivity.
Defined.

(** C5: the code has no guard.  When the four captured values sum to zero
    (here: the platform reads what it read at the tare, so every captured
    value is 0) the session runs to its end, reports "Calibration completed
    and ready for use", and has replaced the four factors and the four
    amplifier scales by NaN; mixed values summing to zero give infinite
    factors as well. *)
Lemma zero_sum_calibration_installs_nan :
  let env := {| z_reads := all_reads 0; z_menu := PressK4;
                c_reads := calibration_env 8000 8000;
                m_menu := PressK4; d_reads := all_reads 0;
                d_k1 := 1; d_k2 := 1; d_k3 := 1; d_k4 := 1 |} in
  spec_sum (F32.of_Z 0) (F32.of_Z 0) (F32.of_Z 0) (F32.of_Z 0) = F32.zero
  /\ exists st' : State,
      checkSerialCommands (fun _ => 0) decimal_toFloat sketch_config env
        (received "c" ++ [newline] ++ received "t0.5" ++ [newline])
        (setup (all_reads 8000)) = Some ([], st')
      /\ calibration_factor1 (cells st') = S754_nan
      /\ calibration_factor2 (cells st') = S754_nan
      /\ calibration_factor3 (cells st') = S754_nan
      /\ calibration_factor4 (cells st') = S754_nan
      /\ SCALE (scale1 (cells st')) = S754_nan
      /\ SCALE (scale2 (cells st')) = S754_nan
      /\ SCALE (scale3 (cells st')) = S754_nan
      /\ SCALE (scale4 (cells st')) = S754_nan
      /\ calibration_factor1 (cells (setup (all_reads 8000))) = F32.lit (-41197959) 100
      /\ skipn (List.length (serial st') - 2) (serial st')
         = println_s "Calibration completed and ready for use"
      /\ get_units 108000 (scale1 (cells st')) = S754_nan.
Proof.
  split; [reflexivity|].
  eexists. split; [vm_compute; reflexivity|].
  repeat split; vm_compute; reflexivity.
Qed.

Lemma zero_sum_calibration_installs_infinities :
  let raw1 := F32.of_Z 5 in
  let raw2 := F32.of_Z (-5) in
  let raw3 := F32.of_Z 0 in
  let raw4 := F32.of_Z 0 in
  let c := compute_factors raw1 raw2 raw3 raw4 (F32.lit 5 10) (cells (setup (all_reads 0))) in
  spec_sum raw1 raw2 raw3 raw4 = F32.zero
  /\ SCALE (scale1 c) = S754_infinity false
  /\ SCALE (scale2 c) = S754_infinity true
  /\ SCALE (scale3 c) = S754_nan
  /\ SCALE (scale4 c) = S754_nan.
Proof.
  repeat split; vm_compute; reflexivity.
Qed.

(** ** Reference loads *)

Lemma pnorm_BASE_LENGTH : pnorm (-16) (-16) (BASE_LENGTH sketch_config).
Proof. exists 16384000%positive, (-16). repeat split; try reflexivity; lia. Qed.

Lemma B2Q_BASE_LENGTH : (B2Q (BASE_LENGTH sketch_config) == 250)%Q.
Proof. reflexivity. Qed.

Lemma pnorm_weaken (a b a' b' : Z) (x : float) :
  pnorm a b x -> a' <= a -> b <= b' -> pnorm a' b' x.
Proof.
  intros (m & e & E & D & R) Ha Hb. exists m, e. repeat split; try assumption; lia.
Qed.

Lemma pnorm_B2Q_pos (a b : Z) (x : float) : pnorm a b x -> (0 < B2Q x)%Q.
Proof. intros (m & e & -> & _). apply B2Q_positive. Qed.

Lemma add_zero_pnorm (a b : Z) (s : bool) (x : float) :
  pnorm a b x -> F32.add (S754_zero s) x = x.
Proof. intros (m & e & -> & _). reflexivity. Qed.

Lemma add_pnorm_zero (a b : Z) (s : bool) (x : float) :
  pnorm a b x -> F32.add x (S754_zero s) = x.
Proof. intros (m & e & -> & _). reflexivity. Qed.

Lemma mul_pnorm_zero (a b : Z) (s : bool) (x : float) :
  pnorm a b x -> F32.mul x (S754_zero s) = S754_zero s.
Proof. intros (m & e & -> & _). reflexivity. Qed.

(** The total of four equal positive weights. *)
Lemma sum_weights_uniform (w0 : float) :
  pnorm (-30) 3 w0 ->
  pnorm (-30) 9 (sum_weights (uniform w0))
  /\ (B2Q w0 * (39999 # 10000) <= B2Q (sum_weights (uniform w0))
      <= B2Q w0 * (40001 # 10000))%Q.
Proof.
  intros Hw. unfold sum_weights, uniform. cbn [weight1 weight2 weight3 weight4].
  unfold F32.add.
  destruct (add_pnorm _ _ _ _ w0 w0 Hw Hw ltac:(lia) ltac:(lia) ltac:(lia) ltac:(lia))
    as [P1 N1].
  destruct (add_pnorm _ _ _ _ _ w0 P1 Hw ltac:(lia) ltac:(lia) ltac:(lia) ltac:(lia))
    as [P2 N2].
  destruct (add_pnorm _ _ _ _ _ w0 P2 Hw ltac:(lia) ltac:(lia) ltac:(lia) ltac:(lia))
    as [P3 N3].
  split.
  - eapply pnorm_weaken; [exact P3|lia|lia].
  - pose proof (pnorm_B2Q_pos _ _ _ Hw) as W.
    unfold near, u in *.
    set (a1 := B2Q (SFadd F32.prec F32.emax w0 w0)) in *.
    set (a2 := B2Q (SFadd F32.prec F32.emax _ w0)) in *.
    set (t := B2Q (SFadd F32.prec F32.emax _ w0)) in *.
    set (x := B2Q w0) in *.
    clearbody a1 a2 t x. lra.
Qed.

(** The quotient ends within a hundredth of [c] when numerator and
    denominator are within relative bounds of [c * T] and [T]. *)
Lemma div_between (a b : Z) (a' b' : Z) (y t : float) (lo hi : Q) :
  pnorm a b y -> pnorm a' b' t -> -125 <= a - b' -> b - a' <= 126 ->
  (lo * B2Q t <= B2Q y * (1 - u))%Q ->
  (B2Q y * (1 + u) <= hi * B2Q t)%Q ->
  pnorm (a - b' - 24) (b - a' - 22) (F32.div y t)
  /\ (lo <= B2Q (F32.div y t) <= hi)%Q.
Proof.
  intros Hy Ht H1 H2 Hlo Hhi.
  destruct (div_pnorm a b a' b' y t Hy Ht H1 H2) as [P N].
  split; [exact P|].
  pose proof (pnorm_B2Q_pos _ _ _ Ht) as T.
  unfold near in N. destruct N as [N1 N2]. unfold F32.div.
  split.
  - eapply Qle_trans; [|exact N1].
    setoid_replace (B2Q y / B2Q t * (1 - u))%Q with (B2Q y * (1 - u) / B2Q t)%Q
      by (field; lra).
    apply Qle_shift_div_l; assumption.
  - eapply Qle_trans; [exact N2|].
    setoid_replace (B2Q y / B2Q t * (1 + u))%Q with (B2Q y * (1 + u) / B2Q t)%Q
      by (field; lra).
    apply Qle_shift_div_r; assumption.
Qed.

Lemma roundToMillimeter_pnorm (fix_ub : float -> Z) (a b : Z) (x : float) (N : Z) :
  pnorm a b x -> -149 <= a -> b <= 102 -> 0 <= N < 2 ^ 15 ->
  (inject_Z N - (1 # 4) <= B2Q x <= inject_Z N + (1 # 4))%Q ->
  roundToMillimeter fix_ub x = N.
Proof.
  intros Hx Ha Hb HN [H1 H2].
  unfold roundToMillimeter.
  rewrite (round_pnorm fix_ub a b x N Hx Ha Hb).
  - unfold wrap16, wrap. change (2 ^ (16 - 1)) with (2 ^ 15).
    change (2 ^ 16) with (2 * 2 ^ 15).
    rewrite Z.mod_small by lia. lia.
  - unfold LONG_MAX. change (2 ^ 31) with (2 ^ 16 * 2 ^ 15). lia.
  - assert (B : (inject_Z N <= 32768)%Q).
    { change 32768%Q with (inject_Z (2 ^ 15)). apply inject_Z_le. lia. }
    assert (B0 : (0 <= inject_Z N)%Q).
    { change 0%Q with (inject_Z 0). apply inject_Z_le. lia. }
    unfold u. lra.
  - assert (B : (inject_Z N <= 32768)%Q).
    { change 32768%Q with (inject_Z (2 ^ 15)). apply inject_Z_le. lia. }
    assert (B0 : (0 <= inject_Z N)%Q).
    { change 0%Q with (inject_Z 0). apply inject_Z_le. lia. }
    rewrite inject_Z_plus. change (inject_Z 1) with 1%Q. unfold u. lra.
Qed.

(** Four equal positive weights: the longitudinal quotient rounds to half
    the base length. *)
Lemma cogY_uniform (fix_ub : float -> Z) (w0 : float) :
  pnorm (-30) 3 w0 ->
  roundToMillimeter fix_ub (cogY_fromLE sketch_config (uniform w0)) = 125.
Proof.
  intros Hw.
  destruct (sum_weights_uniform w0 Hw) as [Pt [T1 T2]].
  unfold cogY_fromLE. cbv zeta.
  set (t := sum_weights (uniform w0)) in *.
  unfold uniform. cbn [weight1 weight2 weight3 weight4].
  change F32.zero with (S754_zero false).
  rewrite (mul_pnorm_zero _ _ false w0 Hw).
  change (F32.add (S754_zero false) (S754_zero false)) with (S754_zero false).
  destruct (mul_pnorm _ _ _ _ w0 (BASE_LENGTH sketch_config) Hw pnorm_BASE_LENGTH
              ltac:(lia) ltac:(lia)) as [Pp Np].
  fold (F32.mul w0 (BASE_LENGTH sketch_config)) in Pp, Np.
  set (p := F32.mul w0 (BASE_LENGTH sketch_config)) in *.
  rewrite (add_zero_pnorm _ _ false p Pp).
  destruct (add_pnorm _ _ _ _ p p Pp Pp ltac:(lia) ltac:(lia) ltac:(lia) ltac:(lia))
    as [Py Ny].
  fold (F32.add p p) in Py, Ny. set (y := F32.add p p) in *.
  pose proof (pnorm_B2Q_pos _ _ _ Hw) as W.
  unfold near, u in Np, Ny. rewrite B2Q_BASE_LENGTH in Np.
  destruct (div_between _ _ _ _ y t (1249 # 10) (1251 # 10) Py Pt
              ltac:(lia) ltac:(lia)) as [Pr [R1 R2]].
  { unfold u. clearbody y p t.
    set (Y := B2Q y) in *. set (P := B2Q p) in *. set (T := B2Q t) in *.
    set (X := B2Q w0) in *. clearbody Y P T X. lra. }
  { unfold u. clearbody y p t.
    set (Y := B2Q y) in *. set (P := B2Q p) in *. set (T := B2Q t) in *.
    set (X := B2Q w0) in *. clearbody Y P T X. lra. }
  apply (roundToMillimeter_pnorm fix_ub _ _ _ 125 Pr); try lia.
  change (inject_Z 125) with 125%Q. split; lra.
Qed.

(** *** Signs and zeros *)

Lemma binary_round_aux_opp (m : Z) (e : Z) (l : location) :
  binary_round_aux F32.prec F32.emax true m e l
  = SFopp (binary_round_aux F32.prec F32.emax false m e l).
Proof.
  unfold binary_round_aux.
  destruct (shr_fexp F32.prec F32.emax m e l) as [mrs1 e1].
  destruct (shr_fexp F32.prec F32.emax _ e1 loc_Exact) as [mrs2 e2].
  destruct (shr_m mrs2); try reflexivity.
  destruct (e2 <=? F32.emax - F32.prec); reflexivity.
Qed.

Lemma mul_opp_r (mx my : positive) (ex ey : Z) :
  F32.mul (S754_finite false mx ex) (S754_finite true my ey)
  = SFopp (F32.mul (S754_finite false mx ex) (S754_finite false my ey)).
Proof. unfold F32.mul. cbn [SFmul xorb]. apply binary_round_aux_opp. Qed.

Lemma div_opp_l (mx my : positive) (ex ey : Z) :
  F32.div (S754_finite true mx ex) (S754_finite false my ey)
  = SFopp (F32.div (S754_finite false mx ex) (S754_finite false my ey)).
Proof.
  unfold F32.div. cbn [SFdiv xorb].
  destruct (SFdiv_core_binary F32.prec F32.emax (Zpos mx) ex (Zpos my) ey) as [[mz ez] lz].
  apply binary_round_aux_opp.
Qed.

Lemma add_opp_self (m : positive) (e : Z) :
  F32.add (S754_finite true m e) (S754_finite false m e) = S754_zero false.
Proof.
  unfold F32.add. cbn [SFadd cond_Zopp]. rewrite Z.min_id.
  destruct (shl_align_spec m e e) as [_ K]. rewrite (K ltac:(lia)). cbn [fst].
  rewrite Z.add_opp_diag_l. reflexivity.
Qed.

Lemma roundToMillimeter_zero (fix_ub : float -> Z) (s : bool) :
  roundToMillimeter fix_ub (S754_zero s) = 0.
Proof. destruct s; reflexivity. Qed.

(** A number above 0.01 is a positive finite number or plus infinity. *)
Lemma gt_hundredth_cases (t : float) :
  F32.gt t (F32.lit 1 100) = true ->
  (exists m e, t = S754_finite false m e) \/ t = S754_infinity false.
Proof.
  destruct t as [s|s| |s m e]; try discriminate.
  - destruct s; [discriminate|]. right. reflexivity.
  - destruct s; [discriminate|]. left. eauto.
Qed.

Lemma div_zero_above (s : bool) (t : float) :
  F32.gt t (F32.lit 1 100) = true -> F32.div (S754_zero s) t = S754_zero s.
Proof.
  intros H. destruct (gt_hundredth_cases t H) as [(m & e & ->)| ->];
    destruct s; reflexivity.
Qed.

(** *** The shape of a rounded weight *)

Lemma pnorm_hundred : pnorm (-17) (-17) (F32.lit 100 1).
Proof. exists 13107200%positive, (-17). repeat split; try reflexivity; lia. Qed.

Lemma round_range (fix_ub : float -> Z) (x : float) :
  LONG_MIN <= round fix_ub x <= LONG_MAX.
Proof. unfold round. destruct (F32.ge x F32.zero); apply to_long_range. Qed.

Lemma of_Z_negative (n : Z) :
  - 2 ^ 31 <= n < 0 ->
  exists m e, F32.of_Z n = S754_finite true m e
              /\ Zpos (digits2_pos m) = 24 /\ -23 <= e <= 9.
Proof.
  intros Hn. destruct n as [|p|p]; try lia.
  unfold F32.of_Z. cbn [binary_normalize].
  assert (Dp : 1 <= Zpos (digits2_pos p) <= 32).
  { apply (digits2_pos_between p 0 32); [lia|]. simpl (2 ^ 0).
    change (2 ^ 32) with (2 * 2 ^ 31). lia. }
  destruct (binary_round_near true p 0 ltac:(lia) ltac:(lia))
    as (m & e & E & Dg & Re & _).
  exists m, e. repeat split; try assumption; lia.
Qed.

Lemma weight_cases (fix_ub : float -> Z) (x : float) :
  let w := roundWeightToDecagram fix_ub x in
  w = S754_zero false \/ pnorm (-30) 3 w \/ exists m e, w = S754_finite true m e.
Proof.
  unfold roundWeightToDecagram.
  pose proof (round_range fix_ub (F32.mul x (F32.of_Z 100))) as R.
  set (n := round fix_ub (F32.mul x (F32.of_Z 100))) in *. clearbody n.
  unfold LONG_MIN, LONG_MAX in R.
  destruct (Z.lt_trichotomy n 0) as [Neg|[Zero|Pos]].
  - right. right.
    destruct (of_Z_negative n ltac:(lia)) as (m & e & E & Dg & Re). rewrite E.
    destruct pnorm_hundred as (mh & eh & Eh & Dh & Rh). rewrite Eh.
    rewrite div_opp_l.
    destruct (div_pnorm (-23) 9 (-17) (-17) (S754_finite false m e)
                (S754_finite false mh eh)) as [(m' & e' & E' & _) _]; try lia.
    { exists m, e. repeat split; try assumption; lia. }
    { exists mh, eh. repeat split; try assumption; lia. }
    unfold F32.div. rewrite E'. simpl. eauto.
  - left. subst n. reflexivity.
  - right. left.
    destruct (of_Z_pnorm n ltac:(lia)) as [P _].
    destruct (div_pnorm _ _ _ _ _ _ P pnorm_hundred ltac:(lia) ltac:(lia)) as [P' _].
    eapply pnorm_weaken; [exact P'|lia|lia].
Qed.

Lemma weight_positive (fix_ub : float -> Z) (x : float) :
  F32.gt (roundWeightToDecagram fix_ub x) F32.zero = true ->
  pnorm (-30) 3 (roundWeightToDecagram fix_ub x).
Proof.
  destruct (weight_cases fix_ub x) as [E|[P|(m & e & E)]]; [|intros _; exact P|];
    rewrite E; discriminate.
Qed.

Lemma weight_nonnegative (fix_ub : float -> Z) (x : float) :
  F32.ge (roundWeightToDecagram fix_ub x) F32.zero = true ->
  roundWeightToDecagram fix_ub x = S754_zero false
  \/ pnorm (-30) 3 (roundWeightToDecagram fix_ub x).
Proof.
  destruct (weight_cases fix_ub x) as [E|[P|(m & e & E)]]; auto.
  rewrite E. discriminate.
Qed.

Lemma weight_zero (fix_ub : float -> Z) (x : float) :
  F32.eq (roundWeightToDecagram fix_ub x) F32.zero = true ->
  roundWeightToDecagram fix_ub x = S754_zero false.
Proof.
  destruct (weight_cases fix_ub x) as [E|[(m & e & E & _)|(m & e & E)]]; auto;
    rewrite E; discriminate.
Qed.

(** A weight times zero is a zero. *)
Lemma weight_times_zero (fix_ub : float -> Z) (x : float) :
  exists s, F32.mul (roundWeightToDecagram fix_ub x) F32.zero = S754_zero s.
Proof.
  destruct (weight_cases fix_ub x) as [E|[(m & e & E & _)|(m & e & E)]];
    rewrite E; eexists; reflexivity.
Qed.

(** *** The three reference loads *)

Lemma half_width_values :
  F32.div (F32.neg (BASE_WIDTH sketch_config)) (F32.lit 2 1) = S754_finite true 8847360 (-16)
  /\ F32.div (BASE_WIDTH sketch_config) (F32.lit 2 1) = S754_finite false 8847360 (-16).
Proof. split; reflexivity. Qed.

Lemma cogX_uniform (fix_ub : float -> Z) (w0 : float) :
  pnorm (-30) 3 w0 ->
  roundToMillimeter fix_ub (cogX_centered sketch_config (uniform w0)) = 0.
Proof.
  intros Hw.
  destruct (sum_weights_uniform w0 Hw) as [(mt & et & Et & _) _].
  unfold cogX_centered. cbv zeta. rewrite Et.
  unfold uniform. cbn [weight1 weight2 weight3 weight4].
  destruct half_width_values as [-> ->].
  assert (Px : pnorm (-16) (-16) (S754_finite false 8847360 (-16))).
  { exists 8847360%positive, (-16). repeat split; try reflexivity; lia. }
  destruct (mul_pnorm _ _ _ _ w0 _ Hw Px ltac:(lia) ltac:(lia))
    as [(m & e & E & _) _].
  destruct Hw as (m0 & e0 & -> & _).
  rewrite mul_opp_r. unfold F32.mul. rewrite E. cbn [SFopp negb].
  rewrite add_opp_self.
  change (F32.add (S754_zero false) (S754_finite true m e)) with (S754_finite true m e).
  rewrite add_opp_self.
  change (F32.div (S754_zero false) (S754_finite false mt et)) with (S754_zero false).
  apply roundToMillimeter_zero.
Qed.

Lemma cogY_single (fix_ub : float -> Z) (w0 : float) :
  pnorm (-30) 3 w0 ->
  roundToMillimeter fix_ub (F32.div (F32.mul w0 (BASE_LENGTH sketch_config)) w0) = 250.
Proof.
  intros Hw.
  destruct (mul_pnorm _ _ _ _ w0 (BASE_LENGTH sketch_config) Hw pnorm_BASE_LENGTH
              ltac:(lia) ltac:(lia)) as [Pp Np].
  fold (F32.mul w0 (BASE_LENGTH sketch_config)) in Pp, Np.
  set (p := F32.mul w0 (BASE_LENGTH sketch_config)) in *.
  pose proof (pnorm_B2Q_pos _ _ _ Hw) as W.
  unfold near, u in Np. rewrite B2Q_BASE_LENGTH in Np.
  destruct (div_between _ _ _ _ p w0 (2499 # 10) (2501 # 10) Pp Hw
              ltac:(lia) ltac:(lia)) as [Pr [R1 R2]].
  { unfold u. clearbody p. set (P := B2Q p) in *. set (X := B2Q w0) in *.
    clearbody P X. lra. }
  { unfold u. clearbody p. set (P := B2Q p) in *. set (X := B2Q w0) in *.
    clearbody P X. lra. }
  apply (roundToMillimeter_pnorm fix_ub _ _ _ 250 Pr); try lia.
  change (inject_Z 250) with 250%Q. split; lra.
Qed.

Lemma cogY_pair (fix_ub : float -> Z) (w3 w4 : float) :
  pnorm (-30) 3 w3 -> pnorm (-30) 3 w4 ->
  roundToMillimeter fix_ub
    (F32.div (F32.add (F32.mul w3 (BASE_LENGTH sketch_config))
                      (F32.mul w4 (BASE_LENGTH sketch_config)))
             (F32.add w3 w4)) = 250.
Proof.
  intros H3 H4.
  destruct (mul_pnorm _ _ _ _ w3 (BASE_LENGTH sketch_config) H3 pnorm_BASE_LENGTH
              ltac:(lia) ltac:(lia)) as [P3 N3].
  destruct (mul_pnorm _ _ _ _ w4 (BASE_LENGTH sketch_config) H4 pnorm_BASE_LENGTH
              ltac:(lia) ltac:(lia)) as [P4 N4].
  fold (F32.mul w3 (BASE_LENGTH sketch_config)) in P3, N3.
  fold (F32.mul w4 (BASE_LENGTH sketch_config)) in P4, N4.
  set (p3 := F32.mul w3 (BASE_LENGTH sketch_config)) in *.
  set (p4 := F32.mul w4 (BASE_LENGTH sketch_config)) in *.
  destruct (add_pnorm _ _ _ _ p3 p4 P3 P4 ltac:(lia) ltac:(lia) ltac:(lia) ltac:(lia))
    as [Py Ny].
  destruct (add_pnorm _ _ _ _ w3 w4 H3 H4 ltac:(lia) ltac:(lia) ltac:(lia) ltac:(lia))
    as [Pt Nt].
  fold (F32.add p3 p4) in Py, Ny. fold (F32.add w3 w4) in Pt, Nt.
  set (y := F32.add p3 p4) in *. set (t := F32.add w3 w4) in *.
  pose proof (pnorm_B2Q_pos _ _ _ H3) as W3.
  pose proof (pnorm_B2Q_pos _ _ _ H4) as W4.
  unfold near, u in N3, N4, Ny, Nt. rewrite B2Q_BASE_LENGTH in N3, N4.
  destruct (div_between _ _ _ _ y t (2499 # 10) (2501 # 10) Py Pt
              ltac:(lia) ltac:(lia)) as [Pr [R1 R2]].
  { unfold u. clearbody y t p3 p4.
    set (Y := B2Q y) in *. set (T := B2Q t) in *.
    set (A := B2Q p3) in *. set (B := B2Q p4) in *.
    set (X3 := B2Q w3) in *. set (X4 := B2Q w4) in *.
    clearbody Y T A B X3 X4. lra. }
  { unfold u. clearbody y t p3 p4.
    set (Y := B2Q y) in *. set (T := B2Q t) in *.
    set (A := B2Q p3) in *. set (B := B2Q p4) in *.
    set (X3 := B2Q w3) in *. set (X4 := B2Q w4) in *.
    clearbody Y T A B X3 X4. lra. }
  apply (roundToMillimeter_pnorm fix_ub _ _ _ 250 Pr); try lia.
  change (inject_Z 250) with 250%Q. split; lra.
Qed.

(** All the load on the rear pair, nothing negative. *)
Lemma cogY_rear_only (fix_ub : float -> Z) (w3 w4 : float) :
  w3 = S754_zero false \/ pnorm (-30) 3 w3 ->
  w4 = S754_zero false \/ pnorm (-30) 3 w4 ->
  F32.gt (sum_weights (rear_only w3 w4)) (F32.lit 1 100) = true ->
  roundToMillimeter fix_ub (cogY_fromLE sketch_config (rear_only w3 w4)) = 250.
Proof.
  intros H3 H4. unfold cogY_fromLE, sum_weights, rear_only. cbv zeta.
  cbn [weight1 weight2 weight3 weight4].
  change (F32.mul (S754_zero false) F32.zero) with (S754_zero false).
  change (F32.add (S754_zero false) (S754_zero false)) with (S754_zero false).
  destruct H3 as [->|H3], H4 as [->|H4].
  - discriminate.
  - change (F32.mul (S754_zero false) (BASE_LENGTH sketch_config)) with (S754_zero false).
    change (F32.add (S754_zero false) (S754_zero false)) with (S754_zero false).
    destruct (mul_pnorm _ _ _ _ w4 (BASE_LENGTH sketch_config) H4 pnorm_BASE_LENGTH
                ltac:(lia) ltac:(lia)) as [P4 _].
    fold (F32.mul w4 (BASE_LENGTH sketch_config)) in P4.
    rewrite (add_zero_pnorm _ _ false _ P4), (add_zero_pnorm _ _ false _ H4).
    intros _. apply cogY_single, H4.
  - change (F32.mul (S754_zero false) (BASE_LENGTH sketch_config)) with (S754_zero false).
    destruct (mul_pnorm _ _ _ _ w3 (BASE_LENGTH sketch_config) H3 pnorm_BASE_LENGTH
                ltac:(lia) ltac:(lia)) as [P3 _].
    fold (F32.mul w3 (BASE_LENGTH sketch_config)) in P3.
    rewrite (add_zero_pnorm _ _ false _ P3), (add_zero_pnorm _ _ false _ H3).
    rewrite (add_pnorm_zero _ _ false _ P3), (add_pnorm_zero _ _ false _ H3).
    intros _. apply cogY_single, H3.
  - destruct (mul_pnorm _ _ _ _ w3 (BASE_LENGTH sketch_config) H3 pnorm_BASE_LENGTH
                ltac:(lia) ltac:(lia)) as [P3 _].
    fold (F32.mul w3 (BASE_LENGTH sketch_config)) in P3.
    rewrite (add_zero_pnorm _ _ false _ P3), (add_zero_pnorm _ _ false _ H3).
    intros _. apply cogY_pair; assumption.
Qed.

Lemma add_zeros (s1 s2 : bool) :
  exists s, F32.add (S754_zero s1) (S754_zero s2) = S754_zero s.
Proof. destruct s1, s2; eexists; reflexivity. Qed.

(** Nothing on the rear pair. *)
Lemma cogY_front_only (fix_ub : float -> Z) (x1 x2 : float) :
  let w := {| weight1 := roundWeightToDecagram fix_ub x1;
              weight2 := roundWeightToDecagram fix_ub x2;
              weight3 := S754_zero false; weight4 := S754_zero false |} in
  F32.gt (sum_weights w) (F32.lit 1 100) = true ->
  roundToMillimeter fix_ub (cogY_fromLE sketch_config w) = 0.
Proof.
  intros w H. unfold cogY_fromLE. cbv zeta.
  subst w. cbn [weight1 weight2 weight3 weight4] in *.
  destruct (weight_times_zero fix_ub x1) as [s1 ->].
  destruct (weight_times_zero fix_ub x2) as [s2 ->].
  destruct (add_zeros s1 s2) as [s ->].
  change (F32.mul (S754_zero false) (BASE_LENGTH sketch_config)) with (S754_zero false).
  destruct (add_zeros s false) as [s' ->].
  destruct (add_zeros s' false) as [s'' ->].
  rewrite (div_zero_above _ _ H).
  apply roundToMillimeter_zero.
Qed.

(** The weights of a cycle are rounded weights. *)
Lemma cycle_weights_rounded (fix_ub : float -> Z) (cfg : Config) (rs : Reads) (st : State) :
  exists x1 x2 x3 x4 : float,
    cycle_weights fix_ub cfg rs st
    = {| weight1 := roundWeightToDecagram fix_ub x1;
         weight2 := roundWeightToDecagram fix_ub x2;
         weight3 := roundWeightToDecagram fix_ub x3;
         weight4 := roundWeightToDecagram fix_ub x4 |}.
Proof.
  unfold cycle_weights, acquire, smoothValue. cbv zeta. cbn [snd].
  eexists _, _, _, _. reflexivity.
Qed.

(** C3, amended: in a cycle of the sketch (base width 270, base length
    250) whose total weight is above 0.01 kg: when the four rounded weights
    are equal and positive the lateral offset is 0 and the longitudinal
    centre of gravity is 125, half the base length; when the two rear
    weights are zero the longitudinal centre of gravity is 0; when the two
    front weights are zero and neither rear weight is negative it is 250,
    the base length. *)
Theorem centre_of_gravity_of_reference_loads
        (fix_ub : float -> Z) (rs : Reads) (st : State) :
  let st' := updateWeightData fix_ub sketch_config rs st in
  let w := cycle_weights fix_ub sketch_config rs st in
  F32.gt (totalWeight (meas st')) (F32.lit 1 100) = true ->
  (weight1 w = weight2 w -> weight2 w = weight3 w -> weight3 w = weight4 w ->
   F32.gt (weight1 w) F32.zero = true ->
   lateralCogDiff (meas st') = 0 /\ cogY (meas st') = 125)
  /\ (F32.eq (weight3 w) F32.zero = true -> F32.eq (weight4 w) F32.zero = true ->
      cogY (meas st') = 0)
  /\ (F32.eq (weight1 w) F32.zero = true -> F32.eq (weight2 w) F32.zero = true ->
      F32.ge (weight3 w) F32.zero = true -> F32.ge (weight4 w) F32.zero = true ->
      cogY (meas st') = 250).
Proof.
  intros st' w H. subst st'.
  rewrite meas_updateWeightData in *.
  fold (cycle_weights fix_ub sketch_config rs st) in *. fold w in H |- *.
  rewrite totalWeight_centre in H.
  destruct (centre_sufficient fix_ub sketch_config w (meas st) H)
    as (_ & -> & -> & _).
  destruct (cycle_weights_rounded fix_ub sketch_config rs st)
    as (x1 & x2 & x3 & x4 & E).
  fold w in E. clearbody w. subst w.
  cbn [weight1 weight2 weight3 weight4].
  split; [|split].
  - intros E12 E23 E34 Hpos.
    pose proof (weight_positive fix_ub x1 Hpos) as P.
    rewrite <- E34, <- E23, <- E12.
    fold (uniform (roundWeightToDecagram fix_ub x1)).
    split; [apply cogX_uniform|apply cogY_uniform]; exact P.
  - intros Z3 Z4.
    rewrite (weight_zero fix_ub x3 Z3), (weight_zero fix_ub x4 Z4) in *.
    apply (cogY_front_only fix_ub x1 x2). exact H.
  - intros Z1 Z2 G3 G4.
    rewrite (weight_zero fix_ub x1 Z1), (weight_zero fix_ub x2 Z2) in *.
    fold (rear_only (roundWeightToDecagram fix_ub x3) (roundWeightToDecagram fix_ub x4))
      in *.
    apply cogY_rear_only; [apply weight_nonnegative, G3|apply weight_nonnegative, G4|].
    exact H.
Qed.

Lemma centre_of_gravity_of_reference_loads_witness :
  let st' := updateWeightData (fun _ => 0) sketch_config (all_reads 100000)
               example_warm in
  let w := cycle_weights (fun _ => 0) sketch_config (all_reads 100000) example_warm in
  F32.gt (totalWeight (meas st')) (F32.lit 1 100) = true
  /\ (weight1 w = weight2 w -> weight2 w = weight3 w -> weight3 w = weight4 w ->
      F32.gt (weight1 w) F32.zero = true ->
      lateralCogDiff (meas st') = 0 /\ cogY (meas st') = 125)
  /\ (F32.eq (weight3 w) F32.zero = true -> F32.eq (weight4 w) F32.zero = true ->
      cogY (meas st') = 0)
  /\ (F32.eq (weight1 w) F32.zero = true -> F32.eq (weight2 w) F32.zero = true ->
      F32.ge (weight3 w) F32.zero = true -> F32.ge (weight4 w) F32.zero = true ->
      cogY (meas st') = 250).
Proof.
  split.
  - vm_compute. reflexivity.
  - apply (centre_of_gravity_of_reference_loads (fun _ => 0) (all_reads 100000)
             example_warm).
    vm_compute. reflexivity.
Defined.

(** C3, as stated, fails in binary32: here the front weights are zero, the
    rear weights are 8010263 and -8010259 kg, the total is 4 kg and the
    longitudinal centre of gravity comes out as 256, not the base length
    250: the two products by 250 are rounded to multiples of 128 and their
    errors do not cancel. *)
Lemma opposed_rear_loads_miss_the_base_length :
  exists (rx : list ascii) (st : State),
    opposed_rear_run = Some (rx, st)
    /\ let st' := updateWeightData (fun _ => 0) sketch_config opposed_rear_reads st in
       let w := cycle_weights (fun _ => 0) sketch_config opposed_rear_reads st in
       F32.gt (totalWeight (meas st')) (F32.lit 1 100) = true
       /\ F32.eq (weight1 w) F32.zero = true
       /\ F32.eq (weight2 w) F32.zero = true
       /\ weight3 w = F32.lit 8010263 1
       /\ weight4 w = F32.lit (-8010259) 1
       /\ B2Q (BASE_LENGTH sketch_config) == 250
       /\ cogY (meas st') = 256.
Proof.
  eexists _, _. split; [vm_compute; reflexivity|].
  repeat split; vm_compute; reflexivity.
Qed.

Lemma cogX_is_always_zero_witness :
  exists (rx : list ascii) (st : State),
    opposed_rear_run = Some (rx, st)
    /\ report_values st = [OInt 0; OInt 0; OInt 0; OInt 0]
    /\ lateralCogDiff (meas st) <> 0
    /\ cogX (meas st) = 0
    /\ Forall (fun v => v = OInt 0) (cgx_reports (serial st))
    /\ forall (rs : Reads) (st0 : State),
        let st' := updateWeightData (fun _ => 0) sketch_config rs st0 in
        cogX (meas st')
        = if F32.gt (totalWeight (meas st')) (F32.lit 1 100) then cogX (meas st0) else 0.
Proof.
  eexists _, _. split; [vm_compute; reflexivity|].
  split; [vm_compute; reflexivity|].
  split; [vm_compute; discriminate|].
  refine (cogX_is_always_zero (fun _ => 0) decimal_toFloat sketch_config (all_reads 0)
            [command_turn "c3,1"; command_turn "c4,1";
             acquisition_turn opposed_rear_reads; acquisition_turn opposed_rear_reads;
             acquisition_turn opposed_rear_reads; acquisition_turn opposed_rear_reads]
            _ _ _).
  vm_compute. reflexivity.
Defined.

(** ** Calibration with four equal samples *)

(** The sum of four equal positive numbers. *)
Lemma spec_sum_equal (a b : Z) (x : float) :
  pnorm a b x -> -149 <= a -> b <= 96 ->
  pnorm a (b + 6) (spec_sum x x x x)
  /\ (B2Q x * (39999 # 10000) <= B2Q (spec_sum x x x x) <= B2Q x * (40001 # 10000))%Q.
Proof.
  intros Hw Ha Hb. unfold spec_sum, F32.add.
  destruct (add_pnorm _ _ _ _ x x Hw Hw ltac:(lia) ltac:(lia) ltac:(lia) ltac:(lia))
    as [P1 N1].
  destruct (add_pnorm _ _ _ _ _ x P1 Hw ltac:(lia) ltac:(lia) ltac:(lia) ltac:(lia))
    as [P2 N2].
  destruct (add_pnorm _ _ _ _ _ x P2 Hw ltac:(lia) ltac:(lia) ltac:(lia) ltac:(lia))
    as [P3 N3].
  split.
  - eapply pnorm_weaken; [exact P3|lia|lia].
  - pose proof (pnorm_B2Q_pos _ _ _ Hw) as W.
    unfold near, u in *.
    set (a1 := B2Q (SFadd F32.prec F32.emax x x)) in *.
    set (a2 := B2Q (SFadd F32.prec F32.emax _ x)) in *.
    set (t := B2Q (SFadd F32.prec F32.emax _ x)) in *.
    set (X := B2Q x) in *.
    clearbody a1 a2 t X. lra.
Qed.

Lemma pnorm_two : pnorm (-22) (-22) (F32.lit 2 1).
Proof. exists 8388608%positive, (-22). repeat split; try reflexivity; lia. Qed.

Lemma pnorm_four : pnorm (-21) (-21) (F32.lit 4 1).
Proof. exists 8388608%positive, (-21). repeat split; try reflexivity; lia. Qed.

Lemma B2Q_two : (B2Q (F32.lit 2 1) == 2)%Q.
Proof. reflexivity. Qed.

Lemma B2Q_four : (B2Q (F32.lit 4 1) == 4)%Q.
Proof. reflexivity. Qed.

(** The factor computed from four equal samples and a known weight of 2:
    it is 2 up to rounding. *)
Lemma equal_samples_factor (x : float) :
  pnorm (-23) 8 x ->
  let f := spec_scale_factor x (spec_sum x x x x) (F32.lit 2 1) in
  pnorm (-58) 16 f /\ (19999 # 10000 <= B2Q f <= 20001 # 10000)%Q.
Proof.
  intros Hx f. subst f. unfold spec_scale_factor.
  destruct (spec_sum_equal _ _ x Hx ltac:(lia) ltac:(lia)) as [Pt [T1 T2]].
  set (t := spec_sum x x x x) in *.
  pose proof (pnorm_B2Q_pos _ _ _ Hx) as X.
  destruct (div_between _ _ _ _ x t (249990 # 1000000) (250010 # 1000000) Hx Pt
              ltac:(lia) ltac:(lia)) as [Pq [Q1 Q2]].
  { unfold u. clearbody t. set (T := B2Q t) in *. set (A := B2Q x) in *.
    clearbody T A. lra. }
  { unfold u. clearbody t. set (T := B2Q t) in *. set (A := B2Q x) in *.
    clearbody T A. lra. }
  set (q := F32.div x t) in *.
  destruct (mul_pnorm _ _ _ _ q (F32.lit 2 1) Pq pnorm_two ltac:(lia) ltac:(lia))
    as [P1 N1].
  fold (F32.mul q (F32.lit 2 1)) in P1, N1. set (k := F32.mul q (F32.lit 2 1)) in *.
  destruct (mul_pnorm _ _ _ _ k (F32.lit 4 1) P1 pnorm_four ltac:(lia) ltac:(lia))
    as [P2 N2].
  fold (F32.mul k (F32.lit 4 1)) in P2, N2.
  split; [eapply pnorm_weaken; [exact P2|lia|lia]|].
  unfold near, u in N1, N2. rewrite B2Q_two in N1. rewrite B2Q_four in N2.
  set (F := B2Q (F32.mul k (F32.lit 4 1))) in *.
  clearbody k q t. set (K := B2Q k) in *. set (Q := B2Q q) in *.
  clearbody F K Q. split; lra.
Qed.

Lemma near_of_Z_bounds (r : Z) :
  1 <= r < 2 ^ 31 ->
  (inject_Z r * (1 - u) <= B2Q (F32.of_Z r) <= inject_Z r * (1 + u))%Q
  /\ (1 <= inject_Z r)%Q.
Proof.
  intros H. destruct (of_Z_pnorm r H) as [_ N]. split; [exact N|].
  change 1%Q with (inject_Z 1). apply inject_Z_le. lia.
Qed.

(** Reading the same raw value with that factor gives half the raw value,
    up to rounding. *)
Lemma equal_samples_reading (r : Z) (f : float) :
  1 <= r < 2 ^ 31 ->
  pnorm (-58) 16 f -> (19999 # 10000 <= B2Q f <= 20001 # 10000)%Q ->
  (inject_Z r * (49997 # 100000) <= B2Q (F32.div (F32.of_Z r) f)
   <= inject_Z r * (50003 # 100000))%Q.
Proof.
  intros Hr Pf [F1 F2].
  destruct (of_Z_pnorm r Hr) as [Pr _].
  destruct (near_of_Z_bounds r Hr) as [[R1 R2] R0].
  pose proof (pnorm_B2Q_pos _ _ _ Pf) as F0.
  destruct (div_between _ _ _ _ (F32.of_Z r) f
              (inject_Z r * (49997 # 100000)) (inject_Z r * (50003 # 100000)) Pr Pf
              ltac:(lia) ltac:(lia)) as [_ B]; [| |exact B].
  - unfold u in *. set (R := B2Q (F32.of_Z r)) in *. set (F := B2Q f) in *.
    set (n := inject_Z r) in *. clearbody R F n. nra.
  - unfold u in *. set (R := B2Q (F32.of_Z r)) in *. set (F := B2Q f) in *.
    set (n := inject_Z r) in *. clearbody R F n. nra.
Qed.

Lemma wrap32_small (z : Z) : LONG_MIN <= z <= LONG_MAX -> wrap32 z = z.
Proof.
  unfold wrap32, wrap, LONG_MIN, LONG_MAX. intros H.
  change (2 ^ (32 - 1)) with (2 ^ 31). change (2 ^ 32) with (2 * 2 ^ 31).
  rewrite Z.mod_small by lia. lia.
Qed.

Section EqualSamples.

Variable toFloat : string -> float.

(** What a completed calibration leaves in the cells. *)
Lemma calibration_result
      (env : CalReads) (rx rx1 rx2 : list ascii) (knownWeight : float)
      (out : list Out) (st : State) :
  await_tare rx = Some rx1 ->
  await_weight toFloat (S (List.length rx1)) rx1 [] = Some (knownWeight, rx2, out) ->
  exists st' : State,
    calibrateCellsViaSerial toFloat env rx st = Some (rx2, st')
    /\ cells st'
       = let c := tare_all (tare_reads env) (cells st) in
         compute_factors (get_value (rd1 (raw_reads env)) (scale1 c))
                         (get_value (rd2 (raw_reads env)) (scale2 c))
                         (get_value (rd3 (raw_reads env)) (scale3 c))
                         (get_value (rd4 (raw_reads env)) (scale4 c))
                         knownWeight c.
Proof.
  intros Ht Hw. unfold calibrateCellsViaSerial. rewrite Ht, Hw.
  eexists. split; reflexivity.
Qed.

(** What the calibration does with four equal samples: for every positive
    raw value [r], a calibration whose four raw samples equal [r] and whose
    known weight is 2.0 installs four equal scale factors, equal to 2 up to
    rounding, and the subsequent averaged read of the same raw value
    reports, on every channel, [r] divided by that factor: half the raw
    value up to rounding, which is near 0.5 only for [r = 1]. *)
Theorem equal_samples_calibration
        (ts : Reads) (r : Z) (rx rx1 rx2 : list ascii) (out : list Out) (st : State) :
  1 <= r < 2 ^ 31 ->
  await_tare rx = Some rx1 ->
  await_weight toFloat (S (List.length rx1)) rx1 [] = Some (F32.lit 2 1, rx2, out) ->
  exists (st' : State) (f : float),
    calibrateCellsViaSerial toFloat (equal_samples_env ts r) rx st = Some (rx2, st')
    /\ calibration_factor1 (cells st') = f /\ calibration_factor2 (cells st') = f
    /\ calibration_factor3 (cells st') = f /\ calibration_factor4 (cells st') = f
    /\ SCALE (scale1 (cells st')) = f /\ SCALE (scale2 (cells st')) = f
    /\ SCALE (scale3 (cells st')) = f /\ SCALE (scale4 (cells st')) = f
    /\ (19999 # 10000 <= B2Q f <= 20001 # 10000)%Q
    /\ get_units (rd1 ts + r) (scale1 (cells st')) = F32.div (F32.of_Z r) f
    /\ get_units (rd2 ts + r) (scale2 (cells st')) = F32.div (F32.of_Z r) f
    /\ get_units (rd3 ts + r) (scale3 (cells st')) = F32.div (F32.of_Z r) f
    /\ get_units (rd4 ts + r) (scale4 (cells st')) = F32.div (F32.of_Z r) f
    /\ (inject_Z r * (49997 # 100000) <= B2Q (F32.div (F32.of_Z r) f)
        <= inject_Z r * (50003 # 100000))%Q.
Proof.
  intros Hr Ht Hw.
  destruct (calibration_result (equal_samples_env ts r) rx rx1 rx2 _ out st Ht Hw)
    as (st' & E & C).
  assert (V : forall t : Z, F32.of_Z (wrap32 (t + r - t)) = F32.of_Z r).
  { intros t. replace (t + r - t) with r by lia.
    rewrite wrap32_small; [reflexivity|]. unfold LONG_MIN, LONG_MAX. lia. }
  cbv zeta in C.
  unfold get_value, equal_samples_env, raised, tare_all, tare in C.
  cbn [raw_reads tare_reads rd1 rd2 rd3 rd4 scale1 scale2 scale3 scale4 OFFSET] in C.
  rewrite !V in C.
  destruct (of_Z_pnorm r Hr) as [Pr _].
  destruct (equal_samples_factor (F32.of_Z r) Pr) as [Pf Bf].
  fold (spec_sum (F32.of_Z r) (F32.of_Z r) (F32.of_Z r) (F32.of_Z r)) in C.
  unfold compute_factors in C.
  fold (spec_sum (F32.of_Z r) (F32.of_Z r) (F32.of_Z r) (F32.of_Z r)) in C.
  fold (spec_scale_factor (F32.of_Z r)
          (spec_sum (F32.of_Z r) (F32.of_Z r) (F32.of_Z r) (F32.of_Z r)) (F32.lit 2 1))
    in C.
  set (f := spec_scale_factor _ _ _) in *. clearbody f.
  exists st', f. rewrite C.
  cbn [calibration_factor1 calibration_factor2 calibration_factor3 calibration_factor4
       scale1 scale2 scale3 scale4 SCALE OFFSET set_scale].
  unfold get_units, get_value, set_scale. cbn [SCALE OFFSET]. rewrite !V.
  repeat (split; [first [exact E|reflexivity|exact Bf]|]).
  apply equal_samples_reading; assumption.
Qed.

End EqualSamples.

Lemma equal_samples_calibration_witness :
  exists (st' : State) (f : float),
    calibrateCellsViaSerial decimal_toFloat (equal_samples_env (all_reads 8000) 100000)
      (received "t2.0" ++ [newline]) (setup (all_reads 8000)) = Some ([], st')
    /\ calibration_factor1 (cells st') = f /\ calibration_factor2 (cells st') = f
    /\ calibration_factor3 (cells st') = f /\ calibration_factor4 (cells st') = f
    /\ SCALE (scale1 (cells st')) = f /\ SCALE (scale2 (cells st')) = f
    /\ SCALE (scale3 (cells st')) = f /\ SCALE (scale4 (cells st')) = f
    /\ (19999 # 10000 <= B2Q f <= 20001 # 10000)%Q
    /\ get_units (rd1 (all_reads 8000) + 100000) (scale1 (cells st'))
       = F32.div (F32.of_Z 100000) f
    /\ get_units (rd2 (all_reads 8000) + 100000) (scale2 (cells st'))
       = F32.div (F32.of_Z 100000) f
    /\ get_units (rd3 (all_reads 8000) + 100000) (scale3 (cells st'))
       = F32.div (F32.of_Z 100000) f
    /\ get_units (rd4 (all_reads 8000) + 100000) (scale4 (cells st'))
       = F32.div (F32.of_Z 100000) f
    /\ (inject_Z 100000 * (49997 # 100000) <= B2Q (F32.div (F32.of_Z 100000) f)
        <= inject_Z 100000 * (50003 # 100000))%Q.
Proof.
  apply (equal_samples_calibration decimal_toFloat (all_reads 8000) 100000
           (received "t2.0" ++ [newline]) (received "2.0" ++ [newline]) []
           (print_s "Weight entered: " ++ print_f (F32.lit 2 1) 3 ++ println_s " kg")
           (setup (all_reads 8000))).
  - lia.
  - reflexivity.
  - vm_compute. reflexivity.
Defined.

(** C7: the code misses what the claim says.  With four equal raw samples
    of 100000 counts and a known weight of 2.0 the calibration does install
    four equal scale factors, but they are 2.0, the known weight, instead of
    the 200000 counts per kilogram that the load calls for; the averaged
    read of the same raw value, which the sketch prints as "Measured weights
    after calibration" in kg, is then 50000 on every channel, not 0.5. *)
Lemma equal_samples_do_not_read_half_a_kilogram :
  exists st' : State,
    calibrateCellsViaSerial decimal_toFloat (equal_samples_env (all_reads 8000) 100000)
      (received "t2.0" ++ [newline]) (setup (all_reads 8000)) = Some ([], st')
    /\ SCALE (scale1 (cells st')) = F32.lit 2 1
    /\ SCALE (scale2 (cells st')) = F32.lit 2 1
    /\ SCALE (scale3 (cells st')) = F32.lit 2 1
    /\ SCALE (scale4 (cells st')) = F32.lit 2 1
    /\ get_units 108000 (scale1 (cells st')) = F32.lit 50000 1
    /\ get_units 108000 (scale2 (cells st')) = F32.lit 50000 1
    /\ get_units 108000 (scale3 (cells st')) = F32.lit 50000 1
    /\ get_units 108000 (scale4 (cells st')) = F32.lit 50000 1
    /\ F32.lit 50000 1 <> F32.lit 5 10.
Proof.
  eexists. split; [vm_compute; reflexivity|].
  repeat split; try (vm_compute; reflexivity). vm_compute. discriminate.
Qed.

(** ** Opposite numbers *)

Lemma binary_round_opp (m : positive) (e : Z) :
  binary_round F32.prec F32.emax true m e
  = SFopp (binary_round F32.prec F32.emax false m e).
Proof.
  unfold binary_round.
  destruct (shl_align m e _) as [mz ez]. apply binary_round_aux_opp.
Qed.

Lemma add_opp_opp (mx my : positive) (ex ey : Z) :
  F32.add (S754_finite true mx ex) (S754_finite true my ey)
  = SFopp (F32.add (S754_finite false mx ex) (S754_finite false my ey)).
Proof.
  unfold F32.add. cbn [SFadd cond_Zopp].
  destruct (shl_align mx ex (Z.min ex ey)) as [a ea].
  destruct (shl_align my ey (Z.min ex ey)) as [b eb].
  cbn [fst Z.opp Z.add binary_normalize]. apply binary_round_opp.
Qed.

Lemma sub_opp_pos (mx my : positive) (ex ey : Z) :
  F32.sub (S754_finite true mx ex) (S754_finite false my ey)
  = SFopp (F32.add (S754_finite false mx ex) (S754_finite false my ey)).
Proof.
  unfold F32.sub, F32.add. cbn [SFsub SFadd cond_Zopp].
  destruct (shl_align mx ex (Z.min ex ey)) as [a ea].
  destruct (shl_align my ey (Z.min ex ey)) as [b eb].
  cbn [fst Z.opp Z.add Z.sub binary_normalize]. apply binary_round_opp.
Qed.

Lemma mul_opp_l (mx my : positive) (ex ey : Z) :
  F32.mul (S754_finite true mx ex) (S754_finite false my ey)
  = SFopp (F32.mul (S754_finite false mx ex) (S754_finite false my ey)).
Proof. unfold F32.mul. cbn [SFmul xorb]. apply binary_round_aux_opp. Qed.

Lemma of_Z_opp (n : Z) : F32.of_Z (- n) = SFopp (F32.of_Z n) \/ n = 0.
Proof.
  destruct n as [|p|p]; [right; reflexivity| |]; left; unfold F32.of_Z;
    cbn [Z.opp binary_normalize].
  - apply binary_round_opp.
  - rewrite binary_round_opp.
    destruct (binary_round F32.prec F32.emax false p 0) as [s|s| |s m e];
      try reflexivity; cbn [SFopp]; destruct s; reflexivity.
Qed.

Lemma B2Q_opp (x : float) : (B2Q (SFopp x) == - B2Q x)%Q.
Proof.
  destruct x as [s|s| |s m e]; cbn [SFopp B2Q]; try reflexivity.
  destruct s; cbn [negb]; ring.
Qed.

(** ** The smoothing filter *)

(** Evaluates the integer constants injected into [Q]. *)
Ltac eval_inject_Z :=
  repeat match goal with
         | |- context [inject_Z ?z] =>
           let v := eval vm_compute in (inject_Z z) in change (inject_Z z) with v
         | H : context [inject_Z ?z] |- _ =>
           let v := eval vm_compute in (inject_Z z) in change (inject_Z z) with v in H
         end.

Lemma partial_sum_step (a b : Z) (V : float) (j : Z) (s : float) (mark : bool) :
  pnorm a b V -> -149 <= a -> b <= 94 ->
  partial_sum a b V j s -> 0 <= j <= 4 ->
  partial_sum a b V (if mark then j + 1 else j)
    (F32.add s (if mark then V else F32.zero)).
Proof.
  intros HV Ha Hb H Hj. destruct mark.
  - right. destruct H as [[-> ->]|(Hj1 & Ps & Bs)].
    + split; [lia|]. rewrite (add_zero_pnorm _ _ false V HV).
      split; [eapply pnorm_weaken; [exact HV|lia|lia]|].
      pose proof (pnorm_B2Q_pos _ _ _ HV) as X.
      set (x := B2Q V) in *. clearbody x. eval_inject_Z. split; lra.
    + split; [lia|].
      destruct (add_pnorm _ _ _ _ s V Ps HV ltac:(lia) ltac:(lia) ltac:(lia) ltac:(lia))
        as [P N].
      split; [eapply pnorm_weaken; [exact P|lia|lia]|].
      pose proof (pnorm_B2Q_pos _ _ _ HV) as X.
      unfold near in N. unfold F32.add.
      set (S' := B2Q (SFadd F32.prec F32.emax s V)) in *.
      set (S0 := B2Q s) in *. set (x := B2Q V) in *. clearbody S' S0 x.
      assert (C : j = 1 \/ j = 2 \/ j = 3 \/ j = 4) by lia.
      destruct C as [->|[->|[->| ->]]]; eval_inject_Z; unfold u in *; split; lra.
  - destruct H as [[-> ->]|(Hj1 & Ps & Bs)].
    + left. split; reflexivity.
    + right. change F32.zero with (S754_zero false).
      rewrite (add_pnorm_zero _ _ false s Ps). auto.
Qed.

Lemma partial_sum_fold (a b : Z) (V : float) (marks : list bool) :
  pnorm a b V -> -149 <= a -> b <= 94 ->
  forall (j : Z) (s : float),
    partial_sum a b V j s -> 0 <= j -> j + Z.of_nat (List.length marks) <= 5 ->
    partial_sum a b V (j + marked marks) (fold_left F32.add (window_of V marks) s).
Proof.
  intros HV Ha Hb. unfold marked.
  induction marks as [|m marks IH]; intros j s H Hj Hl.
  - cbn. rewrite Z.add_0_r. exact H.
  - cbn [window_of map fold_left]. cbn [List.length] in Hl.
    pose proof (partial_sum_step a b V j s m HV Ha Hb H ltac:(lia)) as Hs.
    fold (window_of V marks).
    destruct m.
    + specialize (IH (j + 1) _ Hs ltac:(lia) ltac:(lia)).
      cbn [count_occ]. destruct (bool_dec true true) as [_|N]; [|congruence].
      replace (j + Z.of_nat (S (count_occ bool_dec marks true)))
        with (j + 1 + Z.of_nat (count_occ bool_dec marks true)) by lia.
      exact IH.
    + specialize (IH j _ Hs ltac:(lia) ltac:(lia)).
      cbn [count_occ]. destruct (bool_dec false true) as [N|_]; [congruence|].
      exact IH.
Qed.

(** The sums of a window of [- V] are the opposites of the sums of the
    window of [V], once a copy has been added. *)
Lemma opposite_sum_fold (a b : Z) (V : float) (marks : list bool) :
  pnorm a b V -> -149 <= a -> b <= 94 ->
  forall (j : Z) (s : float),
    partial_sum a b V j s -> 0 <= j -> j + Z.of_nat (List.length marks) <= 5 ->
    fold_left F32.add (window_of (SFopp V) marks) (if j =? 0 then s else SFopp s)
    = if j + marked marks =? 0 then fold_left F32.add (window_of V marks) s
      else SFopp (fold_left F32.add (window_of V marks) s).
Proof.
  intros HV Ha Hb. unfold marked.
  induction marks as [|m marks IH]; intros j s H Hj Hl.
  - cbn. rewrite Z.add_0_r. reflexivity.
  - cbn [window_of map fold_left]. cbn [List.length] in Hl.
    pose proof (partial_sum_step a b V j s m HV Ha Hb H ltac:(lia)) as Hs.
    fold (window_of V marks). fold (window_of (SFopp V) marks).
    destruct m.
    + specialize (IH (j + 1) _ Hs ltac:(lia) ltac:(lia)).
      cbn [count_occ]. destruct (bool_dec true true) as [_|N]; [|congruence].
      replace (j + Z.of_nat (S (count_occ bool_dec marks true)))
        with (j + 1 + Z.of_nat (count_occ bool_dec marks true)) by lia.
      rewrite <- IH. f_equal.
      replace (j + 1 =? 0) with false by (symmetry; apply Z.eqb_neq; lia).
      destruct HV as (mv & ev & -> & _).
      destruct H as [[-> ->]|(Hj1 & (ms & es & -> & _) & _)].
      * reflexivity.
      * replace (j =? 0) with false by (symmetry; apply Z.eqb_neq; lia).
        cbn [SFopp negb]. apply add_opp_opp.
    + specialize (IH j _ Hs ltac:(lia) ltac:(lia)).
      cbn [count_occ]. destruct (bool_dec false true) as [N|_]; [congruence|].
      rewrite <- IH. f_equal.
      destruct H as [[-> ->]|(Hj1 & (ms & es & -> & _) & _)].
      * reflexivity.
      * replace (j =? 0) with false by (symmetry; apply Z.eqb_neq; lia).
        reflexivity.
Qed.

Lemma sum_samples_fold (x0 x1 x2 x3 x4 : float) :
  sum_samples [x0; x1; x2; x3; x4] = fold_left F32.add [x0; x1; x2; x3; x4] F32.zero.
Proof. reflexivity. Qed.

Lemma pnorm_five : pnorm (-21) (-21) (F32.of_Z SMOOTHING_SAMPLES).
Proof. exists 10485760%positive, (-21). repeat split; try reflexivity; lia. Qed.

Lemma B2Q_five : (B2Q (F32.of_Z SMOOTHING_SAMPLES) == 5)%Q.
Proof. reflexivity. Qed.

(** The mean of a window holding [n >= 1] copies of a positive normal [V]
    is [n * V / 5] within two parts in a million. *)
Lemma window_mean_accuracy (V : float) (b0 b1 b2 b3 b4 : bool) :
  pnorm (-146) 94 V ->
  let marks := [b0; b1; b2; b3; b4] in
  1 <= marked marks ->
  let mean := F32.div (sum_samples (window_of V marks)) (F32.of_Z SMOOTHING_SAMPLES) in
  (inject_Z (marked marks) / 5 * B2Q V * (1 - (2 # 1000000)) <= B2Q mean
   <= inject_Z (marked marks) / 5 * B2Q V * (1 + (2 # 1000000)))%Q.
Proof.
  intros HV marks Hn mean. subst mean.
  replace (sum_samples (window_of V marks))
    with (fold_left F32.add (window_of V marks) F32.zero)
    by (subst marks; symmetry; apply sum_samples_fold).
  pose proof (partial_sum_fold (-146) 94 V marks HV ltac:(lia) ltac:(lia) 0 F32.zero
                ltac:(left; split; reflexivity) ltac:(lia) ltac:(cbn; lia)) as H.
  rewrite Z.add_0_l in H.
  set (n := marked marks) in *. clearbody n.
  set (s := fold_left F32.add (window_of V marks) F32.zero) in *. clearbody s.
  destruct H as [[Hz _]|(Hj & Ps & Bs)]; [lia|].
  pose proof (pnorm_B2Q_pos _ _ _ HV) as X.
  destruct (div_pnorm _ _ _ _ s _ Ps pnorm_five ltac:(lia) ltac:(lia)) as [_ N].
  unfold near in N. rewrite B2Q_five in N. unfold F32.div.
  set (R := B2Q (SFdiv F32.prec F32.emax s (F32.of_Z SMOOTHING_SAMPLES))) in *.
  set (S0 := B2Q s) in *. set (x := B2Q V) in *. clearbody R S0 x.
  assert (C : n = 1 \/ n = 2 \/ n = 3 \/ n = 4 \/ n = 5) by lia.
  unfold Qdiv in *. change (/ 5)%Q with (1 # 5)%Q in *.
  destruct C as [->|[->|[->|[->| ->]]]]; eval_inject_Z; unfold u in *;
    split; lra.
Qed.

(** The mean of the window of [- V] is the opposite of the mean of the
    window of [V]. *)
Lemma opposite_window_mean (V : float) (b0 b1 b2 b3 b4 : bool) :
  pnorm (-146) 94 V ->
  let marks := [b0; b1; b2; b3; b4] in
  1 <= marked marks ->
  F32.div (sum_samples (window_of (SFopp V) marks)) (F32.of_Z SMOOTHING_SAMPLES)
  = SFopp (F32.div (sum_samples (window_of V marks)) (F32.of_Z SMOOTHING_SAMPLES)).
Proof.
  intros HV marks Hn.
  replace (sum_samples (window_of V marks))
    with (fold_left F32.add (window_of V marks) F32.zero)
    by (subst marks; symmetry; apply sum_samples_fold).
  replace (sum_samples (window_of (SFopp V) marks))
    with (fold_left F32.add (window_of (SFopp V) marks) F32.zero)
    by (subst marks; symmetry; apply sum_samples_fold).
  pose proof (partial_sum_fold (-146) 94 V marks HV ltac:(lia) ltac:(lia) 0 F32.zero
                ltac:(left; split; reflexivity) ltac:(lia) ltac:(cbn; lia)) as H.
  pose proof (opposite_sum_fold (-146) 94 V marks HV ltac:(lia) ltac:(lia) 0 F32.zero
                ltac:(left; split; reflexivity) ltac:(lia) ltac:(cbn; lia)) as O.
  rewrite Z.add_0_l in H, O. change (0 =? 0) with true in O. cbv iota in O.
  rewrite O.
  replace (marked marks =? 0) with false by (symmetry; apply Z.eqb_neq; lia).
  destruct H as [[Hz _]|(_ & (ms & es & -> & _) & _)]; [lia|].
  cbn [SFopp negb]. apply div_opp_l.
Qed.

Lemma window_mean_of_zeros (s b0 b1 b2 b3 b4 : bool) :
  F32.div (sum_samples (window_of (S754_zero s) [b0; b1; b2; b3; b4]))
          (F32.of_Z SMOOTHING_SAMPLES)
  = S754_zero false.
Proof. destruct s, b0, b1, b2, b3, b4; reflexivity. Qed.

(** Either sign: the mean is [n * V / 5] within two parts in a million of
    its magnitude. *)
Lemma window_mean_accuracy_signed (V : float) (b0 b1 b2 b3 b4 : bool) :
  snorm (-146) 94 V ->
  let marks := [b0; b1; b2; b3; b4] in
  1 <= marked marks ->
  let mean := F32.div (sum_samples (window_of V marks)) (F32.of_Z SMOOTHING_SAMPLES) in
  (Qabs (B2Q mean - inject_Z (marked marks) / 5 * B2Q V)
   <= (2 # 1000000) * Qabs (inject_Z (marked marks) / 5 * B2Q V))%Q.
Proof.
  intros (s & m & e & -> & D & R) marks Hn mean. subst mean marks.
  assert (P : pnorm (-146) 94 (S754_finite false m e)).
  { exists m, e. repeat split; try assumption; lia. }
  pose proof (window_mean_accuracy _ b0 b1 b2 b3 b4 P Hn) as A.
  pose proof (pnorm_B2Q_pos _ _ _ P) as X.
  cbv zeta in A.
  set (k := marked [b0; b1; b2; b3; b4]) in *.
  assert (N : (0 < inject_Z k)%Q).
  { change 0%Q with (inject_Z 0). rewrite <- Zlt_Qlt. lia. }
  assert (T : (0 < inject_Z k / 5 * B2Q (S754_finite false m e))%Q).
  { apply Qmult_lt_0_compat; [|exact X]. apply Qlt_shift_div_l; lra. }
  destruct s.
  - change (S754_finite true m e) with (SFopp (S754_finite false m e)).
    rewrite (opposite_window_mean _ b0 b1 b2 b3 b4 P Hn).
    rewrite !B2Q_opp.
    set (r := B2Q (F32.div _ _)) in *. clearbody r.
    set (t := (inject_Z k / 5 * B2Q (S754_finite false m e))%Q) in *.
    setoid_replace (inject_Z k / 5 * - B2Q (S754_finite false m e))%Q
      with (- t)%Q by (subst t; field).
    clearbody t.
    rewrite Qabs_opp. rewrite (Qabs_pos t) by lra.
    apply Qabs_Qle_condition. split; lra.
  - set (r := B2Q (F32.div _ _)) in *. clearbody r.
    set (t := (inject_Z k / 5 * B2Q (S754_finite false m e))%Q) in *.
    clearbody t.
    rewrite (Qabs_pos t) by lra.
    apply Qabs_Qle_condition. split; lra.
Qed.

(** C4, amended: starting from a zero-filled window, with the shared index
    advanced once per cycle from any slot [i0], after [n] updates
    ([1 <= n <= 5]) with the same value [V] the window holds [V] in the [n]
    slots written and zero in the others, the index is [(i0 + n) mod 5], and
    the filter returns the binary32 mean of the window: the sum of the five
    slots divided by 5.  For a normal [V] of either sign with an exponent
    from -146 to 94, that is [2 ^ -123 <= |V| < 2 ^ 118], the mean differs
    from [n * V / 5] by at most two millionths of [|n * V / 5|], so that
    after five updates it is [V] up to that rounding error; for a zero [V]
    it is zero. *)
Theorem smoothing_after_updates (V : float) (i0 : Z) (n : nat) :
  0 <= i0 < SMOOTHING_SAMPLES -> (1 <= n <= 5)%nat ->
  let mean := F32.div (sum_samples (window_after n V i0)) (F32.of_Z SMOOTHING_SAMPLES) in
  feed n V zero_window i0
  = (window_after n V i0, (i0 + Z.of_nat n) mod SMOOTHING_SAMPLES, mean)
  /\ marked (written n i0) = Z.of_nat n
  /\ (snorm (-146) 94 V ->
      (Qabs (B2Q mean - inject_Z (Z.of_nat n) / 5 * B2Q V)
       <= (2 # 1000000) * Qabs (inject_Z (Z.of_nat n) / 5 * B2Q V))%Q)
  /\ (forall s : bool, V = S754_zero s -> mean = S754_zero false).
Proof.
  intros Hi Hn mean. subst mean. unfold window_after.
  assert (Ci : i0 = 0 \/ i0 = 1 \/ i0 = 2 \/ i0 = 3 \/ i0 = 4)
    by (unfold SMOOTHING_SAMPLES in Hi; lia).
  destruct n as [|[|[|[|[|[|n]]]]]]; try lia;
    destruct Ci as [->|[->|[->|[-> | ->]]]];
    (split; [cbv - [F32.add F32.div F32.of_Z]; reflexivity|]);
    (split; [reflexivity|]);
    match goal with
    | |- context [written ?k ?i] =>
      let w := eval vm_compute in (written k i) in change (written k i) with w
    end;
    (split;
     [intros HV;
      match goal with
      | |- context [window_of V [?b0; ?b1; ?b2; ?b3; ?b4]] =>
        apply (window_mean_accuracy_signed V b0 b1 b2 b3 b4 HV); vm_compute; discriminate
      end
     |intros s ->; apply window_mean_of_zeros]).
Qed.

(** C4, as stated, fails in binary32: after five updates with 0.03 the
    filter returns the number just below 0.03; and with [2 ^ 127] the sum
    of the window overflows, so that the filter returns infinity. *)
Lemma five_updates_do_not_return_the_value :
  let V := F32.lit 3 100 in
  let W := S754_finite false 8388608 104 in
  V = S754_finite false 16106127 (-29)
  /\ snd (feed 5 V zero_window 0) = S754_finite false 16106126 (-29)
  /\ snd (feed 5 V zero_window 0) <> V
  /\ (B2Q W == inject_Z (2 ^ 127))%Q
  /\ snd (feed 5 W zero_window 0) = S754_infinity false.
Proof.
  split; [reflexivity|]. split; [vm_compute; reflexivity|].
  split; [vm_compute; discriminate|]. split; vm_compute; reflexivity.
Qed.

Lemma smoothing_after_updates_witness :
  let V := F32.lit 3 100 in
  let mean := F32.div (sum_samples (window_after 3 V 4)) (F32.of_Z SMOOTHING_SAMPLES) in
  0 <= 4 < SMOOTHING_SAMPLES
  /\ (1 <= 3 <= 5)%nat
  /\ snorm (-146) 94 V
  /\ feed 3 V zero_window 4 = (window_after 3 V 4, 2, mean)
  /\ marked (written 3 4) = 3
  /\ (Qabs (B2Q mean - 3 / 5 * B2Q V) <= (2 # 1000000) * Qabs (3 / 5 * B2Q V))%Q.
Proof.
  assert (Hi : 0 <= 4 < SMOOTHING_SAMPLES) by (unfold SMOOTHING_SAMPLES; lia).
  assert (Hn : (1 <= 3 <= 5)%nat) by lia.
  assert (HV : snorm (-146) 94 (F32.lit 3 100)).
  { exists false, 16106127%positive, (-29). repeat split; try reflexivity; lia. }
  destruct (smoothing_after_updates (F32.lit 3 100) 4 3 Hi Hn) as (A & B & C & _).
  split; [exact Hi|]. split; [exact Hn|]. split; [exact HV|].
  split; [exact A|]. split; [exact B|]. exact (C HV).
Defined.

(** ** Rounding to an integer *)

Lemma wrap16_range (z : Z) : - 2 ^ 15 <= wrap16 z < 2 ^ 15.
Proof.
  unfold wrap16, wrap.
  pose proof (Z.mod_pos_bound (z + 2 ^ (16 - 1)) (2 ^ 16) ltac:(reflexivity)).
  change (2 ^ (16 - 1)) with (2 ^ 15) in *. change (2 ^ 16) with (2 * 2 ^ 15) in *. lia.
Qed.

Lemma wrap16_small (z : Z) : - 2 ^ 15 <= z < 2 ^ 15 -> wrap16 z = z.
Proof.
  intros H. unfold wrap16, wrap.
  change (2 ^ (16 - 1)) with (2 ^ 15) in *. change (2 ^ 16) with (2 * 2 ^ 15) in *.
  rewrite Z.mod_small by lia. lia.
Qed.

(** The integer part of a positive number, and of its opposite. *)
Lemma shiftl_floor (m : positive) (e N : Z) :
  (inject_Z N <= B2Q (S754_finite false m e))%Q ->
  (B2Q (S754_finite false m e) < inject_Z (N + 1))%Q ->
  Z.shiftl (Zpos m) e = N.
Proof.
  intros Hlo Hhi. rewrite B2Q_pos in Hlo, Hhi.
  destruct (Z_le_dec 0 e) as [P|P].
  - rewrite Z.shiftl_mul_pow2 by lia.
    rewrite bpow_Z, <- inject_Z_mult in Hlo, Hhi by lia.
    rewrite <- Zle_Qle in Hlo. rewrite <- Zlt_Qlt in Hhi. lia.
  - rewrite Z.shiftl_div_pow2 by lia.
    assert (K : 0 < 2 ^ (- e)) by (apply Z.pow_pos_nonneg; lia).
    assert (Eb : (bpow e * inject_Z (2 ^ (- e)) == 1)%Q).
    { rewrite <- bpow_Z, <- bpow_add by lia.
      replace (e + - e) with 0 by lia. reflexivity. }
    assert (Pk : (0 < inject_Z (2 ^ (- e)))%Q).
    { change 0%Q with (inject_Z 0). rewrite <- Zlt_Qlt. exact K. }
    assert (L1 : (inject_Z (N * 2 ^ (- e)) <= inject_Z (Zpos m))%Q).
    { rewrite inject_Z_mult.
      setoid_replace (inject_Z (Zpos m))
        with (inject_Z (Zpos m) * bpow e * inject_Z (2 ^ (- e)))%Q
        by (rewrite <- Qmult_assoc, Eb; ring).
      apply Qmult_le_compat_r; [exact Hlo|apply Qlt_le_weak, Pk]. }
    assert (L2 : (inject_Z (Zpos m) < inject_Z ((N + 1) * 2 ^ (- e)))%Q).
    { rewrite inject_Z_mult.
      setoid_replace (inject_Z (Zpos m))
        with (inject_Z (Zpos m) * bpow e * inject_Z (2 ^ (- e)))%Q
        by (rewrite <- Qmult_assoc, Eb; ring).
      apply Qmult_lt_compat_r; [exact Pk|exact Hhi]. }
    rewrite <- Zle_Qle in L1. rewrite <- Zlt_Qlt in L2.
    symmetry. apply (Z.div_unique_pos _ _ N (Zpos m - N * 2 ^ (- e))); lia.
Qed.

Lemma to_long_signed (fix_ub : float -> Z) (s : bool) (m : positive) (e N : Z) :
  0 <= N <= LONG_MAX ->
  (inject_Z N <= B2Q (S754_finite false m e))%Q ->
  (B2Q (S754_finite false m e) < inject_Z (N + 1))%Q ->
  to_long fix_ub (S754_finite s m e) = if s then - N else N.
Proof.
  intros HN Hlo Hhi. unfold to_long. rewrite (shiftl_floor m e N Hlo Hhi).
  unfold LONG_MIN, LONG_MAX in *.
  destruct s.
  - replace ((- 2 ^ 31 <=? - N) && (- N <=? 2 ^ 31 - 1)) with true; [reflexivity|].
    symmetry. apply andb_true_iff. split; apply Z.leb_le; lia.
  - replace ((- 2 ^ 31 <=? N) && (N <=? 2 ^ 31 - 1)) with true; [reflexivity|].
    symmetry. apply andb_true_iff. split; apply Z.leb_le; lia.
Qed.

(** [round] of a normal number of either sign: the magnitude plus one
    half, rounded once, then cut to its integer part, with the sign of the
    number. *)
Lemma round_signed (fix_ub : float -> Z) (a b : Z) (m : positive) (e : Z) :
  pnorm a b (S754_finite false m e) -> -149 <= a -> b <= 102 ->
  exists f : Q,
    near f (B2Q (S754_finite false m e) + (1 # 2))
    /\ ((f < inject_Z (2 ^ 31))%Q ->
        forall s : bool,
          round fix_ub (S754_finite s m e) = if s then - Qfloor f else Qfloor f).
Proof.
  intros Hx Ha Hb.
  destruct (add_pnorm a b (-24) (-24) _ F32.half Hx pnorm_half
              ltac:(lia) ltac:(lia) ltac:(lia) ltac:(lia)) as [(m' & e' & E & _) N1].
  unfold near in N1. rewrite B2Q_half in N1. unfold F32.add in N1. rewrite E in N1.
  exists (B2Q (S754_finite false m' e')). split; [exact N1|].
  intros Hf s.
  pose proof (B2Q_positive m' e') as Pf.
  set (f := B2Q (S754_finite false m' e')) in *.
  assert (HN : 0 <= Qfloor f <= LONG_MAX).
  { split.
    - change 0 with (Qfloor 0). apply Qfloor_resp_le. lra.
    - assert (Qfloor f < 2 ^ 31); [|unfold LONG_MAX; lia].
      rewrite Zlt_Qlt. eapply Qle_lt_trans; [apply Qfloor_le|exact Hf]. }
  unfold round. destruct s.
  - change (F32.ge (S754_finite true m e) F32.zero) with false. cbv iota.
    change F32.half with (S754_finite false 8388608 (-24)).
    rewrite sub_opp_pos.
    change (S754_finite false 8388608 (-24)) with F32.half.
    unfold F32.add. rewrite E. cbn [SFopp negb].
    rewrite (to_long_signed fix_ub true m' e' (Qfloor f) HN);
      [reflexivity|apply Qfloor_le|apply Qlt_floor].
  - change (F32.ge (S754_finite false m e) F32.zero) with true. cbv iota.
    unfold F32.add. rewrite E.
    rewrite (to_long_signed fix_ub false m' e' (Qfloor f) HN);
      [reflexivity|apply Qfloor_le|apply Qlt_floor].
Qed.

(** ** The percentage as a rounded quotient *)

Lemma B2Q_hundred : (B2Q (F32.lit 100 1) == 100)%Q.
Proof. reflexivity. Qed.

(** The magnitude of the percentage: [n / span * 100] computed in binary32
    and rounded by [round] is an integer within one half, and a rounding
    allowance, of the exact quotient. *)
Lemma percentage_magnitude (fix_ub : float -> Z) (span : float) (n : Z) :
  pnorm (-108) 102 span -> 1 <= n <= 2 ^ 15 ->
  let x := (inject_Z n / B2Q span * 100)%Q in
  (x <= 32766)%Q ->
  exists (mq : positive) (eq N : Z),
    F32.mul (F32.div (F32.of_Z n) span) (F32.lit 100 1) = S754_finite false mq eq
    /\ F32.mul (F32.div (SFopp (F32.of_Z n)) span) (F32.lit 100 1)
       = S754_finite true mq eq
    /\ (forall s : bool, round fix_ub (S754_finite s mq eq) = if s then - N else N)
    /\ 0 <= N < 2 ^ 15
    /\ (x - (1 # 2) - (x + 1) * (1 # 1000000) <= inject_Z N
        <= x + (1 # 2) + (x + 1) * (1 # 1000000))%Q.
Proof.
  intros Hs Hn x Hx.
  destruct (of_Z_pnorm n ltac:(change (2 ^ 31) with (2 ^ 16 * 2 ^ 15); lia)) as [P0 N0].
  destruct (div_pnorm _ _ _ _ _ _ P0 Hs ltac:(lia) ltac:(lia)) as [P1 N1].
  destruct (mul_pnorm _ _ _ _ _ _ P1 pnorm_hundred ltac:(lia) ltac:(lia)) as [P2 N2].
  fold (F32.div (F32.of_Z n) span) in *.
  fold (F32.mul (F32.div (F32.of_Z n) span) (F32.lit 100 1)) in *.
  pose proof (pnorm_B2Q_pos _ _ _ Hs) as Ps.
  pose proof (pnorm_B2Q_pos _ _ _ P2) as Pq.
  destruct P2 as (mq & eq & E & Dq & Rq).
  assert (P2 : pnorm (-143) 102 (S754_finite false mq eq)).
  { exists mq, eq. repeat split; try assumption; lia. }
  destruct (round_signed fix_ub _ _ mq eq P2 ltac:(lia) ltac:(lia))
    as (f & Nf & Rf).
  assert (Pn : (1 <= inject_Z n)%Q).
  { change 1%Q with (inject_Z 1). rewrite <- Zle_Qle. lia. }
  unfold near in N0, N1, N2, Nf. rewrite B2Q_hundred in N2. rewrite E in *.
  assert (Pt : (0 < / B2Q span)%Q) by (apply Qinv_lt_0_compat; exact Ps).
  unfold Qdiv in *.
  assert (L1 : (inject_Z n * / B2Q span * (1 - u)
                <= B2Q (F32.of_Z n) * / B2Q span)%Q).
  { setoid_replace (inject_Z n * / B2Q span * (1 - u))%Q
      with (inject_Z n * (1 - u) * / B2Q span)%Q by ring.
    apply Qmult_le_compat_r; [apply N0|apply Qlt_le_weak, Pt]. }
  assert (L2 : (B2Q (F32.of_Z n) * / B2Q span
                <= inject_Z n * / B2Q span * (1 + u))%Q).
  { setoid_replace (inject_Z n * / B2Q span * (1 + u))%Q
      with (inject_Z n * (1 + u) * / B2Q span)%Q by ring.
    apply Qmult_le_compat_r; [apply N0|apply Qlt_le_weak, Pt]. }
  assert (Pa : (0 < inject_Z n * / B2Q span)%Q).
  { apply Qmult_lt_0_compat; [lra|exact Pt]. }
  subst x.
  set (a := (inject_Z n * / B2Q span)%Q) in *.
  set (y1 := (B2Q (F32.of_Z n) * / B2Q span)%Q) in *.
  set (q1 := B2Q (F32.div (F32.of_Z n) span)) in *.
  set (q2 := B2Q (S754_finite false mq eq)) in *.
  clearbody a y1 q1 q2.
  assert (Hf : (f < inject_Z (2 ^ 31))%Q).
  { change (inject_Z (2 ^ 31)) with 2147483648%Q. unfold u in *. lra. }
  exists mq, eq, (Qfloor f).
  split; [reflexivity|].
  split.
  { destruct P0 as (m0 & e0 & E0 & _). destruct P1 as (m1 & e1 & E1 & _).
    destruct Hs as (ms & es & Es & _).
    rewrite E0, Es in *. cbn [SFopp negb]. rewrite div_opp_l, E1 in *.
    cbn [SFopp negb].
    change (F32.lit 100 1) with (S754_finite false 13107200 (-17)) in *.
    rewrite mul_opp_l, E. reflexivity. }
  split; [exact (Rf Hf)|].
  pose proof (Qfloor_le f) as F1. pose proof (Qlt_floor f) as F2.
  rewrite inject_Z_plus in F2. change (inject_Z 1) with 1%Q in F2.
  assert (B : (0 <= inject_Z (Qfloor f) < 32768)%Q).
  { split.
    - change 0%Q with (inject_Z 0). rewrite <- Zle_Qle.
      change 0 with (Qfloor 0). apply Qfloor_resp_le. unfold u in *. lra.
    - unfold u in *. lra. }
  split.
  { destruct B as [B1 B2]. change 0%Q with (inject_Z 0) in B1.
    change 32768%Q with (inject_Z (2 ^ 15)) in B2.
    rewrite <- Zle_Qle in B1. rewrite <- Zlt_Qlt in B2. lia. }
  unfold u in *. split; lra.
Qed.

(** The percentage of a longitudinal coordinate [y] for a positive normal
    span: an integer within one half, and a rounding allowance, of
    [y / span * 100], as long as this fits [int16_t]. *)
Lemma percentage_near (fix_ub : float -> Z) (span : float) (y : Z) :
  pnorm (-108) 102 span -> - 2 ^ 15 <= y < 2 ^ 15 ->
  let x := (inject_Z y / B2Q span * 100)%Q in
  (Qabs x <= 32766)%Q ->
  let p := wrap16 (round fix_ub (F32.mul (F32.div (F32.of_Z y) span) (F32.lit 100 1))) in
  (Qabs (inject_Z p - x) <= (1 # 2) + (Qabs x + 1) * (1 # 1000000))%Q.
Proof.
  intros Hs Hy x Hx p.
  pose proof (pnorm_B2Q_pos _ _ _ Hs) as Ps.
  assert (Pt : (0 < / B2Q span)%Q) by (apply Qinv_lt_0_compat; exact Ps).
  destruct (Z.lt_trichotomy y 0) as [Neg|[Zero|Pos]].
  - (* a negative coordinate *)
    set (n := - y).
    assert (Hn : 1 <= n <= 2 ^ 15) by (subst n; lia).
    assert (Ex : (x == - (inject_Z n / B2Q span * 100))%Q).
    { subst x n. rewrite inject_Z_opp. field. lra. }
    assert (Px : (0 < inject_Z n / B2Q span * 100)%Q).
    { unfold Qdiv. apply Qmult_lt_0_compat; [|reflexivity].
      apply Qmult_lt_0_compat; [|exact Pt].
      change 0%Q with (inject_Z 0). rewrite <- Zlt_Qlt. lia. }
    rewrite Ex, Qabs_opp, Qabs_pos in Hx by lra.
    destruct (percentage_magnitude fix_ub span n Hs Hn Hx)
      as (mq & eq & N & _ & E & R & B & A).
    assert (Ep : p = - N).
    { subst p. replace y with (- n) by (subst n; lia).
      destruct (of_Z_opp n) as [O|O]; [|lia].
      rewrite O, E, (R true). apply wrap16_small. lia. }
    rewrite Ep, Ex, Qabs_opp, (Qabs_pos _ (Qlt_le_weak _ _ Px)).
    rewrite inject_Z_opp.
    set (t := (inject_Z n / B2Q span * 100)%Q) in *. clearbody t.
    apply Qabs_Qle_condition. split; lra.
  - (* the coordinate zero *)
    assert (Ex : (x == 0)%Q) by (subst x y; unfold Qdiv; ring).
    assert (Ep : p = 0).
    { subst p y. destruct Hs as (ms & es & -> & _). reflexivity. }
    rewrite Ep, Ex. change (Qabs 0) with 0%Q. change (inject_Z 0) with 0%Q.
    apply Qabs_Qle_condition. split; lra.
  - (* a positive coordinate *)
    assert (Hn : 1 <= y <= 2 ^ 15) by lia.
    assert (Px : (0 < x)%Q).
    { subst x. unfold Qdiv. apply Qmult_lt_0_compat; [|reflexivity].
      apply Qmult_lt_0_compat; [|exact Pt].
      change 0%Q with (inject_Z 0). rewrite <- Zlt_Qlt. lia. }
    rewrite Qabs_pos in Hx by lra.
    destruct (percentage_magnitude fix_ub span y Hs Hn Hx)
      as (mq & eq & N & E & _ & R & B & A).
    assert (Ep : p = N).
    { subst p. rewrite E, (R false). apply wrap16_small. lia. }
    rewrite Ep, (Qabs_pos _ (Qlt_le_weak _ _ Px)).
    fold x in A. clearbody x.
    apply Qabs_Qle_condition. split; lra.
Qed.

Lemma pnorm_sketch_span : pnorm (-108) 102 (F32.lit 120 1).
Proof. exists 15728640%positive, (-17). repeat split; try reflexivity; lia. Qed.

Lemma B2Q_sketch_span : (B2Q (F32.lit 120 1) == 120)%Q.
Proof. reflexivity. Qed.

(** With the span of the sketch, 120 mm, the percentage is always one of
    the integers nearest to [y * 100 / 120]. *)
Lemma percentage_sketch (fix_ub : float -> Z) (y : Z) :
  - 2 ^ 15 <= y < 2 ^ 15 ->
  let p := wrap16 (round fix_ub (F32.mul (F32.div (F32.of_Z y) (F32.lit 120 1))
                                         (F32.lit 100 1))) in
  Z.abs (6 * p - 5 * y) <= 3.
Proof.
  intros Hy p.
  assert (Y1 : (-32768 <= inject_Z y)%Q).
  { change (-32768)%Q with (inject_Z (- 2 ^ 15)). rewrite <- Zle_Qle. lia. }
  assert (Y2 : (inject_Z y <= 32768)%Q).
  { change 32768%Q with (inject_Z (2 ^ 15)). rewrite <- Zle_Qle. lia. }
  assert (Ex : (inject_Z y / B2Q (F32.lit 120 1) * 100 == inject_Z y * (5 # 6))%Q).
  { rewrite B2Q_sketch_span. field. }
  assert (Hx : (Qabs (inject_Z y / B2Q (F32.lit 120 1) * 100) <= 32766)%Q).
  { rewrite Ex. apply Qabs_Qle_condition. split; lra. }
  pose proof (percentage_near fix_ub _ y pnorm_sketch_span Hy Hx) as H.
  cbv zeta in H. fold p in H.
  set (x := (inject_Z y / B2Q (F32.lit 120 1) * 100)%Q) in *.
  assert (H' : (Qabs (inject_Z p - x) <= 54 # 100)%Q).
  { eapply Qle_trans; [exact H|].
    set (ax := Qabs x) in *. clearbody ax. lra. }
  apply Qabs_Qle_condition in H'. clearbody x. rewrite Ex in H'.
  assert (B : (-4 < inject_Z (6 * p - 5 * y) < 4)%Q).
  { unfold Z.sub. rewrite inject_Z_plus, inject_Z_opp, !inject_Z_mult.
    change (inject_Z 6) with 6%Q. change (inject_Z 5) with 5%Q. split; lra. }
  destruct B as [B1 B2].
  change (-4)%Q with (inject_Z (-4)) in B1. change 4%Q with (inject_Z 4) in B2.
  rewrite <- Zlt_Qlt in B1, B2. lia.
Qed.

Lemma pnorm_gt_zero (a b : Z) (x : float) : pnorm a b x -> F32.gt x F32.zero = true.
Proof. intros (m & e & -> & _). reflexivity. Qed.

(** C8, amended: in a cycle whose total weight is above 0.01 kg, when the
    wing-peg span is a positive normal number (an exponent from -108 to 102,
    that is [2 ^ -85 <= span < 2 ^ 126]) and the longitudinal centre of
    gravity divided by the span, times 100, lies within -32766 .. 32766, the
    percentage is an integer that differs from that value by at most one
    half plus a rounding allowance of a millionth of its magnitude plus
    one: the value rounded to the nearest integer, where a value within the
    allowance of a half may go either way.  With the span of the sketch, 120
    mm, the percentage is always one of the integers nearest to
    [cogY * 100 / 120].  When the span is not above zero the percentage
    keeps the value it had before the cycle. *)
Theorem percentage_follows_span
        (fix_ub : float -> Z) (cfg : Config) (rs : Reads) (st : State) :
  let st' := updateWeightData fix_ub cfg rs st in
  let y := cogY (meas st') in
  let p := cogPercentage (meas st') in
  F32.gt (totalWeight (meas st')) (F32.lit 1 100) = true ->
  (pnorm (-108) 102 (WING_PEG_DIST cfg) ->
   let x := (inject_Z y / B2Q (WING_PEG_DIST cfg) * 100)%Q in
   (Qabs x <= 32766)%Q ->
   (Qabs (inject_Z p - x) <= (1 # 2) + (Qabs x + 1) * (1 # 1000000))%Q)
  /\ (WING_PEG_DIST cfg = F32.lit 120 1 -> Z.abs (6 * p - 5 * y) <= 3)
  /\ (F32.gt (WING_PEG_DIST cfg) F32.zero = false -> p = cogPercentage (meas st)).
Proof.
  intros st' y p H. subst y p st'.
  rewrite meas_updateWeightData in *.
  rewrite totalWeight_centre in H.
  destruct (centre_sufficient fix_ub cfg _ (meas st) H) as (_ & _ & Hy & _ & Hp).
  cbv zeta in Hy, Hp.
  set (m := fst (centre_of_gravity fix_ub cfg _ (meas st))) in *. clearbody m.
  assert (Ry : - 2 ^ 15 <= cogY m < 2 ^ 15).
  { rewrite Hy. unfold roundToMillimeter. apply wrap16_range. }
  rewrite Hp. split; [|split].
  - intros Hs x Hx. rewrite (pnorm_gt_zero _ _ _ Hs).
    exact (percentage_near fix_ub _ (cogY m) Hs Ry Hx).
  - intros E. rewrite E. change (F32.gt (F32.lit 120 1) F32.zero) with true. cbv iota.
    exact (percentage_sketch fix_ub (cogY m) Ry).
  - intros ->. reflexivity.
Qed.

(** C8, as stated, fails.  With a span of zero (or a negative one) a loaded
    cycle leaves in [cogPercentage] whatever was there, 117 or 5, instead
    of resetting it.  With a positive span the percentage need not be the
    nearest integer either: for a span of 1000/3 and a centre of gravity at
    125 mm the quotient times 100 is below 37.5 and the percentage is 38,
    and for a span of 0.1 the value 125000 does not fit [int16_t] and the
    percentage is -6072. *)
Lemma stale_percentage_without_span :
  let run p span :=
    meas (updateWeightData (fun _ => 0) (spanless_config span) (all_reads 100000)
            (with_percentage p example_warm)) in
  F32.gt (totalWeight (run 117 F32.zero)) (F32.lit 1 100) = true
  /\ F32.le F32.zero F32.zero = true
  /\ F32.le (F32.lit (-120) 1) F32.zero = true
  /\ cogPercentage (run 117 F32.zero) = 117
  /\ cogPercentage (run 5 F32.zero) = 5
  /\ cogPercentage (run 117 (F32.lit (-120) 1)) = 117
  /\ cogPercentage (run 5 (F32.lit (-120) 1)) = 5
  /\ F32.gt (F32.lit 1000 3) F32.zero = true
  /\ cogY (run 0 (F32.lit 1000 3)) = 125
  /\ (inject_Z 125 / B2Q (F32.lit 1000 3) * 100 < 37 + (1 # 2))%Q
  /\ cogPercentage (run 0 (F32.lit 1000 3)) = 38
  /\ F32.gt (F32.lit 1 10) F32.zero = true
  /\ cogY (run 0 (F32.lit 1 10)) = 125
  /\ cogPercentage (run 0 (F32.lit 1 10)) = -6072.
Proof.
  repeat split; vm_compute; reflexivity.
Qed.

Lemma percentage_follows_span_witness :
  let st' := updateWeightData (fun _ => 0) sketch_config (all_reads 100000)
               example_warm in
  let y := cogY (meas st') in
  let p := cogPercentage (meas st') in
  let x := (inject_Z y / B2Q (WING_PEG_DIST sketch_config) * 100)%Q in
  F32.gt (totalWeight (meas st')) (F32.lit 1 100) = true
  /\ pnorm (-108) 102 (WING_PEG_DIST sketch_config)
  /\ (Qabs x <= 32766)%Q
  /\ y = 125 /\ p = 104
  /\ (Qabs (inject_Z p - x) <= (1 # 2) + (Qabs x + 1) * (1 # 1000000))%Q
  /\ Z.abs (6 * p - 5 * y) <= 3.
Proof.
  assert (T : F32.gt (totalWeight (meas (updateWeightData (fun _ => 0) sketch_config
                                           (all_reads 100000) example_warm)))
                     (F32.lit 1 100) = true) by (vm_compute; reflexivity).
  destruct (percentage_follows_span (fun _ => 0) sketch_config (all_reads 100000)
              example_warm T) as (A & B & _).
  assert (X : (Qabs (inject_Z (cogY (meas (updateWeightData (fun _ => 0%Z) sketch_config
                                             (all_reads 100000%Z) example_warm)))
                     / B2Q (WING_PEG_DIST sketch_config) * 100) <= 32766)%Q)
    by (vm_compute; discriminate).
  split; [exact T|]. split; [exact pnorm_sketch_span|]. split; [exact X|].
  split; [vm_compute; reflexivity|]. split; [vm_compute; reflexivity|].
  split; [exact (A pnorm_sketch_span X)|exact (B eq_refl)].
Defined.
